(** * Birthday messaging service: scheduling and delivery engine

    A shallow embedding of [src/services/BirthdayService.ts],
    [src/services/EmailService.ts] and [src/services/UserService.ts], with
    the delete handler of [src/controllers/UserController.ts], together
    with the parts of their
    collaborators that their behaviour depends on: the two tables of the
    Prisma schema ([users], [message_logs]), the HTTP endpoint reached through
    axios, and the date arithmetic of moment-timezone.

    Instants are milliseconds since the Unix epoch, as in a JavaScript [Date].
    Asynchronous code is run to completion one call at a time; everything the
    code reads from outside (the clock, the remote HTTP endpoint, failures of
    the database connection, the random identifiers) is explicit in the
    [World] the operations are threaded through. *)

From Stdlib Require Import ZArith List String Ascii Bool Lia DecimalString.
From Stdlib Require Import Sorting.Sorted Sorting.Permutation.
Import ListNotations.

Open Scope string_scope.
Open Scope Z_scope.

(** ** JavaScript helpers *)

(** Template-literal rendering of an integer. *)
Definition showZ (n : Z) : string := NilZero.string_of_int (Z.to_int n).

(** [String.prototype.includes]. *)
Fixpoint includes (needle haystack : string) : bool :=
  prefix needle haystack
  || match haystack with
     | EmptyString => false
     | String _ rest => includes needle rest
     end.

(** Truthiness of a string: empty strings are falsy. *)
Definition truthy (s : string) : bool :=
  match s with EmptyString => false | _ => true end.

(** [parseInt(process.env.X || dflt)]: the variable's integer when it is set,
    the default otherwise. *)
Definition envInt (v : option Z) (dflt : Z) : Z :=
  match v with Some n => n | None => dflt end.

(** ** moment and moment-timezone

    The library is a dependency, not part of the repository. What is modelled
    is what the services call: [moment.tz(zone)], [moment.tz(date, zone)],
    [moment(date, 'YYYY-MM-DD')], the getters [month] and [date], the setters
    [hour], [minute], [second], [millisecond], [format('YYYY-MM-DD')] and
    [toDate]. The IANA data of a zone is a value of type [Zone]. The
    repository names no release of the library; the setters are those of
    moment-timezone up to 0.6.3, see [updateOffset]. *)
Module Moment.

Definition msPerMinute : Z := 60000.
Definition msPerHour : Z := 3600000.
Definition msPerDay : Z := 86400000.

(** *** Proleptic Gregorian calendar (the UTC fields of a [Date]) *)

Record Civil := mkCivil { year : Z; monthOfYear : Z; dayOfMonth : Z }.

Definition civilFromDays (z : Z) : Civil :=
  let z := z + 719468 in
  let era := z / 146097 in
  let doe := z - era * 146097 in
  let yoe := (doe - doe / 1460 + doe / 36524 - doe / 146096) / 365 in
  let y := yoe + era * 400 in
  let doy := doe - (365 * yoe + yoe / 4 - yoe / 100) in
  let mp := (5 * doy + 2) / 153 in
  let d := doy - (153 * mp + 2) / 5 + 1 in
  let m := if mp <? 10 then mp + 3 else mp - 9 in
  mkCivil (if m <=? 2 then y + 1 else y) m d.

Definition daysFromCivil (c : Civil) : Z :=
  let y := if monthOfYear c <=? 2 then year c - 1 else year c in
  let era := y / 400 in
  let yoe := y - era * 400 in
  let mp := if monthOfYear c >? 2 then monthOfYear c - 3 else monthOfYear c + 9 in
  let doy := (153 * mp + 2) / 5 + dayOfMonth c - 1 in
  let doe := yoe * 365 + yoe / 4 - yoe / 100 + doy in
  era * 146097 + doe - 719468.

Definition isLeapYear (y : Z) : bool :=
  ((y mod 4 =? 0) && negb (y mod 100 =? 0)) || (y mod 400 =? 0).

Definition daysInMonth (y m : Z) : Z :=
  if m =? 2 then (if isLeapYear y then 29 else 28)
  else if (m =? 4) || (m =? 6) || (m =? 9) || (m =? 11) then 30
  else 31.

Definition validCivil (c : Civil) : bool :=
  (1 <=? monthOfYear c) && (monthOfYear c <=? 12)
  && (1 <=? dayOfMonth c) && (dayOfMonth c <=? daysInMonth (year c) (monthOfYear c)).

(** *** Text of a calendar date *)

Definition digitOf (c : ascii) : option Z :=
  let n := Z.of_nat (nat_of_ascii c) in
  if (48 <=? n) && (n <=? 57) then Some (n - 48) else None.

Definition digits2 (a b : ascii) : option Z :=
  match digitOf a, digitOf b with
  | Some x, Some y => Some (10 * x + y)
  | _, _ => None
  end.

Definition isDash (c : ascii) : bool := Ascii.eqb c "-"%char.

(** A string of the shape [dddd-dd-dd] naming a date of the calendar. The
    user schema admits only such birthdays, and [format('YYYY-MM-DD')]
    produces only such strings for the years 0 to 9999. *)
Definition parseYMD (s : string) : option Civil :=
  match s with
  | String y1 (String y2 (String y3 (String y4 (String d1 (String m1
      (String m2 (String d2 (String a1 (String a2 EmptyString))))))))) =>
      match digits2 y1 y2, digits2 y3 y4, digits2 m1 m2, digits2 a1 a2 with
      | Some yh, Some yl, Some m, Some d =>
          let c := mkCivil (100 * yh + yl) m d in
          if isDash d1 && isDash d2 && validCivil c then Some c else None
      | _, _, _, _ => None
      end
  | _ => None
  end.

Fixpoint zeros (n : nat) : string :=
  match n with O => EmptyString | S k => String "0"%char (zeros k) end.

(** moment's [zeroFill(number, targetLength)] without forced sign. *)
Definition zeroFill (number : Z) (targetLength : nat) : string :=
  let absNumber := showZ (Z.abs number) in
  let zerosToFill := (targetLength - String.length absNumber)%nat in
  let sign := if 0 <=? number then "" else "-" in
  (sign ++ zeros zerosToFill ++ absNumber)%string.

Definition formatYMD (c : Civil) : string :=
  (zeroFill (year c) 4 ++ "-" ++ zeroFill (monthOfYear c) 2 ++ "-"
     ++ zeroFill (dayOfMonth c) 2)%string.

(** *** Zones

    moment-timezone keeps, for a zone, the instants [untils] at which an
    offset stops applying and the [offsets] themselves, in minutes to add
    to local time to reach UTC (300 for UTC-05:00). The last offset has no
    end: [offsets] is one longer than [untils]. *)
Record Zone := mkZone { untils : list Z; offsets : list Z }.

Definition UTC : Zone := mkZone [] [0].

(** [Zone.utcOffset(timestamp)]: the offset of the first period that ends
    after the instant. *)
Fixpoint offsetAt (us os : list Z) (timestamp : Z) : Z :=
  match us, os with
  | u :: us', o :: os' => if timestamp <? u then o else offsetAt us' os' timestamp
  | [], o :: _ => o
  | _, [] => 0
  end.

Definition utcOffset (z : Zone) (timestamp : Z) : Z :=
  offsetAt (untils z) (offsets z) timestamp.

(** [Zone.parse(timestamp)], the offset for a wall-clock reading, with the
    library's defaults [moveInvalidForward = true] and
    [moveAmbiguousForward = false]. *)
Fixpoint parseFrom (offsetPrev : Z) (us os : list Z) (target : Z) : Z :=
  match us, os with
  | u :: us', o :: os' =>
      let offset := if offsetPrev <? o then offsetPrev else o in
      if target <? u - offset * msPerMinute then o
      else parseFrom o us' os' target
  | [], o :: _ => o
  | _, [] => 0
  end.

Definition parse (z : Zone) (target : Z) : Z :=
  parseFrom (hd 0 (offsets z)) (untils z) (offsets z) target.

(** *** Moments

    A moment in a zone keeps [_d], whose UTC fields read the wall clock, and
    [_offset], minutes east of UTC. *)
Record moment := mkMoment { _d : Z; _offset : Z; _z : Zone }.

Definition valueOf (m : moment) : Z := _d m - _offset m * msPerMinute.

Definition toDate (m : moment) : Z := valueOf m.

(** [utcOffset(input)] without [keepLocalTime]: the offset changes and the
    wall clock moves with it, the instant stays. *)
Definition shiftOffset (m : moment) (input : Z) : moment :=
  if _offset m =? input then m
  else mkMoment (_d m + (input - _offset m) * msPerMinute) input (_z m).

(** [moment.updateOffset(mom, keepTime)] of moment-timezone, as its releases
    up to 0.6.3 have it: the offset of the zone at the moment's instant
    becomes the moment's offset. With [keepTime] the wall clock is kept and
    the instant moves. (The zone is detached while [utcOffset] runs, so the
    offset is looked up once.) With a wall time that the zone skips, a later
    release does otherwise: for 02:30 in New York on 14 March 2027, these
    setters give 06:30Z and release 0.6.5 gives 07:30Z. *)
Definition updateOffset (m : moment) (keepTime : bool) : moment :=
  let input := - utcOffset (_z m) (valueOf m) in
  if keepTime then mkMoment (_d m) input (_z m)
  else shiftOffset m input.

(** [moment.tz(zone)]: the current instant, read in the zone. *)
Definition tzNow (z : Zone) (now : Z) : moment :=
  updateOffset (mkMoment now 0 z) false.

(** [moment.tz(date, zone)] for the text of a date: local midnight. An
    unknown date gives an invalid moment. *)
Definition tzDate (z : Zone) (date : string) : option moment :=
  match parseYMD date with
  | Some c =>
      let wall := daysFromCivil c * msPerDay in
      let out := wall + parse z wall * msPerMinute in
      Some (updateOffset (mkMoment out 0 z) false)
  | None => None
  end.

(** Setters: [Date.prototype.setUTCHours] and the like on [_d], then
    [updateOffset]; only [hour] keeps the wall clock. *)
Definition hour (m : moment) (value : Z) : moment :=
  let t := _d m in
  updateOffset
    (mkMoment (t / msPerDay * msPerDay + value * msPerHour + t mod msPerHour)
              (_offset m) (_z m)) true.

Definition minute (m : moment) (value : Z) : moment :=
  let t := _d m in
  updateOffset
    (mkMoment (t - t mod msPerHour + value * msPerMinute + t mod msPerMinute)
              (_offset m) (_z m)) false.

Definition second (m : moment) (value : Z) : moment :=
  let t := _d m in
  updateOffset
    (mkMoment (t - t mod msPerMinute + value * 1000 + t mod 1000)
              (_offset m) (_z m)) false.

Definition millisecond (m : moment) (value : Z) : moment :=
  let t := _d m in
  updateOffset (mkMoment (t - t mod 1000 + value) (_offset m) (_z m)) false.

(** Getters on the wall clock. *)
Definition civilOf (m : moment) : Civil := civilFromDays (_d m / msPerDay).

(** [month()] counts from zero. *)
Definition month (m : moment) : Z := monthOfYear (civilOf m) - 1.

Definition date (m : moment) : Z := dayOfMonth (civilOf m).

Definition format (m : moment) : string := formatYMD (civilOf m).

(** The civil date in a zone at an instant. *)
Definition civilDate (z : Zone) (now : Z) : Civil := civilOf (tzNow z now).

End Moment.

(** ** Data model (the Prisma schema, as the migration creates it) *)

Inductive MessageStatus := PENDING | SENT | FAILED | RETRY.

Inductive MessageType := BIRTHDAY | ANNIVERSARY.

Definition MessageStatus_eqb (a b : MessageStatus) : bool :=
  match a, b with
  | PENDING, PENDING | SENT, SENT | FAILED, FAILED | RETRY, RETRY => true
  | _, _ => false
  end.

Definition MessageType_eqb (a b : MessageType) : bool :=
  match a, b with
  | BIRTHDAY, BIRTHDAY | ANNIVERSARY, ANNIVERSARY => true
  | _, _ => false
  end.

(** Table [users]. *)
Module User.
Record t := mk {
  id : string;
  firstName : string;
  lastName : string;
  email : string;
  birthday : string;
  timezone : string;
  isActive : bool;
  createdAt : Z;
  updatedAt : Z
}.
End User.

(** Table [message_logs]. *)
Module MessageLog.
Record t := mk {
  id : string;
  userId : string;
  messageType : MessageType;
  message : string;
  status : MessageStatus;
  scheduledDate : string;
  scheduledAt : Z;
  sentAt : option Z;
  retryCount : Z;
  errorMessage : option string;
  lockId : option string;
  lockedUntil : option Z;
  createdAt : Z
}.

(** The [data] objects of the updates that the birthday service issues. *)

(** [{ lockId, lockedUntil }] *)
Definition lockData (l : string) (until : Z) (r : t) : t :=
  mk (id r) (userId r) (messageType r) (message r) (status r)
     (scheduledDate r) (scheduledAt r) (sentAt r) (retryCount r)
     (errorMessage r) (Some l) (Some until) (createdAt r).

(** [{ status: SENT, sentAt, lockId: null, lockedUntil: null, errorMessage: null }] *)
Definition sentData (at_ : Z) (r : t) : t :=
  mk (id r) (userId r) (messageType r) (message r) SENT
     (scheduledDate r) (scheduledAt r) (Some at_) (retryCount r)
     None None None (createdAt r).

(** [{ status, retryCount, errorMessage, lockId: null, lockedUntil: null }] *)
Definition failureData (s : MessageStatus) (count : Z) (err : string) (r : t) : t :=
  mk (id r) (userId r) (messageType r) (message r) s
     (scheduledDate r) (scheduledAt r) (sentAt r) count
     (Some err) None None (createdAt r).

(** [{ lockId: null, lockedUntil: null }] *)
Definition unlockData (r : t) : t :=
  mk (id r) (userId r) (messageType r) (message r) (status r)
     (scheduledDate r) (scheduledAt r) (sentAt r) (retryCount r)
     (errorMessage r) None None (createdAt r).

(** The unique index [(user_id, message_type, scheduled_date)]. *)
Definition hasKey (u : string) (ty : MessageType) (d : string) (r : t) : bool :=
  String.eqb (userId r) u && MessageType_eqb (messageType r) ty
  && String.eqb (scheduledDate r) d.
End MessageLog.

(** What axios gives back. *)
Module Axios.
Record Payload := mkPayload { email : string; message : string }.

(** [data] is the body of the response as JSON text. *)
Record Response := mkResponse {
  status : Z;
  statusText : string;
  data : option string
}.

Record Error := mkError {
  code : option string;
  errorMessage : string;
  response : option Response
}.

Inductive Outcome :=
| Resolve (r : Response)
| Reject (e : Error).
End Axios.

(** [process.env]: the integer of each variable that is set. *)
Record Env := mkEnv {
  EMAIL_SERVICE_TIMEOUT : option Z;
  EMAIL_SERVICE_MAX_RETRIES : option Z;
  EMAIL_SERVICE_RETRY_DELAY : option Z;
  CIRCUIT_BREAKER_THRESHOLD : option Z;
  CIRCUIT_BREAKER_RESET_MS : option Z;
  BIRTHDAY_MESSAGE_HOUR : option Z;
  BIRTHDAY_MESSAGE_MINUTE : option Z
}.

Definition defaultEnv : Env := mkEnv None None None None None None None.

(** The fields of an [EmailService] object. *)
Record EmailMetrics := mkMetrics {
  totalAttempts : Z;
  successCount : Z;
  failureCount : Z;
  timeoutCount : Z;
  lastError : option string;
  lastSuccess : option Z
}.

Record EmailServiceState := mkService {
  timeout : Z;
  maxRetries : Z;
  retryDelay : Z;
  circuitBreakerThreshold : Z;
  circuitBreakerResetTime : Z;
  metrics : EmailMetrics;
  circuitBreakerOpenUntil : option Z
}.

(** ** The world the services run in *)

(** What the code does not decide: the environment, the zone data, the
    outcome of the n-th HTTP request, whether the n-th database call fails,
    and the n-th random identifier. *)
Record Platform := mkPlatform {
  env : Env;
  zones : string -> option Moment.Zone;
  remote : nat -> Axios.Outcome;
  dbFault : nat -> bool;
  uuid : nat -> string
}.

(** What the code reads and writes. [outbox] lists the HTTP requests made, in
    order; [dbCalls] and [uuidCalls] count the database calls and the
    identifiers drawn. *)
Record World := mkWorld {
  now : Z;
  users : list User.t;
  messageLogs : list MessageLog.t;
  emailService : EmailServiceState;
  outbox : list Axios.Payload;
  dbCalls : nat;
  uuidCalls : nat
}.

Definition setNow (t : Z) (w : World) : World :=
  mkWorld t (users w) (messageLogs w) (emailService w) (outbox w) (dbCalls w) (uuidCalls w).

Definition setUsers (us : list User.t) (w : World) : World :=
  mkWorld (now w) us (messageLogs w) (emailService w) (outbox w) (dbCalls w) (uuidCalls w).

Definition setMessageLogs (ls : list MessageLog.t) (w : World) : World :=
  mkWorld (now w) (users w) ls (emailService w) (outbox w) (dbCalls w) (uuidCalls w).

Definition setEmailService (s : EmailServiceState) (w : World) : World :=
  mkWorld (now w) (users w) (messageLogs w) s (outbox w) (dbCalls w) (uuidCalls w).

Definition setOutbox (o : list Axios.Payload) (w : World) : World :=
  mkWorld (now w) (users w) (messageLogs w) (emailService w) o (dbCalls w) (uuidCalls w).

Definition setDbCalls (n : nat) (w : World) : World :=
  mkWorld (now w) (users w) (messageLogs w) (emailService w) (outbox w) n (uuidCalls w).

Definition setUuidCalls (n : nat) (w : World) : World :=
  mkWorld (now w) (users w) (messageLogs w) (emailService w) (outbox w) (dbCalls w) n.

(** A computation returns or throws, and leaves a world either way. *)
Inductive Completion (A : Type) :=
| Return (a : A)
| Throw (e : string).

Arguments Return {A} a.
Arguments Throw {A} e.

Definition M (A : Type) : Type := World -> Completion A * World.

Definition ret {A} (a : A) : M A := fun w => (Return a, w).

Definition throw {A} (e : string) : M A := fun w => (Throw e, w).

Definition bind {A B} (m : M A) (k : A -> M B) : M B :=
  fun w =>
    match m w with
    | (Return a, w') => k a w'
    | (Throw e, w') => (Throw e, w')
    end.

(** [try { body } catch (error) { handler }] *)
Definition tryCatch {A} (body : M A) (handler : string -> M A) : M A :=
  fun w =>
    match body w with
    | (Return a, w') => (Return a, w')
    | (Throw e, w') => handler e w'
    end.

Declare Scope js_scope.
Delimit Scope js_scope with js.

Notation "x <- m ;; k" := (bind m (fun x => k))
  (at level 61, m at next level, right associativity) : js_scope.
Notation "m ;; k" := (bind m (fun _ => k))
  (at level 61, right associativity) : js_scope.

Open Scope js_scope.

(** [for (const x of xs) { await body(x) }] *)
Fixpoint forOf {A} (xs : list A) (body : A -> M unit) : M unit :=
  match xs with
  | [] => ret tt
  | x :: rest => body x ;; forOf rest body
  end.

(** [new Date()] and [Date.now()]. *)
Definition newDate : M Z := fun w => (Return (now w), w).

(** [uuidv4()]. *)
Definition uuidv4 (P : Platform) : M string :=
  fun w => (Return (uuid P (uuidCalls w)), setUuidCalls (S (uuidCalls w)) w).

(** The time that a timer of Node waits: a delay below 1 or above
    [TIMEOUT_MAX] is set to 1. *)
Definition TIMEOUT_MAX : Z := 2147483647.

Definition timerDelay (ms : Z) : Z :=
  if (1 <=? ms) && (ms <=? TIMEOUT_MAX) then ms else 1.

(** [setTimeout(resolve, ms)]. The clock of the model moves only while the
    code waits in a timer, and by the delay of the timer: the time that an
    HTTP exchange or a query takes is not counted, so that a distance on
    [now] is the time waited in timers, a lower bound of the time that
    passes. *)
Definition delay (ms : Z) : M unit :=
  fun w => (Return tt, setNow (now w + timerDelay ms) w).

Definition run {A} (m : M A) (w : World) : World := snd (m w).

(** ** Prisma client *)
Module Prisma.
Section Client.
Variable P : Platform.

(** Every query is a round trip that may fail. *)
Definition query {A} (op : M A) : M A :=
  fun w =>
    let w' := setDbCalls (S (dbCalls w)) w in
    if dbFault P (dbCalls w) then (Throw "PrismaClientKnownRequestError", w')
    else op w'.

Definition userOf (us : list User.t) (r : MessageLog.t) : option User.t :=
  find (fun u => String.eqb (User.id u) (MessageLog.userId r)) us.

(** [orderBy: { scheduledAt: 'asc' }], rows of equal instant in table order. *)
Fixpoint insertByScheduledAt (r : MessageLog.t) (l : list MessageLog.t) :=
  match l with
  | [] => [r]
  | x :: rest =>
      if MessageLog.scheduledAt r <=? MessageLog.scheduledAt x then r :: l
      else x :: insertByScheduledAt r rest
  end.

Definition orderByScheduledAt (l : list MessageLog.t) : list MessageLog.t :=
  fold_right insertByScheduledAt [] l.

(** [prisma.user.findMany({ where })] *)
Definition user_findMany (where_ : User.t -> bool) : M (list User.t) :=
  query (fun w => (Return (filter where_ (users w)), w)).

(** [prisma.messageLog.findMany({ where })] *)
Definition messageLog_findMany (where_ : MessageLog.t -> bool)
  : M (list MessageLog.t) :=
  query (fun w => (Return (filter where_ (messageLogs w)), w)).

(** [prisma.messageLog.findMany({ where, include: { user: true },
    orderBy: { scheduledAt: 'asc' } })]. Each row comes with its user, which
    the foreign key of [message_logs] makes exist; a row outside that
    constraint is paired with [None] here, where the client would throw. The
    birthday service reads only the [id] of the rows of this list. *)
Definition messageLog_findManyOrdered (where_ : MessageLog.t -> bool)
  : M (list (MessageLog.t * option User.t)) :=
  query (fun w =>
    (Return (map (fun r => (r, userOf (users w) r))
                 (orderByScheduledAt (filter where_ (messageLogs w)))), w)).

(** The error of the client when a required relation has no target. *)
Definition inconsistentResult : string :=
  "Inconsistent query result: Field user is required to return data, got `null` instead.".

(** [prisma.messageLog.findUnique({ where: { id }, include: { user: true } })].
    The relation [user] is required in the schema: for a row whose user is
    not in the table the client does not answer [user: null], it throws. The
    foreign key of [message_logs], which deletes the rows of a deleted user,
    keeps such rows out of the database. *)
Definition messageLog_findUnique (id : string)
  : M (option (MessageLog.t * option User.t)) :=
  query (fun w =>
    match find (fun r => String.eqb (MessageLog.id r) id) (messageLogs w) with
    | None => (Return None, w)
    | Some r =>
        match userOf (users w) r with
        | Some user => (Return (Some (r, Some user)), w)
        | None => (Throw inconsistentResult, w)
        end
    end).

(** [prisma.messageLog.findUnique({ where: { userId_messageType_scheduledDate } })] *)
Definition messageLog_findUniqueKey (u : string) (ty : MessageType) (d : string)
  : M (option MessageLog.t) :=
  query (fun w => (Return (find (MessageLog.hasKey u ty d) (messageLogs w)), w)).

(** [prisma.messageLog.updateMany({ where, data })], giving [count]. *)
Definition messageLog_updateMany (where_ : MessageLog.t -> bool)
  (data : MessageLog.t -> MessageLog.t) : M Z :=
  query (fun w =>
    (Return (Z.of_nat (List.length (filter where_ (messageLogs w)))),
     setMessageLogs (map (fun r => if where_ r then data r else r) (messageLogs w)) w)).

(** [prisma.messageLog.update({ where: { id }, data })]: throws when no row
    has the id. *)
Definition messageLog_update (id : string) (data : MessageLog.t -> MessageLog.t)
  : M unit :=
  query (fun w =>
    if existsb (fun r => String.eqb (MessageLog.id r) id) (messageLogs w) then
      (Return tt,
       setMessageLogs
         (map (fun r => if String.eqb (MessageLog.id r) id then data r else r)
              (messageLogs w)) w)
    else (Throw "P2025: Record to update not found", w)).

(** [prisma.messageLog.create({ data })]: the row gets a fresh identifier,
    the defaults of the schema and the current timestamp. The primary key,
    the unique index and the foreign key to [users] are enforced. *)
Definition messageLog_create (u : string) (ty : MessageType) (msg : string)
  (d : string) (at_ : Z) (s : MessageStatus) : M MessageLog.t :=
  query (fun w =>
    let id := uuid P (uuidCalls w) in
    let w1 := setUuidCalls (S (uuidCalls w)) w in
    if existsb (fun r => String.eqb (MessageLog.id r) id) (messageLogs w) then
      (Throw "P2002: Unique constraint failed on the fields: (id)", w1)
    else if existsb (MessageLog.hasKey u ty d) (messageLogs w) then
      (Throw "P2002: Unique constraint failed on the fields: (user_id,message_type,scheduled_date)", w1)
    else if negb (existsb (fun x => String.eqb (User.id x) u) (users w)) then
      (Throw "P2003: Foreign key constraint failed on the field: user_id", w1)
    else
      let r := MessageLog.mk id u ty msg s d at_ None 0 None None None (now w) in
      (Return r, setMessageLogs (messageLogs w ++ [r]) w1)).

(** The [where] clauses on [users]: by primary key and by the unique index
    on [email]. *)
Definition userHasId (id : string) (u : User.t) : bool := String.eqb (User.id u) id.

Definition userHasEmail (email : string) (u : User.t) : bool :=
  String.eqb (User.email u) email.

(** [prisma.user.findUnique({ where: { email } })] *)
Definition user_findUniqueByEmail (email : string) : M (option User.t) :=
  query (fun w => (Return (find (userHasEmail email) (users w)), w)).

(** [prisma.user.findUnique({ where: { id } })] *)
Definition user_findUniqueById (id : string) : M (option User.t) :=
  query (fun w => (Return (find (userHasId id) (users w)), w)).

(** The widths of the columns of [users]. *)
Definition fitsColumns (u : User.t) : bool :=
  (String.length (User.firstName u) <=? 100)%nat
  && (String.length (User.lastName u) <=? 100)%nat
  && (String.length (User.email u) <=? 255)%nat
  && (String.length (User.birthday u) <=? 10)%nat
  && (String.length (User.timezone u) <=? 100)%nat.

(** [prisma.user.create({ data })]: the row gets a fresh identifier and the
    current timestamp in [createdAt] and [updatedAt]. The primary key, the
    unique index on [email] and the column widths are enforced. *)
Definition user_create (firstName lastName email birthday timezone : string)
  (isActive : bool) : M User.t :=
  query (fun w =>
    let id := uuid P (uuidCalls w) in
    let w1 := setUuidCalls (S (uuidCalls w)) w in
    let u := User.mk id firstName lastName email birthday timezone isActive
               (now w) (now w) in
    if existsb (userHasId id) (users w) then
      (Throw "P2002: Unique constraint failed on the fields: (id)", w1)
    else if existsb (userHasEmail email) (users w) then
      (Throw "P2002: Unique constraint failed on the fields: (email)", w1)
    else if negb (fitsColumns u) then
      (Throw "P2000: The provided value for the column is too long", w1)
    else (Return u, setUsers (users w ++ [u]) w1)).

(** [prisma.user.update({ where: { id }, data })], where [data] gives the
    new row from the old one; [updatedAt] takes the current timestamp. *)
Definition user_update (id : string) (data : User.t -> User.t) : M User.t :=
  query (fun w =>
    match find (userHasId id) (users w) with
    | None => (Throw "P2025: Record to update not found", w)
    | Some old =>
        let d := data old in
        let u := User.mk (User.id old) (User.firstName d) (User.lastName d)
                   (User.email d) (User.birthday d) (User.timezone d)
                   (User.isActive d) (User.createdAt old) (now w) in
        if existsb (fun x => userHasEmail (User.email u) x && negb (userHasId id x))
             (users w) then
          (Throw "P2002: Unique constraint failed on the fields: (email)", w)
        else if negb (fitsColumns u) then
          (Throw "P2000: The provided value for the column is too long", w)
        else
          (Return u,
           setUsers (map (fun x => if userHasId id x then u else x) (users w)) w)
    end).

(** [prisma.user.delete({ where: { id } })]: the foreign key of
    [message_logs] is ON DELETE CASCADE. *)
Definition user_delete (id : string) : M User.t :=
  query (fun w =>
    match find (userHasId id) (users w) with
    | None => (Throw "P2025: Record to delete does not exist", w)
    | Some u =>
        (Return u,
         setMessageLogs
           (filter (fun r => negb (String.eqb (MessageLog.userId r) id)) (messageLogs w))
           (setUsers (filter (fun x => negb (userHasId id x)) (users w)) w))
    end).

End Client.
End Prisma.

(** ** EmailService.ts *)
Module EmailService.

Record SendResult := mkResult { success : bool; error : option string }.

(** The constructor. *)
Definition new (e : Env) : EmailServiceState :=
  mkService
    (envInt (EMAIL_SERVICE_TIMEOUT e) 10000)
    (envInt (EMAIL_SERVICE_MAX_RETRIES e) 3)
    (envInt (EMAIL_SERVICE_RETRY_DELAY e) 2000)
    (envInt (CIRCUIT_BREAKER_THRESHOLD e) 5)
    (envInt (CIRCUIT_BREAKER_RESET_MS e) 60000)
    (mkMetrics 0 0 0 0 None None)
    None.

Definition setMetrics (m : EmailMetrics) (s : EmailServiceState) : EmailServiceState :=
  mkService (timeout s) (maxRetries s) (retryDelay s) (circuitBreakerThreshold s)
    (circuitBreakerResetTime s) m (circuitBreakerOpenUntil s).

Definition setOpenUntil (u : option Z) (s : EmailServiceState) : EmailServiceState :=
  mkService (timeout s) (maxRetries s) (retryDelay s) (circuitBreakerThreshold s)
    (circuitBreakerResetTime s) (metrics s) u.

Definition resetMetrics : M unit :=
  fun w => (Return tt,
            setEmailService (setMetrics (mkMetrics 0 0 0 0 None None) (emailService w)) w).

Definition isCircuitBreakerOpen : M bool :=
  fun w =>
    match circuitBreakerOpenUntil (emailService w) with
    | Some until =>
        if now w <? until then (Return true, w)
        else (Return false, setEmailService (setOpenUntil None (emailService w)) w)
    | None => (Return false, w)
    end.

Definition openCircuitBreaker : M unit :=
  fun w =>
    let resetTime := now w + circuitBreakerResetTime (emailService w) in
    (Return tt, setEmailService (setOpenUntil (Some resetTime) (emailService w)) w).

(** The metrics after an attempt that succeeded. *)
Definition countSuccess (at_ : Z) (m : EmailMetrics) : EmailMetrics :=
  mkMetrics (totalAttempts m + 1) (successCount m + 1) 0 (timeoutCount m)
    (lastError m) (Some at_).

(** The metrics after an attempt that failed. *)
Definition countFailure (err : option string) (m : EmailMetrics) : EmailMetrics :=
  match err with
  | Some e =>
      if truthy e then
        mkMetrics (totalAttempts m + 1) (successCount m) (failureCount m + 1)
          (if includes "timeout" e || includes "ETIMEDOUT" e
           then timeoutCount m + 1 else timeoutCount m)
          (Some e) (lastSuccess m)
      else
        mkMetrics (totalAttempts m + 1) (successCount m) (failureCount m + 1)
          (timeoutCount m) (lastError m) (lastSuccess m)
  | None =>
      mkMetrics (totalAttempts m + 1) (successCount m) (failureCount m + 1)
        (timeoutCount m) (lastError m) (lastSuccess m)
  end.

Definition updateMetrics (ok : bool) (err : option string) : M unit :=
  if ok then
    fun w => (Return tt,
              setEmailService
                (setMetrics (countSuccess (now w) (metrics (emailService w)))
                   (emailService w)) w)
  else
    (fun w => (Return tt,
               setEmailService
                 (setMetrics (countFailure err (metrics (emailService w)))
                    (emailService w)) w)) ;;
    (fun w =>
       if circuitBreakerThreshold (emailService w)
            <=? failureCount (metrics (emailService w))
       then openCircuitBreaker w
       else (Return tt, w)).

Definition codeIs (e : Axios.Error) (c : string) : bool :=
  match Axios.code e with Some x => String.eqb x c | None => false end.

Definition isRetryableError (e : Axios.Error) : bool :=
  match Axios.response e with
  | None =>
      if codeIs e "ECONNABORTED" || codeIs e "ETIMEDOUT" then true
      else true
  | Some response =>
      let status := Axios.status response in
      (500 <=? status) || (status =? 408) || (status =? 429)
  end.

(** [axios.post(url, payload, config)]: the request is recorded and the
    remote decides. With [validateStatus: () => true] a response of any
    status resolves. The exchange is given no duration, see [delay]. *)
Definition axios_post (P : Platform) (payload : Axios.Payload) : M Axios.Outcome :=
  fun w => (Return (remote P (List.length (outbox w))),
            setOutbox (outbox w ++ [payload]) w).

(** [this.retryDelay * Math.pow(2, retryCount)] as the timer of [delay] reads
    it, in whole milliseconds: with a negative [retryCount] the power is a
    fraction and the timer drops the fraction of the product. A product above
    [TIMEOUT_MAX] stays above it. *)
Definition backoff (retryDelay retryCount : Z) : Z :=
  if 0 <=? retryCount then retryDelay * 2 ^ retryCount
  else if retryDelay <=? TIMEOUT_MAX * 2 ^ (- retryCount)
       then Z.quot retryDelay (2 ^ (- retryCount))
       else TIMEOUT_MAX + 1.

Definition breakerOpenError : string :=
  "Circuit breaker is open - email service unavailable".

(** The error type and message of the [catch] block. *)
Definition categorize (timeout_ : Z) (e : Axios.Error) : string * string :=
  if codeIs e "ECONNABORTED" || codeIs e "ETIMEDOUT" then
    ("Timeout", "Request timeout after " ++ showZ timeout_ ++ "ms")
  else if codeIs e "ECONNREFUSED" then
    ("Connection Refused", "Unable to connect to email service")
  else if codeIs e "ENOTFOUND" then
    ("DNS Error", "Email service host not found")
  else
    match Axios.response e with
    | None => ("Network Error", Axios.errorMessage e)
    | Some _ => ("Unknown Error", Axios.errorMessage e)
    end.

Definition finalErrorOf (timeout_ : Z) (e : Axios.Error) : string :=
  let (errorType, errorMessage) := categorize timeout_ e in
  match Axios.response e with
  | Some (Axios.mkResponse _ _ (Some json)) => errorType ++ ": " ++ json
  | _ => errorType ++ ": " ++ errorMessage
  end.

(** [sendEmail(email, message, retryCount)]. The recursion of the source
    is on [retryCount], which grows up to [maxRetries]; [budget] bounds the
    calls still to come, and [sendEmail] starts it from
    [maxRetries - retryCount]. *)
Fixpoint sendEmailFrom (P : Platform) (budget : nat)
  (email message : string) (retryCount : Z) : M SendResult :=
  open <- isCircuitBreakerOpen ;;
  if (open : bool) then
    updateMetrics false (Some breakerOpenError) ;;
    ret (mkResult false (Some breakerOpenError))
  else
    outcome <- axios_post P (Axios.mkPayload email message) ;;
    match outcome with
    | Axios.Resolve response =>
        if (200 <=? Axios.status response) && (Axios.status response <? 300) then
          updateMetrics true None ;;
          ret (mkResult true None)
        else
          let errorMsg :=
            "HTTP " ++ showZ (Axios.status response) ++ ": "
              ++ Axios.statusText response in
          let mockError :=
            Axios.mkError (Some (showZ (Axios.status response))) errorMsg
              (Some response) in
          fun w =>
            match (retryCount <? maxRetries (emailService w))
                  && isRetryableError mockError, budget with
            | true, S budget' =>
                (delay (backoff (retryDelay (emailService w)) retryCount) ;;
                 sendEmailFrom P budget' email message (retryCount + 1)) w
            | _, _ =>
                (updateMetrics false (Some errorMsg) ;;
                 ret (mkResult false (Some errorMsg))) w
            end
    | Axios.Reject axiosError =>
        fun w =>
          match (retryCount <? maxRetries (emailService w))
                && isRetryableError axiosError, budget with
          | true, S budget' =>
              (delay (backoff (retryDelay (emailService w)) retryCount) ;;
               sendEmailFrom P budget' email message (retryCount + 1)) w
          | _, _ =>
              let finalError := finalErrorOf (timeout (emailService w)) axiosError in
              (updateMetrics false (Some finalError) ;;
               ret (mkResult false (Some finalError))) w
          end
    end.

Definition sendEmail (P : Platform) (email message : string) (retryCount : Z)
  : M SendResult :=
  fun w =>
    sendEmailFrom P (Z.to_nat (maxRetries (emailService w) - retryCount))
      email message retryCount w.

Definition birthdayText (fullName : string) : string :=
  "Hey, " ++ fullName ++ " it's your birthday".

Definition sendBirthdayMessage (P : Platform) (email fullName : string)
  : M SendResult :=
  sendEmail P email (birthdayText fullName) 0.

End EmailService.

(** ** BirthdayService.ts *)
Module BirthdayService.
Section Service.
Variable P : Platform.

(** [moment.tz] falls back to UTC for a zone it has no data for. *)
Definition zoneOf (timezone : string) : Moment.Zone :=
  match zones P timezone with Some z => z | None => Moment.UTC end.

(** [moment(birthday, 'YYYY-MM-DD')] is read on birthdays that the user
    schema has admitted; any other text counts as an invalid date, whose
    month and day equal nothing. *)
Definition isBirthdayToday (birthday timezone : string) : M bool :=
  fun w =>
    let now_ := Moment.tzNow (zoneOf timezone) (now w) in
    match Moment.parseYMD birthday with
    | Some birthDate =>
        (Return ((Moment.month now_ =? Moment.monthOfYear birthDate - 1)
                 && (Moment.date now_ =? Moment.dayOfMonth birthDate)), w)
    | None => (Return false, w)
    end.

(** [None] is an invalid [Date]. *)
Definition getScheduledTime (timezone targetDate : string) : option Z :=
  let hour := envInt (BIRTHDAY_MESSAGE_HOUR (env P)) 9 in
  let minute := envInt (BIRTHDAY_MESSAGE_MINUTE (env P)) 0 in
  match Moment.tzDate (zoneOf timezone) targetDate with
  | Some m =>
      Some (Moment.toDate
              (Moment.millisecond
                 (Moment.second (Moment.minute (Moment.hour m hour) minute) 0) 0))
  | None => None
  end.

Definition ensureBirthdayMessage (user : User.t) : M unit :=
  fun w =>
    let today := Moment.format (Moment.tzNow (zoneOf (User.timezone user)) (now w)) in
    let scheduledAt := getScheduledTime (User.timezone user) today in
    tryCatch
      (existingMessage <-
         Prisma.messageLog_findUniqueKey P (User.id user) BIRTHDAY today ;;
       match existingMessage with
       | None =>
           let fullName := User.firstName user ++ " " ++ User.lastName user in
           let message := "Hey, " ++ fullName ++ " it's your birthday" in
           match scheduledAt with
           | Some at_ =>
               Prisma.messageLog_create P (User.id user) BIRTHDAY message today
                 at_ PENDING ;;
               ret tt
           | None => throw "PrismaClientValidationError: Invalid Date"
           end
       | Some _ => ret tt
       end)
      (fun _ => ret tt)
      w.

Definition createBirthdayMessages : M unit :=
  tryCatch
    (activeUsers <- Prisma.user_findMany P User.isActive ;;
     forOf activeUsers (fun user =>
       today <- isBirthdayToday (User.birthday user) (User.timezone user) ;;
       if (today : bool) then ensureBirthdayMessage user else ret tt))
    (fun error => throw error).

(** The lock of a row is free: [OR: [{ lockId: null },
    { lockedUntil: { lte: now } }]]. A comparison with NULL selects nothing. *)
Definition lockFree (now_ : Z) (r : MessageLog.t) : bool :=
  match MessageLog.lockId r with
  | None => true
  | Some _ =>
      match MessageLog.lockedUntil r with
      | Some until => until <=? now_
      | None => false
      end
  end.

Definition pendingOrRetry (r : MessageLog.t) : bool :=
  match MessageLog.status r with
  | PENDING | RETRY => true
  | _ => false
  end.

(** The [where] clause of [processPendingMessages]. *)
Definition isDue (now_ : Z) (r : MessageLog.t) : bool :=
  pendingOrRetry r && (MessageLog.scheduledAt r <=? now_) && lockFree now_ r.

(** The [where] clause of [recoverUnsentMessages]. *)
Definition isUnsent (now_ : Z) (r : MessageLog.t) : bool :=
  pendingOrRetry r && (MessageLog.scheduledAt r <? now_).

Definition hasId (messageId : string) (r : MessageLog.t) : bool :=
  String.eqb (MessageLog.id r) messageId.

Definition holdsLock (lockId : string) (r : MessageLog.t) : bool :=
  match MessageLog.lockId r with
  | Some l => String.eqb l lockId
  | None => false
  end.

Definition lockDuration : Z := 5 * 60 * 1000.

(** The [try] block of [processMessage]. *)
Definition processLocked (messageId lockId : string) (lockedUntil : Z) : M unit :=
  now_ <- newDate ;;
  updated <-
    Prisma.messageLog_updateMany P
      (fun r => hasId messageId r && lockFree now_ r)
      (MessageLog.lockData lockId lockedUntil) ;;
  if updated =? 0 then ret tt
  else
    messageLog <- Prisma.messageLog_findUnique P messageId ;;
    match messageLog with
    | Some (row, Some user) =>
        result <-
          EmailService.sendBirthdayMessage P (User.email user)
            (User.firstName user ++ " " ++ User.lastName user) ;;
        if EmailService.success result then
          sentAt <- newDate ;;
          Prisma.messageLog_update P messageId (MessageLog.sentData sentAt)
        else
          let maxRetries := envInt (EMAIL_SERVICE_MAX_RETRIES (env P)) 3 in
          let newRetryCount := MessageLog.retryCount row + 1 in
          Prisma.messageLog_update P messageId
            (MessageLog.failureData
               (if maxRetries <=? newRetryCount then FAILED else RETRY)
               newRetryCount
               (match EmailService.error result with
                | Some e => if truthy e then e else "Unknown error"
                | None => "Unknown error"
                end))
    | _ => ret tt
    end.

(** The [catch] block of [processMessage]. *)
Definition releaseOwnLock (messageId lockId : string) : M unit :=
  Prisma.messageLog_updateMany P
    (fun r => hasId messageId r && holdsLock lockId r)
    MessageLog.unlockData ;;
  ret tt.

Definition processMessage (messageId : string) : M unit :=
  lockId <- uuidv4 P ;;
  start <- newDate ;;
  let lockedUntil := start + lockDuration in
  tryCatch (processLocked messageId lockId lockedUntil)
           (fun _ => releaseOwnLock messageId lockId).

Definition processPendingMessages : M unit :=
  tryCatch
    (now_ <- newDate ;;
     pendingMessages <- Prisma.messageLog_findManyOrdered P (isDue now_) ;;
     forOf pendingMessages (fun messageLog =>
       processMessage (MessageLog.id (fst messageLog))))
    (fun error => throw error).

Definition recoverUnsentMessages : M unit :=
  tryCatch
    (now_ <- newDate ;;
     unsentMessages <- Prisma.messageLog_findMany P (isUnsent now_) ;;
     forOf unsentMessages (fun message => processMessage (MessageLog.id message)))
    (fun error => throw error).

End Service.
End BirthdayService.

(** ** UserService.ts *)
Module UserService.

Record CreateUserDTO := mkCreate {
  firstName : string;
  lastName : string;
  email : string;
  birthday : string;
  timezone : string
}.

(** A field that is absent is [None]. *)
Record UpdateUserDTO := mkUpdate {
  newFirstName : option string;
  newLastName : option string;
  newEmail : option string;
  newBirthday : option string;
  newTimezone : option string;
  newIsActive : option bool
}.

Definition orElse {A} (o : option A) (a : A) : A :=
  match o with Some x => x | None => a end.

(** The row that [data: updateData] asks for. *)
Definition applyUpdate (updateData : UpdateUserDTO) (u : User.t) : User.t :=
  User.mk (User.id u)
    (orElse (newFirstName updateData) (User.firstName u))
    (orElse (newLastName updateData) (User.lastName u))
    (orElse (newEmail updateData) (User.email u))
    (orElse (newBirthday updateData) (User.birthday u))
    (orElse (newTimezone updateData) (User.timezone u))
    (orElse (newIsActive updateData) (User.isActive u))
    (User.createdAt u) (User.updatedAt u).

Section Service.
Variable P : Platform.

Definition emailExists : string := "User with this email already exists".

Definition userNotFound : string := "User not found".

Definition createUser (userData : CreateUserDTO) : M User.t :=
  tryCatch
    (existingUser <- Prisma.user_findUniqueByEmail P (email userData) ;;
     match existingUser with
     | Some _ => throw emailExists
     | None =>
         Prisma.user_create P (firstName userData) (lastName userData)
           (email userData) (birthday userData) (timezone userData) true
     end)
    (fun error => throw error).

Definition updateUser (userId : string) (updateData : UpdateUserDTO) : M User.t :=
  tryCatch
    (user <- Prisma.user_findUniqueById P userId ;;
     match user with
     | None => throw userNotFound
     | Some user =>
         (match newEmail updateData with
          | Some e =>
              if truthy e && negb (String.eqb e (User.email user)) then
                existingUser <- Prisma.user_findUniqueByEmail P e ;;
                match existingUser with
                | Some _ => throw emailExists
                | None => ret tt
                end
              else ret tt
          | None => ret tt
          end) ;;
         Prisma.user_update P userId (applyUpdate updateData)
     end)
    (fun error => throw error).

Definition deleteUser (userId : string) : M unit :=
  tryCatch (Prisma.user_delete P userId ;; ret tt) (fun error => throw error).

Definition getUserById (userId : string) : M (option User.t) :=
  tryCatch (Prisma.user_findUniqueById P userId) (fun error => throw error).

Definition getAllUsers : M (list User.t) :=
  tryCatch (Prisma.user_findMany P (fun _ => true)) (fun error => throw error).

Definition getActiveUsers : M (list User.t) :=
  tryCatch (Prisma.user_findMany P User.isActive) (fun error => throw error).

End Service.
End UserService.

(** ** UserController.ts

    The handler of [DELETE /user/:id]. A response is its status code and
    its JSON body. *)
Module UserController.

Inductive Body :=
| Failure (error : string)
| Done (message : string).

Record Response := mkResponse { status : Z; success : bool; body : Body }.

Section Controller.
Variable P : Platform.

Definition deleteUser (id : string) : M Response :=
  tryCatch
    (UserService.deleteUser P id ;;
     ret (mkResponse 200 true (Done "User deleted successfully")))
    (fun error =>
       if String.eqb error "User not found" then
         ret (mkResponse 404 false (Failure error))
       else ret (mkResponse 500 false (Failure "Internal server error"))).

End Controller.
End UserController.

(** ** Vocabulary of the properties *)
Module Spec.

(** Two rows agree on every column but the lease. *)
Definition sameButLease (r r' : MessageLog.t) : Prop :=
  MessageLog.id r' = MessageLog.id r
  /\ MessageLog.userId r' = MessageLog.userId r
  /\ MessageLog.messageType r' = MessageLog.messageType r
  /\ MessageLog.message r' = MessageLog.message r
  /\ MessageLog.status r' = MessageLog.status r
  /\ MessageLog.scheduledDate r' = MessageLog.scheduledDate r
  /\ MessageLog.scheduledAt r' = MessageLog.scheduledAt r
  /\ MessageLog.sentAt r' = MessageLog.sentAt r
  /\ MessageLog.retryCount r' = MessageLog.retryCount r
  /\ MessageLog.errorMessage r' = MessageLog.errorMessage r
  /\ MessageLog.createdAt r' = MessageLog.createdAt r.

(** A row is as it was, or it was the row [messageId] under the lease
    [lockId] and has lost that lease and nothing else. *)
Definition keptOrReleased (messageId lockId : string) (r r' : MessageLog.t) : Prop :=
  r' = r
  \/ (MessageLog.id r = messageId
      /\ MessageLog.lockId r = Some lockId
      /\ MessageLog.lockId r' = None
      /\ MessageLog.lockedUntil r' = None
      /\ sameButLease r r').

(** The row of an identifier. *)
Definition rowOf (messageId : string) (w : World) : option MessageLog.t :=
  find (BirthdayService.hasId messageId) (messageLogs w).

(** No database call fails. *)
Definition reliableDb (P : Platform) : Prop := forall n, dbFault P n = false.

(** An HTTP exchange that is not a success. *)
Definition failed (o : Axios.Outcome) : bool :=
  match o with
  | Axios.Resolve r => negb ((200 <=? Axios.status r) && (Axios.status r <? 300))
  | Axios.Reject _ => true
  end.

(** The rows that the due selection of [processPendingMessages] yields. *)
Definition dueRows (P : Platform) (w : World) : list MessageLog.t :=
  match fst (Prisma.messageLog_findManyOrdered P (BirthdayService.isDue (now w)) w) with
  | Return rows => map fst rows
  | Throw _ => []
  end.

(** The due selection holds no more than [limit] rows. *)
Definition atMost (limit : nat) (P : Platform) (w : World) : Prop :=
  (List.length (dueRows P w) <= limit)%nat.

(** The settings that an [EmailService] object takes from the environment
    when it is built. *)
Definition sameSettings (s s' : EmailServiceState) : Prop :=
  timeout s' = timeout s
  /\ maxRetries s' = maxRetries s
  /\ retryDelay s' = retryDelay s
  /\ circuitBreakerThreshold s' = circuitBreakerThreshold s
  /\ circuitBreakerResetTime s' = circuitBreakerResetTime s.

(** What a call of the email service leaves alone: the tables, the
    counters of the database and of the identifiers, the settings of the
    service. Time does not run backwards. *)
Definition sendFrame (w w' : World) : Prop :=
  users w' = users w
  /\ messageLogs w' = messageLogs w
  /\ dbCalls w' = dbCalls w
  /\ uuidCalls w' = uuidCalls w
  /\ now w <= now w'
  /\ sameSettings (emailService w) (emailService w').

(** The breaker lets no request through at this instant. *)
Definition breakerOpen (w : World) : Prop :=
  exists until,
    circuitBreakerOpenUntil (emailService w) = Some until /\ now w < until.

Definition blockedResult : EmailService.SendResult :=
  EmailService.mkResult false (Some EmailService.breakerOpenError).

(** What one call [sendEmail(email, message, ...)] that returns [res] does
    to the world. *)
Definition sendPost (P : Platform) (email message : string)
  (w : World) (res : EmailService.SendResult) (w' : World) : Prop :=
  let s := emailService w in
  let s' := emailService w' in
  sendFrame w w'
  /\ (exists k,
        outbox w' = (outbox w ++ repeat (Axios.mkPayload email message) k)%list
        /\ (breakerOpen w -> k = O)
        /\ (~ breakerOpen w -> k <> O))
  /\ (breakerOpen w -> res = blockedResult /\ now w' = now w)
  /\ (EmailService.success res = true ->
      failureCount (metrics s') = 0 /\ circuitBreakerOpenUntil s' = None)
  /\ (EmailService.success res = false ->
      failureCount (metrics s') = failureCount (metrics s) + 1
      /\ (circuitBreakerThreshold s <= failureCount (metrics s') ->
          circuitBreakerOpenUntil s'
          = Some (now w' + circuitBreakerResetTime s)))
  /\ ((forall n, (List.length (outbox w) <= n < List.length (outbox w'))%nat ->
         failed (remote P n) = true) ->
      EmailService.success res = false).

(** A call of the email service reaches the remote. *)
Definition attemptsRequest (P : Platform) (email message : string) (w : World) : Prop :=
  outbox (run (EmailService.sendEmail P email message 0) w) <> outbox w.

(** The rows of a table are ordered by ascending [scheduledAt]. *)
Definition ascending (l : list MessageLog.t) : Prop :=
  StronglySorted (fun a b => MessageLog.scheduledAt a <= MessageLog.scheduledAt b) l.

(** The unique index holds on a table. *)
Definition keyOf (r : MessageLog.t) : string * MessageType * string :=
  (MessageLog.userId r, MessageLog.messageType r, MessageLog.scheduledDate r).

Definition uniqueKeys (l : list MessageLog.t) : Prop := NoDup (map keyOf l).

(** A step that works for the message [messageId] may rewrite the rows of
    that identifier and no other row; it inserts and deletes nothing, leaves
    the identifiers and the users alone, and time does not run backwards. *)
Definition touches (messageId : string) (w w' : World) : Prop :=
  (exists g,
      messageLogs w' = map g (messageLogs w)
      /\ (forall r, MessageLog.id (g r) = MessageLog.id r)
      /\ (forall r, BirthdayService.hasId messageId r = false -> g r = r))
  /\ users w' = users w
  /\ now w <= now w'.

Definition touching {A} (messageId : string) (m : M A) : Prop :=
  forall w, touches messageId w (snd (m w)).

(** A computation that always returns. *)
Definition returning {A} (m : M A) : Prop :=
  forall w, exists a, fst (m w) = Return a.

(** The status and the retry count of a message. *)
Definition progress (messageId : string) (w : World) : option (MessageStatus * Z) :=
  option_map (fun r => (MessageLog.status r, MessageLog.retryCount r))
    (rowOf messageId w).

(** One tick of the processor at the instant [t]. *)
Definition tick (P : Platform) (t : Z) (w : World) : World :=
  run (BirthdayService.processPendingMessages P) (setNow t w).

(** The primary key holds on [message_logs]. *)
Definition uniqueIds (w : World) : Prop :=
  NoDup (map MessageLog.id (messageLogs w)).

(** [result.error || 'Unknown error'] *)
Definition errorText (res : EmailService.SendResult) : string :=
  match EmailService.error res with
  | Some e => if truthy e then e else "Unknown error"
  | None => "Unknown error"
  end.

(** What the loop over other messages leaves of the message [messageId]. *)
Definition frames (messageId : string) (w w' : World) : Prop :=
  rowOf messageId w' = rowOf messageId w
  /\ users w' = users w
  /\ now w <= now w'
  /\ map MessageLog.id (messageLogs w') = map MessageLog.id (messageLogs w).

(** The civil date of a user's zone at an instant, as text. *)
Definition todayOf (P : Platform) (user : User.t) (t : Z) : string :=
  Moment.format (Moment.tzNow (BirthdayService.zoneOf P (User.timezone user)) t).

(** The row that [ensureBirthdayMessage] writes for a user. *)
Definition greetingRow (P : Platform) (user : User.t) (w : World) (at_ : Z)
  : MessageLog.t :=
  MessageLog.mk (uuid P (uuidCalls w)) (User.id user) BIRTHDAY
    (EmailService.birthdayText (User.firstName user ++ " " ++ User.lastName user))
    PENDING (todayOf P user (now w)) at_ None 0 None None None (now w).

(** The table holds a birthday row of the user for the date. *)
Definition hasGreeting (user : User.t) (d : string) (l : list MessageLog.t) : Prop :=
  existsb (MessageLog.hasKey (User.id user) BIRTHDAY d) l = true.

(** [isBirthdayToday] for a user at an instant. *)
Definition birthdayToday (P : Platform) (user : User.t) (t : Z) : bool :=
  match Moment.parseYMD (User.birthday user) with
  | Some birthDate =>
      let z := BirthdayService.zoneOf P (User.timezone user) in
      (Moment.monthOfYear (Moment.civilDate z t) - 1 =? Moment.monthOfYear birthDate - 1)
      && (Moment.dayOfMonth (Moment.civilDate z t) =? Moment.dayOfMonth birthDate)
  | None => false
  end.

(** Nothing is left to create for the user today: the greeting of the date
    is there, or its send-at instant is not a date. *)
Definition served (P : Platform) (user : User.t) (t : Z) (l : list MessageLog.t) : Prop :=
  hasGreeting user (todayOf P user t) l
  \/ BirthdayService.getScheduledTime P (User.timezone user) (todayOf P user t) = None.

(** One run of the materialiser at the instant [t]. *)
Definition materialise (P : Platform) (t : Z) (w : World) : World :=
  run (BirthdayService.createBirthdayMessages P) (setNow t w).

(** Runs of the materialiser at the instants listed, in order. *)
Fixpoint materialiseAt (P : Platform) (times : list Z) (w : World) : World :=
  match times with
  | [] => w
  | t :: rest => materialiseAt P rest (materialise P t w)
  end.

(** Two instants fall on the same civil date for every active user. *)
Definition sameCivilDay (P : Platform) (w : World) (t t' : Z) : Prop :=
  forall user,
    In user (users w) -> User.isActive user = true ->
    Moment.civilDate (BirthdayService.zoneOf P (User.timezone user)) t
    = Moment.civilDate (BirthdayService.zoneOf P (User.timezone user)) t'.

(** The identifiers still to be drawn are new: no two are equal and none is
    the identifier of a row. *)
Definition freshIdentifiers (P : Platform) (w : World) : Prop :=
  (forall m n, uuid P m = uuid P n -> m = n)
  /\ (forall n, (uuidCalls w <= n)%nat ->
        ~ In (uuid P n) (map MessageLog.id (messageLogs w))).

(** The loop body of [createBirthdayMessages]. *)
Definition greetIfBirthday (P : Platform) (user : User.t) : M unit :=
  today <- BirthdayService.isBirthdayToday P (User.birthday user) (User.timezone user) ;;
  if (today : bool) then BirthdayService.ensureBirthdayMessage P user else ret tt.

(** The wall clock of a zone at an instant, as the UTC fields of a [Date]. *)
Definition wallClock (z : Moment.Zone) (t : Z) : Z := Moment._d (Moment.tzNow z t).

(** Local midnight of a date, as a wall-clock reading. *)
Definition midnightOf (c : Moment.Civil) : Z :=
  Moment.daysFromCivil c * Moment.msPerDay.

(** The instant of [moment.tz(date, zone)]: the start of the date in the
    zone. *)
Definition startOfDay (z : Moment.Zone) (c : Moment.Civil) : Z :=
  midnightOf c + Moment.parse z (midnightOf c) * Moment.msPerMinute.

(** The date begins, in the zone, on that date: at 00:00, or, where the
    clocks are set forward at midnight, at the end of the gap. *)
Definition beginsOn (z : Moment.Zone) (c : Moment.Civil) : Prop :=
  midnightOf c <= wallClock z (startOfDay z c) < midnightOf c + Moment.msPerDay.

(** The world once a request has been handed to axios. *)
Definition requested (email message : string) (w : World) : World :=
  setOutbox (outbox w ++ [Axios.mkPayload email message]) w.

(** The world after the breaker check of a call that is let through: a
    window that has passed is cleared. *)
Definition halfOpened (w : World) : World := snd (EmailService.isCircuitBreakerOpen w).

(** The world in which the retry of a call starts: the request is recorded
    and the backoff of the attempt [retryCount] has been waited. *)
Definition waited (email message : string) (retryCount : Z) (w : World) : World :=
  let w2 := requested email message (halfOpened w) in
  setNow
    (now w2 + timerDelay (EmailService.backoff (retryDelay (emailService w2)) retryCount))
    w2.

(** An exchange that [sendEmail] answers with a retry, attempts permitting. *)
Definition retryableFailure (o : Axios.Outcome) : bool :=
  match o with
  | Axios.Resolve r =>
      negb ((200 <=? Axios.status r) && (Axios.status r <? 300))
      && ((500 <=? Axios.status r) || (Axios.status r =? 408) || (Axios.status r =? 429))
  | Axios.Reject e => EmailService.isRetryableError e
  end.

(** The error text of a call that gives up on an exchange. *)
Definition finalFailure (timeout_ : Z) (o : Axios.Outcome) : string :=
  match o with
  | Axios.Resolve r => "HTTP " ++ showZ (Axios.status r) ++ ": " ++ Axios.statusText r
  | Axios.Reject e => EmailService.finalErrorOf timeout_ e
  end.

(** What a loop over the messages [ids] may do to the tables: rewrite rows
    of those identifiers; it inserts and deletes nothing, changes no
    identifier and no user, and time does not run backwards. *)
Definition rewritesOnly (ids : list string) (w w' : World) : Prop :=
  Forall2 (fun r r' =>
             MessageLog.id r' = MessageLog.id r
             /\ (~ In (MessageLog.id r) ids -> r' = r))
          (messageLogs w) (messageLogs w')
  /\ users w' = users w
  /\ now w <= now w'.

(** Two worlds agree on the users, the clock, the email service and the
    requests made. *)
Definition sameMail (w w' : World) : Prop :=
  users w' = users w /\ emailService w' = emailService w
  /\ now w' = now w /\ outbox w' = outbox w.

(** A computation that does not wait, does not use the email service and
    leaves the users alone. *)
Definition quiet {A} (m : M A) : Prop := forall w, sameMail w (snd (m w)).

(** The greeting of a user, as [processMessage] has it sent. *)
Definition greeting (P : Platform) (user : User.t) : M EmailService.SendResult :=
  EmailService.sendBirthdayMessage P (User.email user)
    (User.firstName user ++ " " ++ User.lastName user).

(** The request that carries the greeting of a user. *)
Definition greetingPayload (user : User.t) : Axios.Payload :=
  Axios.mkPayload (User.email user)
    (EmailService.birthdayText (User.firstName user ++ " " ++ User.lastName user)).

(** From the world [w], a computation has the greeting of one user of the
    table sent, or none, and is quiet otherwise. *)
Definition greetsOnceAt (P : Platform) {A} (m : M A) (w : World) : Prop :=
  sameMail w (snd (m w))
  \/ exists user wl,
       In user (users w)
       /\ sameMail w wl
       /\ sameMail (run (greeting P user) wl) (snd (m w)).

Definition greetsOnce (P : Platform) {A} (m : M A) : Prop :=
  forall w, greetsOnceAt P m w.

(** The row that the materialiser writes at the instant [t] for a user:
    the greeting in the user's name, PENDING, for the civil date of the
    user's zone and the send-at instant of that date, never sent, never
    retried, unlocked. *)
Definition createdFor (P : Platform) (t : Z) (user : User.t) (r : MessageLog.t) : Prop :=
  MessageLog.userId r = User.id user
  /\ MessageLog.messageType r = BIRTHDAY
  /\ MessageLog.message r
     = EmailService.birthdayText (User.firstName user ++ " " ++ User.lastName user)
  /\ MessageLog.status r = PENDING
  /\ MessageLog.scheduledDate r = todayOf P user t
  /\ BirthdayService.getScheduledTime P (User.timezone user) (todayOf P user t)
     = Some (MessageLog.scheduledAt r)
  /\ MessageLog.sentAt r = None
  /\ MessageLog.retryCount r = 0
  /\ MessageLog.errorMessage r = None
  /\ MessageLog.lockId r = None
  /\ MessageLog.lockedUntil r = None
  /\ MessageLog.createdAt r = t.

(** A property of the world that a computation keeps, however it ends. *)
Definition keeps {A} (I : World -> Prop) (m : M A) : Prop :=
  forall w, I w -> I (snd (m w)).

(** The primary key and the unique index on [email] hold on [users]. *)
Definition uniqueUsers (w : World) : Prop :=
  NoDup (map User.id (users w)) /\ NoDup (map User.email (users w)).

(** The foreign key holds: every message log belongs to a user of the table. *)
Definition referential (w : World) : Prop :=
  forall r, In r (messageLogs w) ->
    exists u, In u (users w) /\ User.id u = MessageLog.userId r.

(** The columns of a new user are within their widths. *)
Definition fitsUser (userData : UserService.CreateUserDTO) : Prop :=
  (String.length (UserService.firstName userData) <= 100)%nat
  /\ (String.length (UserService.lastName userData) <= 100)%nat
  /\ (String.length (UserService.email userData) <= 255)%nat
  /\ (String.length (UserService.birthday userData) <= 10)%nat
  /\ (String.length (UserService.timezone userData) <= 100)%nat.

(** The row of an identifier in [users]. *)
Definition userOfId (id : string) (w : World) : option User.t :=
  find (Prisma.userHasId id) (users w).

(** The constraints of the schema that involve [users]. *)
Definition wellFormed (w : World) : Prop := uniqueUsers w /\ referential w.

End Spec.

(** ** Scenarios *)
Module Scenario.

Definition utc (y m d hh mm : Z) : Z :=
  Moment.daysFromCivil (Moment.mkCivil y m d) * Moment.msPerDay
  + hh * Moment.msPerHour + mm * Moment.msPerMinute.

(** America/New_York from 2026 to 2027: EST until 8 March 2026, 07:00Z;
    EDT until 1 November 2026, 06:00Z; EST until 14 March 2027, 07:00Z;
    EDT until 7 November 2027, 06:00Z. *)
Definition NewYork : Moment.Zone :=
  Moment.mkZone
    [utc 2026 3 8 7 0; utc 2026 11 1 6 0; utc 2027 3 14 7 0; utc 2027 11 7 6 0]
    [300; 240; 300; 240; 300].

(** America/Havana in 2026, where the clocks are set forward at midnight:
    CDT until 2 November 2025, 05:00Z; CST until 8 March 2026, 00:00 local,
    05:00Z; CDT until 1 November 2026, 05:00Z. *)
Definition Havana : Moment.Zone :=
  Moment.mkZone [utc 2025 11 2 5 0; utc 2026 3 8 5 0; utc 2026 11 1 5 0]
    [240; 300; 240; 300].

Definition zonesOf (name : string) : option Moment.Zone :=
  if String.eqb name "America/New_York" then Some NewYork
  else if String.eqb name "America/Havana" then Some Havana
  else if String.eqb name "UTC" then Some Moment.UTC
  else None.

Definition http (status : Z) (statusText : string) : Axios.Outcome :=
  Axios.Resolve (Axios.mkResponse status statusText (Some "{}")).

Definition rejected (code : string) : Axios.Error :=
  Axios.mkError (Some code) code None.

Definition responded (status : Z) : Axios.Error :=
  Axios.mkError None "Request failed" (Some (Axios.mkResponse status "" None)).

Fixpoint tally (n : nat) : string :=
  match n with O => "" | S k => String "i"%char (tally k) end.

Definition ids (n : nat) : string := "uuid-" ++ tally n.

Definition noFault (n : nat) : bool := false.

(** The remote answers every request the same way. *)
Definition always (o : Axios.Outcome) (e : Env) : Platform :=
  mkPlatform e zonesOf (fun _ => o) noFault ids.

Definition always500 : Platform := always (http 500 "Internal Server Error") defaultEnv.
Definition always200 : Platform := always (http 200 "OK") defaultEnv.

(** The second database call fails. *)
Definition secondCallFails : Platform :=
  mkPlatform defaultEnv zonesOf (fun _ => http 200 "OK") (fun n => Nat.eqb n 1) ids.

Definition john : User.t :=
  User.mk "user-1" "John" "Doe" "john@example.com" "1990-05-15"
    "America/New_York" true 0 0.

Definition jane : User.t :=
  User.mk "user-2" "Jane" "Roe" "jane@example.com" "1985-05-15"
    "America/New_York" true 0 0.

Definition nineLocal : Z := utc 2026 5 15 13 0.

Definition row (id userId : string) (s : MessageStatus) (sentAt : option Z)
  (lock : option string) (until : option Z) : MessageLog.t :=
  MessageLog.mk id userId BIRTHDAY "Hey, John Doe it's your birthday" s
    "2026-05-15" nineLocal sentAt 0 None lock until (utc 2026 5 15 6 0).

Definition world (at_ : Z) (us : list User.t) (ls : list MessageLog.t) : World :=
  mkWorld at_ us ls (EmailService.new defaultEnv) [] 0 0.

(** John's greeting is pending and due. *)
Definition pendingWorld : World :=
  world (utc 2026 5 15 13 5) [john] [row "msg-1" "user-1" PENDING None None None].

(** John's greeting went out at 13:00:00Z. *)
Definition sentWorld : World :=
  world (utc 2026 5 15 13 5) [john]
    [row "msg-1" "user-1" SENT (Some nineLocal) None None].


(** Two greetings are due. *)
Definition twoDueWorld : World :=
  world (utc 2026 5 15 13 5) [john; jane]
    [row "msg-1" "user-1" PENDING None None None;
     row "msg-2" "user-2" RETRY None (Some "stale") (Some nineLocal)].

(** The settings of the repository's breaker tests: the breaker opens at
    three failures, for one second. *)
Definition testEnv : Env :=
  mkEnv None None None (Some 3) (Some 1000) None None.

Definition always400 : Platform := always (http 400 "Bad Request") testEnv.

Definition t0 : Z := utc 2026 5 15 13 0.

(** A fresh service under [testEnv], no rows. *)
Definition freshService : World :=
  mkWorld t0 [] [] (EmailService.new testEnv) [] 0 0.

Definition greet (P : Platform) (at_ : Z) (w : World) : World :=
  run (EmailService.sendBirthdayMessage P "test@example.com" "User") (setNow at_ w).

(** Three calls fail at [t0]: the breaker is open until [t0 + 1000]. *)
Definition afterThreeFailures : World :=
  greet always400 t0 (greet always400 t0 (greet always400 t0 freshService)).

(** John at two in the morning of his birthday, New York time, before any
    greeting exists. *)
Definition birthdayMorning : World := world (utc 2026 5 15 6 0) [john] [].

(** John has changed his first name. *)
Definition johnny : User.t :=
  User.mk "user-1" "Johnny" "Doe" "john@example.com" "1990-05-15"
    "America/New_York" true 0 0.

(** The greeting is created in the morning; John changes his name; the
    processor runs at 13:05Z. *)
Definition renamedBeforeDelivery : World :=
  setUsers [johnny]
    (setNow (utc 2026 5 15 13 5)
       (run (BirthdayService.createBirthdayMessages always200) birthdayMorning)).

(** The send time is configured as [hour]:[minute]. *)
Definition sendingAt (hour minute : Z) : Platform :=
  always (http 200 "OK") (mkEnv None None None None None (Some hour) (Some minute)).

(** The start of the scheduler: [runRecoveryOnStartup] is not awaited. The
    recovery reads its list of unsent rows; before its loop goes on, a tick of
    the processor runs to completion; then the recovery processes the rows of
    the list it read. *)
Definition recoveryOverlapsTick (P : Platform) : M unit :=
  now_ <- newDate ;;
  unsentMessages <- Prisma.messageLog_findMany P (BirthdayService.isUnsent now_) ;;
  BirthdayService.processPendingMessages P ;;
  forOf unsentMessages
    (fun message => BirthdayService.processMessage P (MessageLog.id message)).

(** The sign-up of Jane. *)
Definition janeSignsUp : UserService.CreateUserDTO :=
  UserService.mkCreate "Jane" "Roe" "jane@example.com" "1985-05-15" "America/New_York".

(** John is registered and has a pending greeting; so has Jane. *)
Definition twoUsersWorld : World :=
  world (utc 2026 5 15 13 5) [john; jane]
    [row "msg-1" "user-1" PENDING None None None;
     row "msg-2" "user-2" PENDING None None None].

(** The third database call fails. *)
Definition thirdCallFails : Platform :=
  mkPlatform defaultEnv zonesOf (fun _ => http 200 "OK") (fun n => Nat.eqb n 2) ids.

(** A user is deleted while [processMessage] holds the lease of one of the
    user's rows: the request of the deletion is served after the
    [updateMany] that takes the lease and before the re-read; what it throws
    stays with that request. *)
Definition userDeletedUnderLease (P : Platform) (messageId userId : string) : M unit :=
  lockId <- uuidv4 P ;;
  start <- newDate ;;
  let lockedUntil := start + BirthdayService.lockDuration in
  tryCatch
    (now_ <- newDate ;;
     updated <-
       Prisma.messageLog_updateMany P
         (fun r => BirthdayService.hasId messageId r && BirthdayService.lockFree now_ r)
         (MessageLog.lockData lockId lockedUntil) ;;
     tryCatch (UserService.deleteUser P userId) (fun _ => ret tt) ;;
     if updated =? 0 then ret tt
     else
       messageLog <- Prisma.messageLog_findUnique P messageId ;;
       match messageLog with
       | Some (row, Some user) =>
           result <-
             EmailService.sendBirthdayMessage P (User.email user)
               (User.firstName user ++ " " ++ User.lastName user) ;;
           if EmailService.success result then
             sentAt <- newDate ;;
             Prisma.messageLog_update P messageId (MessageLog.sentData sentAt)
           else
             let maxRetries := envInt (EMAIL_SERVICE_MAX_RETRIES (env P)) 3 in
             let newRetryCount := MessageLog.retryCount row + 1 in
             Prisma.messageLog_update P messageId
               (MessageLog.failureData
                  (if maxRetries <=? newRetryCount then FAILED else RETRY)
                  newRetryCount
                  (match EmailService.error result with
                   | Some e => if truthy e then e else "Unknown error"
                   | None => "Unknown error"
                   end))
       | _ => ret tt
       end)
    (fun _ => BirthdayService.releaseOwnLock P messageId lockId).

End Scenario.

(** * Properties *)

(** ** The failure classifier *)

(** C5. [isRetryableError] answers retryable for a failure without an HTTP
    response, for every status of 500 and above and for 408 and 429, and
    not retryable for every other status from 400 to 499. *)
Theorem isRetryableError_classifies :
  forall e : Axios.Error,
    (Axios.response e = None -> EmailService.isRetryableError e = true)
    /\ (forall r, Axios.response e = Some r ->
          (500 <= Axios.status r \/ Axios.status r = 408 \/ Axios.status r = 429 ->
             EmailService.isRetryableError e = true)
          /\ (400 <= Axios.status r < 500 ->
              Axios.status r <> 408 -> Axios.status r <> 429 ->
              EmailService.isRetryableError e = false)).
Proof.
  intros e; unfold EmailService.isRetryableError; split.
  - intros ->. now destruct (_ || _).
  - intros r ->; split.
    + intros [H | [-> | ->]]; [ | reflexivity | reflexivity ].
      apply Z.leb_le in H. now rewrite H.
    + intros [_ Hlt] H408 H429.
      apply Z.eqb_neq in H408, H429. rewrite H408, H429.
      assert ((500 <=? Axios.status r) = false) as -> by (apply Z.leb_gt; exact Hlt).
      reflexivity.
Qed.

Lemma isRetryableError_classifies_witness :
  EmailService.isRetryableError (Scenario.rejected "ETIMEDOUT") = true
  /\ EmailService.isRetryableError (Scenario.rejected "ECONNREFUSED") = true
  /\ EmailService.isRetryableError (Scenario.rejected "ENOTFOUND") = true
  /\ EmailService.isRetryableError (Scenario.responded 503) = true
  /\ EmailService.isRetryableError (Scenario.responded 408) = true
  /\ EmailService.isRetryableError (Scenario.responded 429) = true
  /\ EmailService.isRetryableError (Scenario.responded 400) = false
  /\ EmailService.isRetryableError (Scenario.responded 404) = false.
Proof.
  refine (conj _ (conj _ (conj _ (conj _ (conj _ (conj _ (conj _ _))))))).
  - apply (proj1 (isRetryableError_classifies (Scenario.rejected "ETIMEDOUT"))).
    reflexivity.
  - apply (proj1 (isRetryableError_classifies (Scenario.rejected "ECONNREFUSED"))).
    reflexivity.
  - apply (proj1 (isRetryableError_classifies (Scenario.rejected "ENOTFOUND"))).
    reflexivity.
  - apply (proj1 (proj2 (isRetryableError_classifies (Scenario.responded 503)) _ eq_refl)).
    left; simpl; lia.
  - apply (proj1 (proj2 (isRetryableError_classifies (Scenario.responded 408)) _ eq_refl)).
    right; left; reflexivity.
  - apply (proj1 (proj2 (isRetryableError_classifies (Scenario.responded 429)) _ eq_refl)).
    right; right; reflexivity.
  - apply (proj2 (proj2 (isRetryableError_classifies (Scenario.responded 400)) _ eq_refl));
      simpl; lia.
  - apply (proj2 (proj2 (isRetryableError_classifies (Scenario.responded 404)) _ eq_refl));
      simpl; lia.
Defined.

(** ** The due selection *)

Lemma insertByScheduledAt_In :
  forall r l x, In x (Prisma.insertByScheduledAt r l) <-> x = r \/ In x l.
Proof.
  intros r l x; induction l as [ | y l IH ]; simpl.
  - intuition.
  - destruct (MessageLog.scheduledAt r <=? MessageLog.scheduledAt y); simpl.
    + intuition.
    + rewrite IH. intuition.
Qed.

Lemma orderByScheduledAt_In :
  forall l x, In x (Prisma.orderByScheduledAt l) <-> In x l.
Proof.
  induction l as [ | y l IH ]; intros x; simpl.
  - reflexivity.
  - rewrite insertByScheduledAt_In, IH. intuition.
Qed.

Lemma insertByScheduledAt_length :
  forall r l, List.length (Prisma.insertByScheduledAt r l) = S (List.length l).
Proof.
  intros r l; induction l as [ | y l IH ]; simpl; [ reflexivity | ].
  destruct (MessageLog.scheduledAt r <=? MessageLog.scheduledAt y); simpl; congruence.
Qed.

Lemma orderByScheduledAt_length :
  forall l, List.length (Prisma.orderByScheduledAt l) = List.length l.
Proof.
  induction l as [ | y l IH ]; simpl; [ reflexivity | ].
  now rewrite insertByScheduledAt_length, IH.
Qed.

Lemma insertByScheduledAt_ascending :
  forall r l, Spec.ascending l -> Spec.ascending (Prisma.insertByScheduledAt r l).
Proof.
  unfold Spec.ascending; intros r l; induction l as [ | y l IH ]; intros Hs; simpl.
  - repeat constructor.
  - inversion Hs as [ | ? ? Hl Hy ]; subst.
    destruct (MessageLog.scheduledAt r <=? MessageLog.scheduledAt y) eqn:E.
    + apply Z.leb_le in E. constructor; [ exact Hs | ].
      constructor; [ exact E | ].
      rewrite Forall_forall in Hy |- *. intros x Hx. specialize (Hy x Hx). lia.
    + apply Z.leb_gt in E. constructor; [ now apply IH | ].
      rewrite Forall_forall in Hy |- *. intros x Hx.
      apply insertByScheduledAt_In in Hx as [-> | Hx]; [ lia | now apply Hy ].
Qed.

Lemma orderByScheduledAt_ascending :
  forall l, Spec.ascending (Prisma.orderByScheduledAt l).
Proof.
  induction l as [ | y l IH ]; simpl.
  - constructor.
  - now apply insertByScheduledAt_ascending.
Qed.

Lemma lockFree_iff :
  forall t r,
    BirthdayService.lockFree t r = true <->
    MessageLog.lockId r = None
    \/ exists until, MessageLog.lockedUntil r = Some until /\ until <= t.
Proof.
  intros t r; unfold BirthdayService.lockFree.
  destruct (MessageLog.lockId r) as [ l | ].
  - destruct (MessageLog.lockedUntil r) as [ u | ].
    + rewrite Z.leb_le. split.
      * intros H; right; now exists u.
      * intros [H | [u' [H Hu]]]; [ discriminate | ]. now inversion H; subst.
    + split; [ discriminate | ].
      intros [H | [u' [H _]]]; discriminate.
  - split; auto.
Qed.

Lemma isDue_iff :
  forall t r,
    BirthdayService.isDue t r = true <->
    (MessageLog.status r = PENDING \/ MessageLog.status r = RETRY)
    /\ MessageLog.scheduledAt r <= t
    /\ (MessageLog.lockId r = None
        \/ exists until, MessageLog.lockedUntil r = Some until /\ until <= t).
Proof.
  intros t r; unfold BirthdayService.isDue, BirthdayService.pendingOrRetry.
  rewrite !andb_true_iff, Z.leb_le, lockFree_iff.
  destruct (MessageLog.status r); intuition (auto; discriminate).
Qed.

Lemma dueRows_eq :
  forall P w,
    dbFault P (dbCalls w) = false ->
    Spec.dueRows P w
    = Prisma.orderByScheduledAt (filter (BirthdayService.isDue (now w)) (messageLogs w)).
Proof.
  intros P w H.
  unfold Spec.dueRows, Prisma.messageLog_findManyOrdered, Prisma.query.
  rewrite H; simpl. rewrite map_map; simpl. apply map_id.
Qed.

(** C8, as the code has it. The due selection of [processPendingMessages]
    yields exactly the rows that are PENDING or RETRY, scheduled at or before
    now, and whose lock is absent or expired, in ascending order of
    [scheduledAt]; it yields all of them, whatever their number. *)
Theorem dueSelection_exact :
  forall P w,
    dbFault P (dbCalls w) = false ->
    (forall r,
        In r (Spec.dueRows P w) <->
        In r (messageLogs w)
        /\ (MessageLog.status r = PENDING \/ MessageLog.status r = RETRY)
        /\ MessageLog.scheduledAt r <= now w
        /\ (MessageLog.lockId r = None
            \/ exists until, MessageLog.lockedUntil r = Some until /\ until <= now w))
    /\ Spec.ascending (Spec.dueRows P w)
    /\ List.length (Spec.dueRows P w)
       = List.length (filter (BirthdayService.isDue (now w)) (messageLogs w)).
Proof.
  intros P w H. rewrite (dueRows_eq P w H). split; [ | split ].
  - intros r. rewrite orderByScheduledAt_In, filter_In, isDue_iff. reflexivity.
  - apply orderByScheduledAt_ascending.
  - apply orderByScheduledAt_length.
Qed.

Lemma dueSelection_exact_witness :
  Spec.ascending (Spec.dueRows Scenario.always200 Scenario.twoDueWorld)
  /\ List.length (Spec.dueRows Scenario.always200 Scenario.twoDueWorld) = 2%nat.
Proof.
  split.
  - apply (dueSelection_exact Scenario.always200 Scenario.twoDueWorld). reflexivity.
  - reflexivity.
Defined.

(** C8, as stated, fails: there is no limit. With two rows due, a selection
    bounded by a limit of one would hold one row; it holds both. *)
Lemma dueSelection_exceeds_limit :
  ~ Spec.atMost 1 Scenario.always200 Scenario.twoDueWorld.
Proof.
  unfold Spec.atMost. vm_compute. intros H.
  inversion H as [ | ? H' ]. inversion H'.
Qed.

(** ** The lease *)

Lemma Forall2_map_right :
  forall (A : Type) (R : A -> A -> Prop) (f : A -> A) (l : list A),
    (forall x, In x l -> R x (f x)) -> Forall2 R l (map f l).
Proof.
  intros A R f l; induction l as [ | x l IH ]; intros H; simpl; constructor.
  - apply H; now left.
  - apply IH; intros y Hy; apply H; now right.
Qed.

Lemma Forall2_same :
  forall (A : Type) (R : A -> A -> Prop) (l : list A),
    (forall x, R x x) -> Forall2 R l l.
Proof.
  intros A R l H; induction l; constructor; auto.
Qed.

Lemma unlockData_keptOrReleased :
  forall messageId lockId r,
    Spec.keptOrReleased messageId lockId r
      (if BirthdayService.hasId messageId r && BirthdayService.holdsLock lockId r
       then MessageLog.unlockData r else r).
Proof.
  intros messageId lockId r.
  destruct (BirthdayService.hasId messageId r) eqn:Hid; simpl; [ | now left ].
  destruct (BirthdayService.holdsLock lockId r) eqn:Hl; [ | now left ].
  right. unfold BirthdayService.hasId in Hid. apply String.eqb_eq in Hid.
  unfold BirthdayService.holdsLock in Hl.
  destruct (MessageLog.lockId r) as [ l | ] eqn:El; [ | discriminate ].
  apply String.eqb_eq in Hl; subst l.
  unfold Spec.sameButLease; simpl. intuition.
Qed.

(** The [catch] block of [processMessage], on any world: every row stays as
    it is, except the row [messageId] when it carries [lockId], which loses
    its lease and nothing else. *)
Lemma releaseOwnLock_frame :
  forall P messageId lockId w,
    Forall2 (Spec.keptOrReleased messageId lockId) (messageLogs w)
      (messageLogs (run (BirthdayService.releaseOwnLock P messageId lockId) w)).
Proof.
  intros P messageId lockId w.
  unfold run, BirthdayService.releaseOwnLock, bind, Prisma.messageLog_updateMany,
    Prisma.query, ret.
  destruct (dbFault P (dbCalls w)); simpl.
  - apply Forall2_same. intros x; now left.
  - apply Forall2_map_right. intros x _. apply unlockData_keptOrReleased.
Qed.

Lemma processMessage_unfold :
  forall P messageId w,
    BirthdayService.processMessage P messageId w
    = tryCatch
        (BirthdayService.processLocked P messageId (uuid P (uuidCalls w))
           (now w + BirthdayService.lockDuration))
        (fun _ => BirthdayService.releaseOwnLock P messageId (uuid P (uuidCalls w)))
        (setUuidCalls (S (uuidCalls w)) w).
Proof. reflexivity. Qed.

(** C10. Whenever the [try] block of [processMessage] throws, the cleanup
    that follows leaves every row as the exception found it, except the row
    of this message when it still carries the lock token that this call drew:
    that row loses [lockId] and [lockedUntil] and keeps every other column. A
    lease under any other token is not cleared. *)
Theorem processMessage_cleanup_releases_own_lease_only :
  forall P messageId w e w1,
    BirthdayService.processLocked P messageId (uuid P (uuidCalls w))
      (now w + BirthdayService.lockDuration) (setUuidCalls (S (uuidCalls w)) w)
    = (Throw e, w1) ->
    Forall2 (Spec.keptOrReleased messageId (uuid P (uuidCalls w)))
      (messageLogs w1)
      (messageLogs (run (BirthdayService.processMessage P messageId) w)).
Proof.
  intros P messageId w e w1 H.
  unfold run. rewrite processMessage_unfold. unfold tryCatch. rewrite H.
  apply releaseOwnLock_frame.
Qed.

Lemma processMessage_cleanup_releases_own_lease_only_witness :
  Forall2 (Spec.keptOrReleased "msg-1" "uuid-")
    [MessageLog.lockData "uuid-" (Scenario.utc 2026 5 15 13 10)
       (Scenario.row "msg-1" "user-1" PENDING None None None)]
    (messageLogs
       (run (BirthdayService.processMessage Scenario.secondCallFails "msg-1")
          Scenario.pendingWorld)).
Proof.
  apply (processMessage_cleanup_releases_own_lease_only Scenario.secondCallFails
           "msg-1" Scenario.pendingWorld "PrismaClientKnownRequestError"
           (mkWorld (Scenario.utc 2026 5 15 13 5) [Scenario.john]
              [MessageLog.lockData "uuid-" (Scenario.utc 2026 5 15 13 10)
                 (Scenario.row "msg-1" "user-1" PENDING None None None)]
              (EmailService.new defaultEnv) [] 2 1)).
  reflexivity.
Defined.

(** ** Processing a row that is already sent *)

(** C1 fails on the code. The row "msg-1" is SENT, sent at 13:00:00Z,
    and its lease is free. [processMessage] does not look at the status: it
    takes the lease and sends the greeting once more. When the remote accepts,
    [sentAt] moves to the time of the second delivery; when the remote keeps
    answering 500, the row goes from SENT to RETRY. The step is reached at
    the start of the scheduler: when a tick runs between the reading of the
    recovery's list and its loop, the one pending greeting is sent twice. *)
Theorem processMessage_sent_row_is_processed_again :
  Spec.rowOf "msg-1" Scenario.sentWorld
  = Some (Scenario.row "msg-1" "user-1" SENT (Some (Scenario.utc 2026 5 15 13 0)) None None)
  /\ (let w' := run (BirthdayService.processMessage Scenario.always200 "msg-1")
                  Scenario.sentWorld in
      outbox w' = [Axios.mkPayload "john@example.com" "Hey, John Doe it's your birthday"]
      /\ Spec.rowOf "msg-1" w'
         = Some (Scenario.row "msg-1" "user-1" SENT
                   (Some (Scenario.utc 2026 5 15 13 5)) None None))
  /\ (let w' := run (BirthdayService.processMessage Scenario.always500 "msg-1")
                  Scenario.sentWorld in
      List.length (outbox w') = 4%nat
      /\ option_map MessageLog.status (Spec.rowOf "msg-1" w') = Some RETRY
      /\ option_map MessageLog.retryCount (Spec.rowOf "msg-1" w') = Some 1)
  /\ (let w' := run (Scenario.recoveryOverlapsTick Scenario.always200)
                  Scenario.pendingWorld in
      outbox w'
      = [Axios.mkPayload "john@example.com" "Hey, John Doe it's your birthday";
         Axios.mkPayload "john@example.com" "Hey, John Doe it's your birthday"]
      /\ Spec.progress "msg-1" w' = Some (SENT, 0)).
Proof. vm_compute. repeat split. Qed.

(** ** The delivery client *)

Lemma countFailure_failureCount :
  forall err m,
    failureCount (EmailService.countFailure err m) = failureCount m + 1.
Proof.
  intros [ e | ] m; simpl; [ | reflexivity ].
  now destruct (truthy e).
Qed.

Lemma sameSettings_refl : forall s, Spec.sameSettings s s.
Proof. intros s; unfold Spec.sameSettings; intuition. Qed.

Lemma sendFrame_refl : forall w, Spec.sendFrame w w.
Proof.
  intros w; unfold Spec.sendFrame; intuition; try lia. apply sameSettings_refl.
Qed.

Lemma sendFrame_trans :
  forall w1 w2 w3, Spec.sendFrame w1 w2 -> Spec.sendFrame w2 w3 -> Spec.sendFrame w1 w3.
Proof.
  unfold Spec.sendFrame, Spec.sameSettings; intros w1 w2 w3 H1 H2.
  intuition (try congruence; try lia).
Qed.

Ltac world_simpl :=
  cbn [fst snd run now users messageLogs emailService outbox dbCalls uuidCalls
       setNow setUsers setMessageLogs setEmailService setOutbox setDbCalls
       setUuidCalls EmailService.setMetrics EmailService.setOpenUntil
       timeout maxRetries retryDelay circuitBreakerThreshold
       circuitBreakerResetTime metrics circuitBreakerOpenUntil
       EmailService.success EmailService.error] in *.

Lemma updateMetrics_failure :
  forall err w,
    exists w',
      EmailService.updateMetrics false (Some err) w = (Return tt, w')
      /\ Spec.sendFrame w w' /\ now w' = now w /\ outbox w' = outbox w
      /\ failureCount (metrics (emailService w'))
         = failureCount (metrics (emailService w)) + 1
      /\ (circuitBreakerThreshold (emailService w)
            <= failureCount (metrics (emailService w')) ->
          circuitBreakerOpenUntil (emailService w')
          = Some (now w + circuitBreakerResetTime (emailService w))).
Proof.
  intros err w.
  unfold EmailService.updateMetrics, bind, EmailService.openCircuitBreaker.
  world_simpl. rewrite countFailure_failureCount.
  destruct (circuitBreakerThreshold (emailService w)
              <=? failureCount (metrics (emailService w)) + 1) eqn:E;
    eexists; (split; [ reflexivity | ]); world_simpl;
    rewrite ?countFailure_failureCount;
    unfold Spec.sendFrame, Spec.sameSettings; world_simpl; intuition (try lia).
Qed.

Lemma updateMetrics_success :
  forall w,
    exists w',
      EmailService.updateMetrics true None w = (Return tt, w')
      /\ Spec.sendFrame w w' /\ now w' = now w /\ outbox w' = outbox w
      /\ failureCount (metrics (emailService w')) = 0
      /\ circuitBreakerOpenUntil (emailService w')
         = circuitBreakerOpenUntil (emailService w).
Proof.
  intros w. eexists; split; [ reflexivity | ]; simpl.
  unfold Spec.sendFrame, Spec.sameSettings; simpl; intuition lia.
Qed.

Lemma isCircuitBreakerOpen_cases :
  forall w,
    (Spec.breakerOpen w /\ EmailService.isCircuitBreakerOpen w = (Return true, w))
    \/ (~ Spec.breakerOpen w
        /\ exists w1,
            EmailService.isCircuitBreakerOpen w = (Return false, w1)
            /\ Spec.sendFrame w w1 /\ now w1 = now w /\ outbox w1 = outbox w
            /\ metrics (emailService w1) = metrics (emailService w)
            /\ circuitBreakerOpenUntil (emailService w1) = None).
Proof.
  intros w. unfold EmailService.isCircuitBreakerOpen, Spec.breakerOpen.
  destruct (circuitBreakerOpenUntil (emailService w)) as [ until | ] eqn:Eu.
  - destruct (now w <? until) eqn:Et.
    + left. apply Z.ltb_lt in Et. split; [ now exists until | reflexivity ].
    + right. apply Z.ltb_ge in Et. split.
      * intros [u [Hu Hlt]]. inversion Hu; subst. lia.
      * eexists; split; [ reflexivity | ]. world_simpl.
        unfold Spec.sendFrame, Spec.sameSettings; world_simpl. intuition lia.
  - right. split.
    + intros [u [Hu _]]. discriminate.
    + exists w. split; [ reflexivity | ].
      split; [ apply sendFrame_refl | ]. intuition.
Qed.

Lemma sendEmailFrom_unfold :
  forall P budget email message retryCount,
    EmailService.sendEmailFrom P budget email message retryCount
    = (open <- EmailService.isCircuitBreakerOpen ;;
       if (open : bool) then
         EmailService.updateMetrics false (Some EmailService.breakerOpenError) ;;
         ret (EmailService.mkResult false (Some EmailService.breakerOpenError))
       else
         outcome <- EmailService.axios_post P (Axios.mkPayload email message) ;;
         match outcome with
         | Axios.Resolve response =>
             if (200 <=? Axios.status response) && (Axios.status response <? 300) then
               EmailService.updateMetrics true None ;;
               ret (EmailService.mkResult true None)
             else
               let errorMsg :=
                 "HTTP " ++ showZ (Axios.status response) ++ ": "
                   ++ Axios.statusText response in
               let mockError :=
                 Axios.mkError (Some (showZ (Axios.status response))) errorMsg
                   (Some response) in
               fun w =>
                 match (retryCount <? maxRetries (emailService w))
                       && EmailService.isRetryableError mockError, budget with
                 | true, S budget' =>
                     (delay (EmailService.backoff (retryDelay (emailService w)) retryCount) ;;
                      EmailService.sendEmailFrom P budget' email message (retryCount + 1)) w
                 | _, _ =>
                     (EmailService.updateMetrics false (Some errorMsg) ;;
                      ret (EmailService.mkResult false (Some errorMsg))) w
                 end
         | Axios.Reject axiosError =>
             fun w =>
               match (retryCount <? maxRetries (emailService w))
                     && EmailService.isRetryableError axiosError, budget with
               | true, S budget' =>
                   (delay (EmailService.backoff (retryDelay (emailService w)) retryCount) ;;
                    EmailService.sendEmailFrom P budget' email message (retryCount + 1)) w
               | _, _ =>
                   let finalError :=
                     EmailService.finalErrorOf (timeout (emailService w)) axiosError in
                   (EmailService.updateMetrics false (Some finalError) ;;
                    ret (EmailService.mkResult false (Some finalError))) w
               end
         end).
Proof. intros P [ | budget ] email message retryCount; reflexivity. Qed.

Lemma sendPost_blocked :
  forall P email message w w',
    Spec.breakerOpen w ->
    EmailService.updateMetrics false (Some EmailService.breakerOpenError) w
    = (Return tt, w') ->
    Spec.sendPost P email message w Spec.blockedResult w'.
Proof.
  intros P email message w w' Hopen Hw'.
  destruct (updateMetrics_failure EmailService.breakerOpenError w)
    as [w'' [E [Hf [Hn [Ho [Hc Ht]]]]]].
  rewrite E in Hw'; inversion Hw'; subst w''; clear Hw'.
  unfold Spec.sendPost; world_simpl.
  split; [ exact Hf | ]. split.
  { exists O. simpl. rewrite app_nil_r. intuition. }
  split; [ intros _; split; [ reflexivity | exact Hn ] | ].
  split; [ discriminate | ].
  split; [ intros _; split; [ exact Hc | intros H; rewrite (Ht H), Hn; reflexivity ] | ].
  reflexivity.
Qed.

Lemma timerDelay_range : forall ms, 1 <= timerDelay ms <= TIMEOUT_MAX.
Proof.
  intros ms. unfold timerDelay, TIMEOUT_MAX.
  destruct (1 <=? ms) eqn:E1; cbn [andb]; [ | lia ].
  destruct (ms <=? 2147483647) eqn:E2; [ | lia ].
  apply Z.leb_le in E1, E2. lia.
Qed.

Section Attempt.
Variables (P : Platform) (email message : string).
Variables (w w1 : World).
Hypothesis Hclosed : ~ Spec.breakerOpen w.
Hypothesis Hframe : Spec.sendFrame w w1.
Hypothesis Hnow : now w1 = now w.
Hypothesis Hout : outbox w1 = outbox w.
Hypothesis Hmet : metrics (emailService w1) = metrics (emailService w).
Hypothesis Hnone : circuitBreakerOpenUntil (emailService w1) = None.

Lemma sendFrame_pushed : Spec.sendFrame w (Spec.requested email message w1).
Proof.
  unfold Spec.requested, Spec.sendFrame in *; world_simpl. intuition.
Qed.

Lemma sendPost_failure :
  forall err w',
    EmailService.updateMetrics false (Some err) (Spec.requested email message w1) = (Return tt, w') ->
    Spec.sendPost P email message w (EmailService.mkResult false (Some err)) w'.
Proof.
  intros err w' Hw'.
  destruct (updateMetrics_failure err (Spec.requested email message w1)) as [w'' [E [Hf [Hn [Ho [Hc Ht]]]]]].
  rewrite E in Hw'; inversion Hw'; subst w''; clear Hw'.
  pose proof sendFrame_pushed as Hp.
  unfold Spec.requested in *; world_simpl.
  unfold Spec.sendPost; world_simpl.
  split; [ exact (sendFrame_trans _ _ _ Hp Hf) | ]. split.
  { exists 1%nat. simpl. rewrite Ho, Hout. intuition discriminate. }
  split; [ intros H; contradiction | ].
  split; [ discriminate | ].
  split; [ | reflexivity ].
  intros _. rewrite Hc, Hmet. split; [ reflexivity | ].
  destruct Hframe as [_ [_ [_ [_ [_ [_ [_ [_ [Hth Hrt]]]]]]]]].
  intros H. rewrite Ht.
  - rewrite Hn, Hnow, Hrt. reflexivity.
  - rewrite Hth, Hc, Hmet. exact H.
Qed.

Lemma sendPost_success :
  forall response w',
    remote P (List.length (outbox w)) = Axios.Resolve response ->
    (200 <=? Axios.status response) && (Axios.status response <? 300) = true ->
    EmailService.updateMetrics true None (Spec.requested email message w1) = (Return tt, w') ->
    Spec.sendPost P email message w (EmailService.mkResult true None) w'.
Proof.
  intros response w' Hr H2xx Hw'.
  destruct (updateMetrics_success (Spec.requested email message w1)) as [w'' [E [Hf [Hn [Ho [Hc Hu]]]]]].
  rewrite E in Hw'; inversion Hw'; subst w''; clear Hw'.
  pose proof sendFrame_pushed as Hp.
  unfold Spec.requested in *; world_simpl.
  unfold Spec.sendPost; world_simpl.
  split; [ exact (sendFrame_trans _ _ _ Hp Hf) | ]. split.
  { exists 1%nat. simpl. rewrite Ho, Hout. intuition discriminate. }
  split; [ intros H; contradiction | ].
  split; [ intros _; split; [ exact Hc | now rewrite Hu ] | ].
  split; [ discriminate | ].
  intros Hall. exfalso.
  specialize (Hall (List.length (outbox w))).
  rewrite Hr in Hall. unfold Spec.failed in Hall. rewrite H2xx in Hall.
  assert (false = true) by
    (apply Hall; rewrite Ho, Hout, length_app; simpl; lia).
  discriminate.
Qed.

Lemma sendPost_retry :
  forall ms res w',
    Spec.sendPost P email message
      (setNow (now (Spec.requested email message w1) + timerDelay ms)
         (Spec.requested email message w1)) res w' ->
    Spec.sendPost P email message w res w'.
Proof.
  intros ms res w'.
  set (w3 := setNow (now (Spec.requested email message w1) + timerDelay ms)
               (Spec.requested email message w1)).
  pose proof (timerDelay_range ms) as Hms.
  intros [Hf [[k [Hk _]] [_ [Hs [Hfail Hall]]]]].
  pose proof sendFrame_pushed as Hp.
  assert (Spec.sendFrame (Spec.requested email message w1) w3) as H23.
  { unfold w3, Spec.sendFrame, Spec.sameSettings; world_simpl. intuition lia. }
  pose proof (sendFrame_trans _ _ _ Hp H23) as H03.
  unfold Spec.sendPost.
  split; [ exact (sendFrame_trans _ _ _ H03 Hf) | ]. split.
  { exists (S k). rewrite Hk. unfold w3, Spec.requested; world_simpl.
    rewrite Hout, <- app_assoc. simpl. intuition discriminate. }
  split; [ intros H; contradiction | ].
  split; [ exact Hs | ].
  split.
  - intros Hres. destruct (Hfail Hres) as [Hc Ht].
    destruct H03 as [_ [_ [_ [_ [_ [_ [_ [_ [Hth Hrt]]]]]]]]].
    unfold w3, Spec.requested in Hc, Ht, Hth, Hrt; world_simpl.
    rewrite Hmet in Hc. split; [ exact Hc | ].
    intros H. rewrite Hth, Hrt in Ht. apply Ht. exact H.
  - intros H. apply Hall. intros n Hn. apply H.
    unfold w3, Spec.requested in Hn; world_simpl. rewrite Hout, length_app in Hn.
    simpl in Hn. lia.
Qed.
End Attempt.

(** Every call of [sendEmailFrom] returns; what it leaves is [sendPost]. *)
Lemma sendEmailFrom_post :
  forall P email message budget retryCount w,
    exists res w',
      EmailService.sendEmailFrom P budget email message retryCount w = (Return res, w')
      /\ Spec.sendPost P email message w res w'.
Proof.
  intros P email message budget.
  assert (forall w err (w1 : World),
             ~ Spec.breakerOpen w -> Spec.sendFrame w w1 -> now w1 = now w ->
             outbox w1 = outbox w ->
             metrics (emailService w1) = metrics (emailService w) ->
             exists res w',
               (EmailService.updateMetrics false (Some err) ;;
                ret (EmailService.mkResult false (Some err)))
                 (setOutbox (outbox w ++ [Axios.mkPayload email message]) w1)
               = (Return res, w')
               /\ Spec.sendPost P email message w res w') as Hterminal.
  { intros w err w1 Hclosed Hf Hn Ho Hm.
    destruct (updateMetrics_failure err
                (setOutbox (outbox w ++ [Axios.mkPayload email message]) w1))
      as [w' [E _]].
    unfold bind, ret; rewrite E.
    exists (EmailService.mkResult false (Some err)), w'; split; [ reflexivity | ].
    rewrite <- Ho in E. eapply sendPost_failure; eauto. }
  induction budget as [ | budget IH ]; intros retryCount w;
    rewrite sendEmailFrom_unfold; unfold bind at 1;
    (destruct (isCircuitBreakerOpen_cases w)
      as [[Hopen ->] | [Hclosed [w1 [-> [Hf [Hn [Ho [Hm Hu]]]]]]]];
     [ destruct (updateMetrics_failure EmailService.breakerOpenError w) as [w' [E _]];
       unfold bind, ret; rewrite E;
       exists Spec.blockedResult, w'; split; [ reflexivity | ];
       now apply sendPost_blocked
     | ]);
    unfold bind at 1, EmailService.axios_post; rewrite Ho;
    (destruct (remote P (List.length (outbox w))) as [ response | axiosError ] eqn:Er;
     [ destruct ((200 <=? Axios.status response) && (Axios.status response <? 300)) eqn:E2;
       [ destruct (updateMetrics_success
                     (setOutbox (outbox w ++ [Axios.mkPayload email message]) w1))
           as [w' [E _]];
         unfold bind, ret; rewrite E;
         exists (EmailService.mkResult true None), w'; split; [ reflexivity | ];
         rewrite <- Ho in E; eapply sendPost_success; eauto
       | cbv zeta ]
     | ]);
    match goal with
    | |- context [ match ?c with true => _ | false => _ end ] =>
        destruct c eqn:Eretry
    end;
    try (apply Hterminal; assumption).
  - unfold bind at 1, delay.
    match goal with
    | |- context [ EmailService.sendEmailFrom P budget email message ?rc ?w3 ] =>
        destruct (IH rc w3) as [res [w' [E Hpost]]]
    end.
    rewrite E. exists res, w'. split; [ reflexivity | ].
    rewrite <- Ho in Hpost. eapply sendPost_retry; eauto.
  - unfold bind at 1, delay.
    match goal with
    | |- context [ EmailService.sendEmailFrom P budget email message ?rc ?w3 ] =>
        destruct (IH rc w3) as [res [w' [E Hpost]]]
    end.
    rewrite E. exists res, w'. split; [ reflexivity | ].
    rewrite <- Ho in Hpost. eapply sendPost_retry; eauto.
Qed.

Lemma sendEmail_post :
  forall P email message retryCount w,
    exists res w',
      EmailService.sendEmail P email message retryCount w = (Return res, w')
      /\ Spec.sendPost P email message w res w'.
Proof.
  intros P email message retryCount w. unfold EmailService.sendEmail.
  apply sendEmailFrom_post.
Qed.

(** C6, as the code has it. Every call of [sendEmail] returns. A call that
    fails adds one to the count of consecutive failures, and when the count is
    then at the threshold or above, the breaker is open until
    [circuitBreakerResetTime] after the end of that call. While the breaker is
    open a call returns the breaker-open failure at once and makes no HTTP
    request; being a failure, it moves the end of the window to
    [circuitBreakerResetTime] after itself. Once the window has passed, a call
    makes a request; when the call succeeds the count is zero and the breaker
    is closed, when it fails the first clause opens the breaker again. *)
Theorem circuitBreaker_cycle :
  forall P email message w,
    exists res w',
      EmailService.sendEmail P email message 0 w = (Return res, w')
      /\ (EmailService.success res = false ->
          failureCount (metrics (emailService w'))
          = failureCount (metrics (emailService w)) + 1
          /\ (circuitBreakerThreshold (emailService w)
                <= failureCount (metrics (emailService w)) + 1 ->
              circuitBreakerOpenUntil (emailService w')
              = Some (now w' + circuitBreakerResetTime (emailService w))))
      /\ (forall until,
            circuitBreakerOpenUntil (emailService w) = Some until ->
            now w < until ->
            res = Spec.blockedResult /\ outbox w' = outbox w /\ now w' = now w)
      /\ (forall until,
            circuitBreakerOpenUntil (emailService w) = Some until ->
            until <= now w ->
            exists rest,
              outbox w' = (outbox w ++ Axios.mkPayload email message :: rest)%list)
      /\ (EmailService.success res = true ->
          failureCount (metrics (emailService w')) = 0
          /\ circuitBreakerOpenUntil (emailService w') = None).
Proof.
  intros P email message w.
  destruct (sendEmail_post P email message 0 w)
    as [res [w' [E [_ [[k [Hk [Hk0 Hk1]]] [Hblocked [Hok [Hfail _]]]]]]]].
  exists res, w'. split; [ exact E | ]. split; [ | split; [ | split ] ].
  - intros Hres. destruct (Hfail Hres) as [Hc Ht]. split; [ exact Hc | ].
    intros H. apply Ht. rewrite Hc. exact H.
  - intros till Hu Hlt.
    assert (Spec.breakerOpen w) as Hopen by (now exists till).
    destruct (Hblocked Hopen) as [-> Hn]. rewrite Hk, (Hk0 Hopen). simpl.
    rewrite app_nil_r. auto.
  - intros till Hu Hle.
    assert (~ Spec.breakerOpen w) as Hclosed.
    { intros [u [Hu' Hlt]]. rewrite Hu in Hu'. inversion Hu'; subst. lia. }
    destruct k as [ | k ]; [ exfalso; apply (Hk1 Hclosed); reflexivity | ].
    exists (repeat (Axios.mkPayload email message) k). exact Hk.
  - exact Hok.
Qed.

Lemma circuitBreaker_cycle_witness :
  exists res w',
    EmailService.sendEmail Scenario.always400 "test@example.com" "Hi" 0
      (setNow (Scenario.t0 + 500) Scenario.afterThreeFailures) = (Return res, w')
    /\ res = Spec.blockedResult
    /\ outbox w' = outbox Scenario.afterThreeFailures
    /\ circuitBreakerOpenUntil (emailService w') = Some (Scenario.t0 + 1500).
Proof.
  destruct (circuitBreaker_cycle Scenario.always400 "test@example.com" "Hi"
              (setNow (Scenario.t0 + 500) Scenario.afterThreeFailures))
    as [res [w' [E [Hfail [Hopen _]]]]].
  destruct (Hopen (Scenario.t0 + 1000) eq_refl eq_refl) as [Hres [Hout Hnow]].
  exists res, w'. split; [ exact E | ]. split; [ exact Hres | ].
  split; [ exact Hout | ].
  destruct Hfail as [_ Ht]; [ now rewrite Hres | ].
  rewrite Ht; [ rewrite Hnow; reflexivity | vm_compute; discriminate ].
Defined.

(** C6, as stated, fails. The breaker opens at [t0] for 1000 ms. A call at
    [t0 + 500] is turned away and moves the end of the window to [t0 + 1500],
    so that a call at [t0 + 1200], after the 1000 ms have passed, is turned
    away as well and reaches no remote. *)
Lemma circuitBreaker_window_restarts :
  circuitBreakerOpenUntil (emailService Scenario.afterThreeFailures)
  = Some (Scenario.t0 + 1000)
  /\ ~ Spec.attemptsRequest Scenario.always400 "test@example.com" "Hi"
         (setNow (Scenario.t0 + 1200)
            (Scenario.greet Scenario.always400 (Scenario.t0 + 500)
               Scenario.afterThreeFailures)).
Proof.
  split; [ reflexivity | ].
  unfold Spec.attemptsRequest. intros H. apply H. reflexivity.
Qed.

(** ** What processing one message may touch *)

Lemma touches_refl : forall messageId w, Spec.touches messageId w w.
Proof.
  intros messageId w. split; [ | split; [ reflexivity | lia ] ].
  exists (fun r => r). rewrite map_id. auto.
Qed.

Lemma touches_trans :
  forall messageId w1 w2 w3,
    Spec.touches messageId w1 w2 -> Spec.touches messageId w2 w3 ->
    Spec.touches messageId w1 w3.
Proof.
  intros messageId w1 w2 w3 [[g [Hg [Hid Hoff]]] [Hu Hn]] [[g' [Hg' [Hid' Hoff']]] [Hu' Hn']].
  split; [ | split; [ congruence | lia ] ].
  exists (fun r => g' (g r)). rewrite Hg', Hg, map_map. split; [ reflexivity | ].
  split.
  - intros r. now rewrite Hid', Hid.
  - intros r Hr. rewrite (Hoff r Hr). now apply Hoff'.
Qed.

Lemma touching_ret : forall A messageId (a : A), Spec.touching messageId (ret a).
Proof. intros A messageId a w. apply touches_refl. Qed.

Lemma touching_throw : forall A messageId e, Spec.touching messageId (@throw A e).
Proof. intros A messageId e w. apply touches_refl. Qed.

Lemma touching_bind :
  forall A B messageId (m : M A) (k : A -> M B),
    Spec.touching messageId m -> (forall a, Spec.touching messageId (k a)) ->
    Spec.touching messageId (bind m k).
Proof.
  intros A B messageId m k Hm Hk w. unfold bind.
  specialize (Hm w). destruct (m w) as [[a | e] w1]; simpl in *.
  - eapply touches_trans; [ exact Hm | apply Hk ].
  - exact Hm.
Qed.

Lemma touching_tryCatch :
  forall A messageId (m : M A) (h : string -> M A),
    Spec.touching messageId m -> (forall e, Spec.touching messageId (h e)) ->
    Spec.touching messageId (tryCatch m h).
Proof.
  intros A messageId m h Hm Hh w. unfold tryCatch.
  specialize (Hm w). destruct (m w) as [[a | e] w1]; simpl in *.
  - exact Hm.
  - eapply touches_trans; [ exact Hm | apply Hh ].
Qed.

Lemma touching_newDate : forall messageId, Spec.touching messageId newDate.
Proof. intros messageId w. apply touches_refl. Qed.

Lemma touching_uuidv4 : forall P messageId, Spec.touching messageId (uuidv4 P).
Proof.
  intros P messageId w. unfold uuidv4; simpl.
  destruct (touches_refl messageId w) as [Hg H]. split; [ exact Hg | exact H ].
Qed.

Lemma touching_query :
  forall A P messageId (op : M A),
    Spec.touching messageId op -> Spec.touching messageId (Prisma.query P op).
Proof.
  intros A P messageId op Hop w. unfold Prisma.query.
  destruct (dbFault P (dbCalls w)); simpl.
  - destruct (touches_refl messageId w) as [Hg H]. split; [ exact Hg | exact H ].
  - specialize (Hop (setDbCalls (S (dbCalls w)) w)). exact Hop.
Qed.

Lemma touches_rewrite :
  forall messageId (c : MessageLog.t -> bool) (f : MessageLog.t -> MessageLog.t) w,
    (forall r, c r = true -> BirthdayService.hasId messageId r = true) ->
    (forall r, MessageLog.id (f r) = MessageLog.id r) ->
    Spec.touches messageId w
      (setMessageLogs (map (fun r => if c r then f r else r) (messageLogs w)) w).
Proof.
  intros messageId c f w Hc Hf. split; [ | split; [ reflexivity | simpl; lia ] ].
  exists (fun r => if c r then f r else r). split; [ reflexivity | ]. split.
  - intros r. destruct (c r); [ apply Hf | reflexivity ].
  - intros r Hr. destruct (c r) eqn:E; [ | reflexivity ].
    rewrite (Hc r E) in Hr. discriminate.
Qed.

Lemma touching_updateMany :
  forall P messageId c f,
    (forall r, c r = true -> BirthdayService.hasId messageId r = true) ->
    (forall r, MessageLog.id (f r) = MessageLog.id r) ->
    Spec.touching messageId (Prisma.messageLog_updateMany P c f).
Proof.
  intros P messageId c f Hc Hf. apply touching_query. intros w; simpl.
  now apply touches_rewrite.
Qed.

Lemma touching_update :
  forall P messageId f,
    (forall r, MessageLog.id (f r) = MessageLog.id r) ->
    Spec.touching messageId (Prisma.messageLog_update P messageId f).
Proof.
  intros P messageId f Hf. apply touching_query. intros w.
  destruct (existsb _ _); simpl.
  - apply (touches_rewrite messageId (fun r => String.eqb (MessageLog.id r) messageId));
      auto.
  - apply touches_refl.
Qed.

Lemma touching_findUnique :
  forall P messageId, Spec.touching messageId (Prisma.messageLog_findUnique P messageId).
Proof.
  intros P messageId. apply touching_query. intros w.
  destruct (find _ _) as [ r | ]; [ destruct (Prisma.userOf _ _) | ];
    simpl; apply touches_refl.
Qed.

Lemma touching_sendBirthdayMessage :
  forall P messageId email fullName,
    Spec.touching messageId (EmailService.sendBirthdayMessage P email fullName).
Proof.
  intros P messageId email fullName w. unfold EmailService.sendBirthdayMessage.
  destruct (sendEmail_post P email (EmailService.birthdayText fullName) 0 w)
    as [res [w' [E [[Hu [Hl [_ [_ [Hn _]]]]] _]]]].
  rewrite E; simpl. split; [ | split; [ exact Hu | exact Hn ] ].
  exists (fun r => r). rewrite map_id. auto.
Qed.

Lemma touching_processMessage :
  forall P messageId, Spec.touching messageId (BirthdayService.processMessage P messageId).
Proof.
  intros P messageId. unfold BirthdayService.processMessage.
  apply touching_bind; [ apply touching_uuidv4 | intros lockId ].
  apply touching_bind; [ apply touching_newDate | intros start ].
  apply touching_tryCatch.
  - unfold BirthdayService.processLocked.
    apply touching_bind; [ apply touching_newDate | intros now_ ].
    apply touching_bind.
    { apply touching_updateMany; [ | reflexivity ].
      intros r Hr. apply andb_true_iff in Hr. tauto. }
    intros updated. destruct (updated =? 0); [ apply touching_ret | ].
    apply touching_bind; [ apply touching_findUnique | ].
    intros [[row [user | ]] | ]; try apply touching_ret.
    apply touching_bind; [ apply touching_sendBirthdayMessage | intros result ].
    destruct (EmailService.success result).
    + apply touching_bind; [ apply touching_newDate | intros sentAt ].
      apply touching_update. reflexivity.
    + apply touching_update. reflexivity.
  - intros e. unfold BirthdayService.releaseOwnLock.
    apply touching_bind; [ | intros; apply touching_ret ].
    apply touching_updateMany; [ | reflexivity ].
    intros r Hr. apply andb_true_iff in Hr. tauto.
Qed.

Lemma returning_ret : forall A (a : A), Spec.returning (ret a).
Proof. intros A a w. now exists a. Qed.

Lemma returning_bind :
  forall A B (m : M A) (k : A -> M B),
    Spec.returning m -> (forall a, Spec.returning (k a)) -> Spec.returning (bind m k).
Proof.
  intros A B m k Hm Hk w. unfold bind.
  destruct (Hm w) as [a Ha]. destruct (m w) as [[a' | e] w1]; simpl in *.
  - apply Hk.
  - discriminate.
Qed.

Lemma returning_tryCatch :
  forall A (m : M A) (h : string -> M A),
    (forall e, Spec.returning (h e)) -> Spec.returning (tryCatch m h).
Proof.
  intros A m h Hh w. unfold tryCatch.
  destruct (m w) as [[a | e] w1]; simpl.
  - now exists a.
  - apply Hh.
Qed.

Lemma returning_updateMany :
  forall P c f, Spec.reliableDb P -> Spec.returning (Prisma.messageLog_updateMany P c f).
Proof.
  intros P c f HP w. unfold Prisma.messageLog_updateMany, Prisma.query.
  rewrite HP. simpl. eauto.
Qed.

Lemma processMessage_returns :
  forall P messageId,
    Spec.reliableDb P -> Spec.returning (BirthdayService.processMessage P messageId).
Proof.
  intros P messageId HP. unfold BirthdayService.processMessage.
  apply returning_bind; [ intros w; simpl; eauto | intros lockId ].
  apply returning_bind; [ intros w; simpl; eauto | intros start ].
  apply returning_tryCatch. intros e. unfold BirthdayService.releaseOwnLock.
  apply returning_bind; [ now apply returning_updateMany | intros; apply returning_ret ].
Qed.

(** Rows found by identifier, through a rewriting that keeps identifiers. *)
Lemma find_hasId_map :
  forall messageId (g : MessageLog.t -> MessageLog.t) l,
    (forall r, MessageLog.id (g r) = MessageLog.id r) ->
    find (BirthdayService.hasId messageId) (map g l)
    = option_map g (find (BirthdayService.hasId messageId) l).
Proof.
  intros messageId g l Hg; induction l as [ | x l IH ]; simpl; [ reflexivity | ].
  unfold BirthdayService.hasId at 1. rewrite Hg.
  fold (BirthdayService.hasId messageId x).
  destruct (BirthdayService.hasId messageId x); [ reflexivity | exact IH ].
Qed.

Lemma touches_rowOf :
  forall messageId other w w',
    Spec.touches other w w' -> other <> messageId ->
    Spec.rowOf messageId w' = Spec.rowOf messageId w.
Proof.
  intros messageId other w w' [[g [Hg [Hid Hoff]]] _] Hne.
  unfold Spec.rowOf. rewrite Hg, (find_hasId_map messageId g _ Hid).
  destruct (find (BirthdayService.hasId messageId) (messageLogs w)) as [ r | ] eqn:E;
    [ | reflexivity ].
  simpl. f_equal. apply Hoff.
  apply find_some in E as [_ E]. unfold BirthdayService.hasId in *.
  apply String.eqb_eq in E. apply String.eqb_neq. congruence.
Qed.

Lemma touches_ids :
  forall messageId w w',
    Spec.touches messageId w w' ->
    map MessageLog.id (messageLogs w') = map MessageLog.id (messageLogs w).
Proof.
  intros messageId w w' [[g [Hg [Hid _]]] _].
  rewrite Hg, map_map. apply map_ext. exact Hid.
Qed.

Lemma filter_count_nonzero :
  forall (c : MessageLog.t -> bool) l r,
    In r l -> c r = true -> (Z.of_nat (List.length (filter c l)) =? 0) = false.
Proof.
  intros c l r Hin Hc. apply Z.eqb_neq.
  assert (In r (filter c l)) as H by (apply filter_In; auto).
  destruct (filter c l); [ destruct H | simpl; lia ].
Qed.

Lemma messageLog_update_found :
  forall P messageId f w x,
    Spec.reliableDb P ->
    find (BirthdayService.hasId messageId) (messageLogs w) = Some x ->
    (forall r, MessageLog.id (f r) = MessageLog.id r) ->
    exists w',
      Prisma.messageLog_update P messageId f w = (Return tt, w')
      /\ outbox w' = outbox w /\ emailService w' = emailService w
      /\ now w' = now w
      /\ Spec.rowOf messageId w' = Some (f x).
Proof.
  intros P messageId f w x HP Hx Hf.
  unfold Prisma.messageLog_update, Prisma.query. rewrite HP. world_simpl.
  change (fun r : MessageLog.t => (MessageLog.id r =? messageId)%string)
    with (BirthdayService.hasId messageId).
  assert (existsb (BirthdayService.hasId messageId) (messageLogs w) = true) as ->.
  { apply existsb_exists. exists x. apply find_some in Hx. exact Hx. }
  eexists; split; [ reflexivity | ]. world_simpl.
  repeat (split; [ reflexivity | ]).
  unfold Spec.rowOf; world_simpl.
  change (fun r : MessageLog.t =>
            if (MessageLog.id r =? messageId)%string then f r else r)
    with (fun r : MessageLog.t =>
            if BirthdayService.hasId messageId r then f r else r).
  rewrite find_hasId_map
    by (intros r; destruct (BirthdayService.hasId messageId r); auto).
  rewrite Hx. cbn [option_map]. apply find_some in Hx as [_ ->]. reflexivity.
Qed.

Lemma processMessage_delivers :
  forall P messageId w r user,
    Spec.reliableDb P ->
    Spec.rowOf messageId w = Some r ->
    BirthdayService.lockFree (now w) r = true ->
    Prisma.userOf (users w) r = Some user ->
    exists wl res ws w',
      now wl = now w /\ outbox wl = outbox w /\ emailService wl = emailService w
      /\ EmailService.sendBirthdayMessage P (User.email user)
           (User.firstName user ++ " " ++ User.lastName user) wl = (Return res, ws)
      /\ Spec.sendPost P (User.email user)
           (EmailService.birthdayText (User.firstName user ++ " " ++ User.lastName user))
           wl res ws
      /\ BirthdayService.processMessage P messageId w = (Return tt, w')
      /\ outbox w' = outbox ws
      /\ emailService w' = emailService ws
      /\ now w' = now ws
      /\ Spec.rowOf messageId w'
         = Some (if EmailService.success res
                 then MessageLog.sentData (now ws) r
                 else MessageLog.failureData
                        (if envInt (EMAIL_SERVICE_MAX_RETRIES (env P)) 3
                              <=? MessageLog.retryCount r + 1
                         then FAILED else RETRY)
                        (MessageLog.retryCount r + 1) (Spec.errorText res) r).
Proof.
  intros P messageId w r user HP Hrow Hfree Huser.
  pose proof (find_some _ _ Hrow) as [Hin Hid].
  rewrite processMessage_unfold.
  unfold tryCatch, BirthdayService.processLocked.
  unfold bind at 1, newDate at 1. world_simpl.
  unfold bind at 1, Prisma.messageLog_updateMany at 1, Prisma.query at 1.
  rewrite HP. world_simpl.
  rewrite (filter_count_nonzero _ _ r Hin)
    by (rewrite Hid, Hfree; reflexivity).
  unfold bind at 1, Prisma.messageLog_findUnique at 1, Prisma.query at 1.
  rewrite HP. world_simpl.
  change (fun r0 : MessageLog.t => (MessageLog.id r0 =? messageId)%string)
    with (BirthdayService.hasId messageId).
  rewrite find_hasId_map
    by (intros x; destruct (_ && _); reflexivity).
  unfold Spec.rowOf in Hrow. rewrite Hrow. cbn [option_map].
  rewrite Hid, Hfree. cbn [andb].
  change (Prisma.userOf (users w) (MessageLog.lockData _ _ r))
    with (Prisma.userOf (users w) r).
  rewrite Huser.
  unfold bind at 1.
  match goal with
  | |- context [ EmailService.sendBirthdayMessage P ?e ?n ?wl ] =>
      set (wl_ := wl);
      destruct (sendEmail_post P e (EmailService.birthdayText n) 0 wl_)
        as [res [ws [E Hpost]]];
      pose proof Hpost as [[Hu [Hl [Hd [Hc _]]]] _]
  end.
  exists wl_, res, ws.
  unfold EmailService.sendBirthdayMessage at 1 2. rewrite E.
  assert (find (BirthdayService.hasId messageId) (messageLogs ws)
          = Some (MessageLog.lockData (uuid P (uuidCalls w))
                    (now w + BirthdayService.lockDuration) r)) as Hfound.
  { rewrite Hl. unfold wl_; world_simpl.
    rewrite find_hasId_map by (intros x; destruct (_ && _); reflexivity).
    rewrite Hrow. cbn [option_map]. now rewrite Hid, Hfree. }
  destruct (EmailService.success res).
  - unfold bind at 1, newDate at 1.
    destruct (messageLog_update_found P messageId (MessageLog.sentData (now ws)) ws _
                HP Hfound) as [w' [E' [Ho [Hs [Hn Hr]]]]]; [ reflexivity | ].
    rewrite E'. exists w'. unfold wl_; world_simpl. intuition.
  - match goal with
    | |- context [ Prisma.messageLog_update P messageId ?f ws ] =>
        destruct (messageLog_update_found P messageId f ws _ HP Hfound)
          as [w' [E' [Ho [Hs [Hn Hr]]]]]; [ reflexivity | ]
    end.
    rewrite E'. exists w'. unfold wl_; world_simpl. intuition.
Qed.

(** ** One tick of the processor *)


Lemma insertByScheduledAt_perm :
  forall r l, Permutation (Prisma.insertByScheduledAt r l) (r :: l).
Proof.
  intros r l; induction l as [ | x l IH ]; simpl; [ reflexivity | ].
  destruct (MessageLog.scheduledAt r <=? MessageLog.scheduledAt x); [ reflexivity | ].
  rewrite IH. apply perm_swap.
Qed.

Lemma orderByScheduledAt_perm :
  forall l, Permutation (Prisma.orderByScheduledAt l) l.
Proof.
  induction l as [ | x l IH ]; simpl; [ reflexivity | ].
  rewrite insertByScheduledAt_perm. now constructor.
Qed.

Lemma NoDup_map_filter :
  forall (A B : Type) (f : A -> B) (c : A -> bool) l,
    NoDup (map f l) -> NoDup (map f (filter c l)).
Proof.
  intros A B f c l; induction l as [ | x l IH ]; simpl; intros H; [ constructor | ].
  inversion H as [ | ? ? Hx Hl ]; subst.
  destruct (c x); simpl; [ constructor | ]; auto.
  intros Hin. apply Hx. apply in_map_iff in Hin as [y [Hy Hin]].
  apply in_map_iff. exists y. split; [ exact Hy | ].
  apply filter_In in Hin. tauto.
Qed.

Lemma NoDup_map_injective_on :
  forall (A B : Type) (f : A -> B) l x y,
    NoDup (map f l) -> In x l -> In y l -> f x = f y -> x = y.
Proof.
  intros A B f l x y; induction l as [ | z l IH ]; simpl; intros H Hx Hy E;
    [ destruct Hx | ].
  inversion H as [ | ? ? Hz Hl ]; subst.
  destruct Hx as [-> | Hx], Hy as [-> | Hy]; auto.
  - exfalso. apply Hz. rewrite E. now apply in_map.
  - exfalso. apply Hz. rewrite <- E. now apply in_map.
Qed.

Lemma frames_refl : forall messageId w, Spec.frames messageId w w.
Proof. intros; unfold Spec.frames; intuition lia. Qed.

Lemma frames_trans :
  forall messageId w1 w2 w3,
    Spec.frames messageId w1 w2 -> Spec.frames messageId w2 w3 ->
    Spec.frames messageId w1 w3.
Proof.
  unfold Spec.frames; intros messageId w1 w2 w3 H1 H2.
  intuition (try congruence; try lia).
Qed.

Lemma processMessage_frames :
  forall P messageId other w,
    other <> messageId ->
    Spec.frames messageId w (run (BirthdayService.processMessage P other) w).
Proof.
  intros P messageId other w Hne.
  pose proof (touching_processMessage P other w) as Ht. fold (run (BirthdayService.processMessage P other) w) in Ht.
  split; [ now apply (touches_rowOf messageId other) | ].
  destruct Ht as [Hg [Hu Hn]]. split; [ exact Hu | ]. split; [ exact Hn | ].
  apply (touches_ids other). split; [ exact Hg | ]. auto.
Qed.

(** The loop of a tick over rows of other messages. *)
Lemma forOf_others :
  forall P messageId (items : list (MessageLog.t * option User.t)) w,
    Spec.reliableDb P ->
    ~ In messageId (map (fun m => MessageLog.id (fst m)) items) ->
    exists w',
      forOf items (fun m => BirthdayService.processMessage P (MessageLog.id (fst m))) w
      = (Return tt, w')
      /\ Spec.frames messageId w w'.
Proof.
  intros P messageId items; induction items as [ | m items IH ]; intros w HP Hnot.
  - exists w. split; [ reflexivity | apply frames_refl ].
  - simpl in Hnot. cbn [forOf]. unfold bind.
    destruct (processMessage_returns P (MessageLog.id (fst m)) HP w) as [[] Hr].
    pose proof (processMessage_frames P messageId (MessageLog.id (fst m)) w) as Hf.
    unfold run in Hf.
    destruct (BirthdayService.processMessage P (MessageLog.id (fst m)) w) as [c w1].
    simpl in Hr, Hf; subst c.
    destruct (IH w1 HP) as [w' [E Hf']]; [ tauto | ].
    exists w'. split; [ exact E | ].
    eapply frames_trans; [ apply Hf; intros H; apply Hnot; now left | exact Hf' ].
Qed.

Lemma forOf_app :
  forall A (a b : list A) (body : A -> M unit) w,
    forOf (a ++ b) body w = (forOf a body ;; forOf b body) w.
Proof.
  intros A a b body; induction a as [ | x a IH ]; intros w; simpl.
  - reflexivity.
  - unfold bind. destruct (body x w) as [[[] | e] w1]; [ | reflexivity ].
    rewrite IH. reflexivity.
Qed.

Lemma lockFree_later :
  forall t t' r,
    t <= t' -> BirthdayService.lockFree t r = true -> BirthdayService.lockFree t' r = true.
Proof.
  intros t t' r Hle. unfold BirthdayService.lockFree.
  destruct (MessageLog.lockId r); [ | auto ].
  destruct (MessageLog.lockedUntil r); [ | auto ].
  rewrite !Z.leb_le. lia.
Qed.

Lemma dueItems_ids :
  forall (us : list User.t) l,
    map (fun m : MessageLog.t * option User.t => MessageLog.id (fst m))
      (map (fun r => (r, Prisma.userOf us r)) l)
    = map MessageLog.id l.
Proof. intros us l. rewrite map_map. reflexivity. Qed.

Lemma dueIds_NoDup :
  forall t l,
    NoDup (map MessageLog.id l) ->
    NoDup (map MessageLog.id
             (Prisma.orderByScheduledAt (filter (BirthdayService.isDue t) l))).
Proof.
  intros t l H.
  eapply Permutation_NoDup.
  - apply Permutation_map. symmetry. apply orderByScheduledAt_perm.
  - now apply NoDup_map_filter.
Qed.

Lemma dueIds_In :
  forall t l messageId r,
    NoDup (map MessageLog.id l) ->
    find (BirthdayService.hasId messageId) l = Some r ->
    (In messageId
       (map MessageLog.id
          (Prisma.orderByScheduledAt (filter (BirthdayService.isDue t) l)))
     <-> BirthdayService.isDue t r = true).
Proof.
  intros t l messageId r Hnd Hr.
  apply find_some in Hr as [Hin Hid]. unfold BirthdayService.hasId in Hid.
  apply String.eqb_eq in Hid. split.
  - intros H. apply in_map_iff in H as [x [Hx H]].
    apply orderByScheduledAt_In, filter_In in H as [Hxl Hdue].
    assert (x = r) as <- by (eapply NoDup_map_injective_on; eauto; congruence).
    exact Hdue.
  - intros Hdue. apply in_map_iff. exists r. split; [ exact Hid | ].
    apply orderByScheduledAt_In, filter_In. auto.
Qed.

(** The tick as a loop over the due rows. *)
Lemma processPendingMessages_unfold :
  forall P w,
    Spec.reliableDb P ->
    BirthdayService.processPendingMessages P w
    = tryCatch
        (forOf
           (map (fun r => (r, Prisma.userOf (users w) r))
              (Prisma.orderByScheduledAt
                 (filter (BirthdayService.isDue (now w)) (messageLogs w))))
           (fun m => BirthdayService.processMessage P (MessageLog.id (fst m))))
        (fun error => throw error)
        (setDbCalls (S (dbCalls w)) w).
Proof.
  intros P w HP. unfold BirthdayService.processPendingMessages, tryCatch.
  unfold bind at 1, newDate at 1.
  unfold bind at 1, Prisma.messageLog_findManyOrdered, Prisma.query.
  rewrite HP. reflexivity.
Qed.

(** A tick leaves a row that is not due as it is. *)
Lemma tick_rests :
  forall P messageId r w,
    Spec.reliableDb P -> Spec.uniqueIds w ->
    Spec.rowOf messageId w = Some r ->
    BirthdayService.isDue (now w) r = false ->
    exists w',
      BirthdayService.processPendingMessages P w = (Return tt, w')
      /\ Spec.frames messageId w w'.
Proof.
  intros P messageId r w HP Hnd Hr Hdue.
  rewrite processPendingMessages_unfold by exact HP. unfold tryCatch.
  match goal with
  | |- context [ forOf ?items ?body ?wq ] =>
      destruct (forOf_others P messageId items wq HP) as [w' [E Hf]]
  end.
  - rewrite dueItems_ids, (dueIds_In _ _ _ r Hnd Hr), Hdue. discriminate.
  - rewrite E. exists w'. split; [ reflexivity | exact Hf ].
Qed.

(** A tick works on a due row once: the loop reaches it in a world that
    still holds it as it was, processes it, and does not come back to it. *)
Lemma tick_visits_once :
  forall P messageId r w,
    Spec.reliableDb P -> Spec.uniqueIds w ->
    Spec.rowOf messageId w = Some r ->
    BirthdayService.isDue (now w) r = true ->
    exists w1 w2 w',
      Spec.frames messageId w w1
      /\ BirthdayService.processMessage P messageId w1 = (Return tt, w2)
      /\ Spec.frames messageId w2 w'
      /\ BirthdayService.processPendingMessages P w = (Return tt, w').
Proof.
  intros P messageId r w HP Hnd Hr Hdue.
  rewrite processPendingMessages_unfold by exact HP. unfold tryCatch.
  set (due := Prisma.orderByScheduledAt
                (filter (BirthdayService.isDue (now w)) (messageLogs w))).
  set (wq := setDbCalls (S (dbCalls w)) w).
  assert (In messageId (map MessageLog.id due)) as Hin
    by (apply (dueIds_In _ _ _ r Hnd Hr); exact Hdue).
  assert (NoDup (map MessageLog.id due)) as Hdd by (apply dueIds_NoDup; exact Hnd).
  apply in_map_iff in Hin as [x [Hx Hin]].
  apply in_split in Hin as [l1 [l2 Hsplit]].
  rewrite Hsplit in Hdd |- *. rewrite map_app in Hdd |- *. cbn [map] in Hdd |- *.
  apply NoDup_remove_2 in Hdd. rewrite Hx in Hdd.
  rewrite forOf_app. unfold bind at 1.
  destruct (forOf_others P messageId
              (map (fun r => (r, Prisma.userOf (users w) r)) l1) wq HP)
    as [w1 [E1 Hf1]].
  { rewrite dueItems_ids. intros H. apply Hdd. apply in_or_app. now left. }
  rewrite E1. cbn [forOf fst]. rewrite Hx. unfold bind at 1.
  destruct (processMessage_returns P messageId HP w1) as [[] Hret].
  destruct (BirthdayService.processMessage P messageId w1) as [c w2] eqn:E2.
  simpl in Hret; subst c. cbn [fst snd].
  destruct (forOf_others P messageId
              (map (fun r => (r, Prisma.userOf (users w) r)) l2) w2 HP)
    as [w3 [E3 Hf3]].
  { rewrite dueItems_ids. intros H. apply Hdd. apply in_or_app. now right. }
  rewrite E3. exists w1, w2, w3.
  split; [ | split; [ exact E2 | split; [ exact Hf3 | reflexivity ] ] ].
  eapply frames_trans; [ | exact Hf1 ].
  unfold wq, Spec.frames, Spec.rowOf; world_simpl. intuition lia.
Qed.

(** A tick on a due row whose delivery fails: the row is counted once. *)
Lemma tick_fails :
  forall P messageId r user w,
    Spec.reliableDb P -> (forall n, Spec.failed (remote P n) = true) ->
    Spec.uniqueIds w ->
    Spec.rowOf messageId w = Some r ->
    BirthdayService.isDue (now w) r = true ->
    Prisma.userOf (users w) r = Some user ->
    exists err w',
      BirthdayService.processPendingMessages P w = (Return tt, w')
      /\ Spec.rowOf messageId w'
         = Some (MessageLog.failureData
                   (if envInt (EMAIL_SERVICE_MAX_RETRIES (env P)) 3
                         <=? MessageLog.retryCount r + 1
                    then FAILED else RETRY)
                   (MessageLog.retryCount r + 1) err r)
      /\ users w' = users w
      /\ Spec.uniqueIds w'.
Proof.
  intros P messageId r user w HP Hall Hnd Hr Hdue Huser.
  destruct (tick_visits_once P messageId r w HP Hnd Hr Hdue)
    as [w1 [w2 [w' [[Hr1 [Hu1 [Hn1 Hi1]]] [E2 [[Hr3 [Hu3 [_ Hi3]]] E]]]]]].
  destruct (processMessage_delivers P messageId w1 r user HP)
    as [wl [res [ws [w2' [_ [_ [_ [_ [Hpost [E2' [_ [_ [_ Hr2]]]]]]]]]]]]].
  { rewrite Hr1. exact Hr. }
  { apply andb_true_iff in Hdue as [_ Hfree].
    apply (lockFree_later (now w)); [ exact Hn1 | exact Hfree ]. }
  { rewrite Hu1. exact Huser. }
  rewrite E2 in E2'. inversion E2'; subst w2'; clear E2'.
  assert (EmailService.success res = false) as Hres.
  { destruct Hpost as [_ [_ [_ [_ [_ Hfail]]]]]. apply Hfail. intros n _. apply Hall. }
  rewrite Hres in Hr2.
  pose proof (touching_processMessage P messageId w1) as Ht2.
  pose proof (touches_ids messageId w1 _ Ht2) as Hi2.
  destruct Ht2 as [_ [Hu2 _]].
  rewrite E2 in Hu2, Hi2. cbn [snd] in Hu2, Hi2.
  exists (Spec.errorText res), w'. split; [ exact E | ].
  split; [ rewrite Hr3; exact Hr2 | ].
  split; [ congruence | ].
  unfold Spec.uniqueIds in *. rewrite Hi3, Hi2, Hi1. exact Hnd.
Qed.

Lemma tick_setNow :
  forall messageId t w,
    Spec.rowOf messageId (setNow t w) = Spec.rowOf messageId w
    /\ users (setNow t w) = users w
    /\ (Spec.uniqueIds w -> Spec.uniqueIds (setNow t w)).
Proof. intros; unfold Spec.rowOf, Spec.uniqueIds; world_simpl; auto. Qed.

(** A failed delivery on a due row, from one tick to the next. *)
Lemma tick_fails_at :
  forall P messageId r user t w,
    Spec.reliableDb P -> (forall n, Spec.failed (remote P n) = true) ->
    Spec.uniqueIds w ->
    Spec.rowOf messageId w = Some r ->
    BirthdayService.isDue t r = true ->
    Prisma.userOf (users w) r = Some user ->
    exists err,
      Spec.rowOf messageId (Spec.tick P t w)
      = Some (MessageLog.failureData
                (if envInt (EMAIL_SERVICE_MAX_RETRIES (env P)) 3
                      <=? MessageLog.retryCount r + 1
                 then FAILED else RETRY)
                (MessageLog.retryCount r + 1) err r)
      /\ users (Spec.tick P t w) = users w
      /\ Spec.uniqueIds (Spec.tick P t w).
Proof.
  intros P messageId r user t w HP Hall Hnd Hr Hdue Huser.
  destruct (tick_setNow messageId t w) as [Hr' [Hu' Hnd']].
  destruct (tick_fails P messageId r user (setNow t w) HP Hall (Hnd' Hnd) Hr Hdue Huser)
    as [err [w' [E [Hrow [Hu Hn]]]]].
  unfold Spec.tick, run. exists err. rewrite E. cbn [snd].
  split; [ exact Hrow | split; [ exact Hu | exact Hn ] ].
Qed.

(** ** Processing a row whose user is gone *)

(** The row a call locks and then releases is the row without its lease. *)
Lemma unlock_after_lock :
  forall messageId lockId lockedUntil now_ x,
    let x1 :=
      if BirthdayService.hasId messageId x && BirthdayService.lockFree now_ x
      then MessageLog.lockData lockId lockedUntil x else x in
    (if BirthdayService.hasId messageId x1 && BirthdayService.holdsLock lockId x1
     then MessageLog.unlockData x1 else x1) = x
    \/ (MessageLog.id x = messageId
        /\ (if BirthdayService.hasId messageId x1 && BirthdayService.holdsLock lockId x1
            then MessageLog.unlockData x1 else x1) = MessageLog.unlockData x).
Proof.
  intros messageId lockId lockedUntil now_ x x1. unfold x1.
  destruct (BirthdayService.hasId messageId x) eqn:Hid; cbn [andb].
  - assert (MessageLog.id x = messageId) as Hx
      by (apply String.eqb_eq; exact Hid).
    destruct (BirthdayService.lockFree now_ x).
    + right. split; [ exact Hx | ].
      unfold BirthdayService.hasId, BirthdayService.holdsLock.
      cbn [MessageLog.lockData MessageLog.id MessageLog.lockId].
      unfold BirthdayService.hasId in Hid. rewrite Hid, String.eqb_refl.
      reflexivity.
    + rewrite Hid. cbn [andb].
      destruct (BirthdayService.holdsLock lockId x); [ right | left ]; auto.
  - rewrite Hid. left. reflexivity.
Qed.

(** Processing a row whose user is gone: the lease is taken, the re-read
    throws, and the [catch] block releases the lease. *)
Lemma processMessage_orphan :
  forall P messageId w r,
    Spec.reliableDb P ->
    Spec.rowOf messageId w = Some r ->
    BirthdayService.lockFree (now w) r = true ->
    Prisma.userOf (users w) r = None ->
    exists w',
      BirthdayService.processMessage P messageId w = (Return tt, w')
      /\ outbox w' = outbox w
      /\ emailService w' = emailService w
      /\ users w' = users w
      /\ Forall2
           (fun x y =>
              y = x \/ (MessageLog.id x = messageId /\ y = MessageLog.unlockData x))
           (messageLogs w) (messageLogs w')
      /\ Spec.rowOf messageId w' = Some (MessageLog.unlockData r).
Proof.
  intros P messageId w r HP Hrow Hfree Huser.
  pose proof (find_some _ _ Hrow) as [Hin Hid].
  rewrite processMessage_unfold.
  unfold tryCatch, BirthdayService.processLocked.
  unfold bind at 1, newDate at 1. world_simpl.
  unfold bind at 1, Prisma.messageLog_updateMany at 1, Prisma.query at 1.
  rewrite HP. world_simpl.
  rewrite (filter_count_nonzero _ _ r Hin)
    by (rewrite Hid, Hfree; reflexivity).
  unfold bind at 1, Prisma.messageLog_findUnique at 1, Prisma.query at 1.
  rewrite HP. world_simpl.
  change (fun r0 : MessageLog.t => (MessageLog.id r0 =? messageId)%string)
    with (BirthdayService.hasId messageId).
  rewrite find_hasId_map
    by (intros x; destruct (_ && _); reflexivity).
  unfold Spec.rowOf in Hrow. rewrite Hrow. cbn [option_map].
  rewrite Hid, Hfree. cbn [andb].
  change (Prisma.userOf (users w) (MessageLog.lockData _ _ r))
    with (Prisma.userOf (users w) r).
  rewrite Huser.
  unfold BirthdayService.releaseOwnLock, bind,
    Prisma.messageLog_updateMany, Prisma.query.
  world_simpl. rewrite HP.
  unfold ret. eexists. split; [ reflexivity | ]. world_simpl.
  split; [ reflexivity | split; [ reflexivity | split; [ reflexivity | ] ] ].
  split.
  - rewrite map_map. apply Forall2_map_right. intros x _.
    apply (unlock_after_lock messageId (uuid P (uuidCalls w))
             (now w + BirthdayService.lockDuration) (now w) x).
  - unfold Spec.rowOf. world_simpl.
    rewrite find_hasId_map by (intros x; destruct (_ && _); reflexivity).
    rewrite find_hasId_map by (intros x; destruct (_ && _); reflexivity).
    rewrite Hrow. cbn [option_map]. rewrite Hid, Hfree. cbn [andb].
    unfold BirthdayService.hasId in *.
    cbn [MessageLog.lockData MessageLog.id]. rewrite Hid.
    unfold BirthdayService.holdsLock. unfold MessageLog.lockData at 1.
    cbn [MessageLog.lockId]. rewrite String.eqb_refl. reflexivity.
Qed.



(** Whatever the remote does, a tick adds one to the retry count of a row,
    or nothing. *)
Lemma tick_counts_at_most_once :
  forall P messageId r t w,
    Spec.reliableDb P -> Spec.uniqueIds w ->
    Spec.rowOf messageId w = Some r ->
    exists r',
      Spec.rowOf messageId (Spec.tick P t w) = Some r'
      /\ (MessageLog.retryCount r' = MessageLog.retryCount r
          \/ MessageLog.retryCount r' = MessageLog.retryCount r + 1).
Proof.
  intros P messageId r t w HP Hnd Hr.
  destruct (tick_setNow messageId t w) as [_ [_ Hnd']].
  unfold Spec.tick, run.
  destruct (BirthdayService.isDue t r) eqn:Hdue.
  - destruct (tick_visits_once P messageId r (setNow t w) HP (Hnd' Hnd) Hr Hdue)
      as [w1 [w2 [w' [[Hr1 [Hu1 [Hn1 _]]] [E2 [[Hr3 _] E]]]]]].
    rewrite E. cbn [snd]. rewrite Hr3.
    assert (BirthdayService.lockFree (now w1) r = true) as Hfree.
    { apply andb_true_iff in Hdue as [_ Hfree].
      apply (lockFree_later t); [ exact Hn1 | exact Hfree ]. }
    assert (Spec.rowOf messageId w1 = Some r) as Hrow1 by (rewrite Hr1; exact Hr).
    destruct (Prisma.userOf (users w1) r) as [ user | ] eqn:Huser.
    + destruct (processMessage_delivers P messageId w1 r user HP Hrow1 Hfree Huser)
        as [wl [res [ws [w2' [_ [_ [_ [_ [_ [E2' [_ [_ [_ Hr2]]]]]]]]]]]]].
      rewrite E2 in E2'. inversion E2'; subst w2'; clear E2'.
      rewrite Hr2. eexists; split; [ reflexivity | ].
      destruct (EmailService.success res); simpl; auto.
    + destruct (processMessage_orphan P messageId w1 r HP Hrow1 Hfree Huser)
        as [w2' [E2' [_ [_ [_ [_ Hr2]]]]]].
      rewrite E2 in E2'. inversion E2'; subst w2'; clear E2'.
      rewrite Hr2. eexists; split; [ reflexivity | ]. simpl. auto.
  - destruct (tick_rests P messageId r (setNow t w) HP (Hnd' Hnd) Hr Hdue)
      as [w' [E [Hr' _]]].
    rewrite E. cbn [snd]. rewrite Hr'. exists r. split; [ exact Hr | auto ].
Qed.

(** C2, as the code has it. Delivery fails on every attempt and the maximum
    is 3. A pending row with no retries that is due at the first tick reads
    RETRY with [retryCount] 1 after the first tick, RETRY with 2 after the
    second, FAILED with 3 after the third, and FAILED with 3 after the fourth,
    which does not select it any more. Each tick adds one to the counter, or
    nothing. *)
Theorem retry_exhaustion_across_ticks :
  forall P messageId r user w t1 t2 t3 t4,
    Spec.reliableDb P ->
    (forall n, Spec.failed (remote P n) = true) ->
    envInt (EMAIL_SERVICE_MAX_RETRIES (env P)) 3 = 3 ->
    Spec.uniqueIds w ->
    Spec.rowOf messageId w = Some r ->
    Prisma.userOf (users w) r = Some user ->
    MessageLog.status r = PENDING ->
    MessageLog.retryCount r = 0 ->
    BirthdayService.isDue t1 r = true ->
    MessageLog.scheduledAt r <= t2 ->
    MessageLog.scheduledAt r <= t3 ->
    let w1 := Spec.tick P t1 w in
    let w2 := Spec.tick P t2 w1 in
    let w3 := Spec.tick P t3 w2 in
    let w4 := Spec.tick P t4 w3 in
    Spec.progress messageId w1 = Some (RETRY, 1)
    /\ Spec.progress messageId w2 = Some (RETRY, 2)
    /\ Spec.progress messageId w3 = Some (FAILED, 3)
    /\ Spec.progress messageId w4 = Some (FAILED, 3)
    /\ (forall t v other x,
          Spec.uniqueIds v -> Spec.rowOf other v = Some x ->
          exists x',
            Spec.rowOf other (Spec.tick P t v) = Some x'
            /\ (MessageLog.retryCount x' = MessageLog.retryCount x
                \/ MessageLog.retryCount x' = MessageLog.retryCount x + 1)).
Proof.
  intros P messageId r user w t1 t2 t3 t4 HP Hall Hmax Hnd Hr Hu Hst Hrc Hdue H2 H3.
  cbv zeta.
  destruct (tick_fails_at P messageId r user t1 w HP Hall Hnd Hr Hdue Hu)
    as [e1 [Hr1 [Hu1 Hnd1]]].
  rewrite Hmax, Hrc in Hr1. cbn [Z.add Z.leb Z.compare Pos.add Pos.compare Pos.compare_cont] in Hr1.
  set (w1 := Spec.tick P t1 w) in *.
  set (r1 := MessageLog.failureData RETRY 1 e1 r) in *.
  destruct (tick_fails_at P messageId r1 user t2 w1 HP Hall Hnd1 Hr1)
    as [e2 [Hr2 [Hu2 Hnd2]]].
  { unfold BirthdayService.isDue, r1; simpl. apply Z.leb_le in H2. now rewrite H2. }
  { rewrite Hu1. exact Hu. }
  rewrite Hmax in Hr2. unfold r1 in Hr2 at 1 2. cbn [MessageLog.retryCount MessageLog.failureData Z.add Z.leb Z.compare Pos.add Pos.compare Pos.compare_cont] in Hr2.
  set (w2 := Spec.tick P t2 w1) in *.
  set (r2 := MessageLog.failureData RETRY 2 e2 r1) in *.
  destruct (tick_fails_at P messageId r2 user t3 w2 HP Hall Hnd2 Hr2)
    as [e3 [Hr3 [Hu3 Hnd3]]].
  { unfold BirthdayService.isDue, r2, r1; simpl. apply Z.leb_le in H3. now rewrite H3. }
  { rewrite Hu2, Hu1. exact Hu. }
  rewrite Hmax in Hr3. unfold r2 in Hr3 at 1 2. cbn [MessageLog.retryCount MessageLog.failureData Z.add Z.leb Z.compare Pos.add Pos.compare Pos.compare_cont] in Hr3.
  set (w3 := Spec.tick P t3 w2) in *.
  set (r3 := MessageLog.failureData FAILED 3 e3 r2) in *.
  destruct (tick_setNow messageId t4 w3) as [Hr4' [_ Hnd4']].
  destruct (tick_rests P messageId r3 (setNow t4 w3) HP (Hnd4' Hnd3) Hr3 eq_refl)
    as [w4 [E4 [Hr4 _]]].
  unfold Spec.progress.
  rewrite Hr1, Hr2, Hr3. unfold Spec.tick at 1, run. rewrite E4. cbn [snd].
  rewrite Hr4, Hr4', Hr3.
  repeat (split; [ reflexivity | ]).
  intros t v other x Hv Hx. now apply tick_counts_at_most_once.
Qed.

Lemma retry_exhaustion_across_ticks_witness :
  let tick := Spec.tick Scenario.always500 (Scenario.utc 2026 5 15 13 5) in
  Spec.progress "msg-1" (tick Scenario.pendingWorld) = Some (RETRY, 1)
  /\ Spec.progress "msg-1" (tick (tick Scenario.pendingWorld)) = Some (RETRY, 2)
  /\ Spec.progress "msg-1" (tick (tick (tick Scenario.pendingWorld))) = Some (FAILED, 3)
  /\ Spec.progress "msg-1" (tick (tick (tick (tick Scenario.pendingWorld))))
     = Some (FAILED, 3).
Proof.
  destruct (retry_exhaustion_across_ticks Scenario.always500 "msg-1"
              (Scenario.row "msg-1" "user-1" PENDING None None None) Scenario.john
              Scenario.pendingWorld (Scenario.utc 2026 5 15 13 5)
              (Scenario.utc 2026 5 15 13 5) (Scenario.utc 2026 5 15 13 5)
              (Scenario.utc 2026 5 15 13 5))
    as [H1 [H2 [H3 [H4 _]]]].
  - intros n; reflexivity.
  - intros n; reflexivity.
  - reflexivity.
  - unfold Spec.uniqueIds; simpl. constructor; [ simpl; tauto | constructor ].
  - reflexivity.
  - reflexivity.
  - reflexivity.
  - reflexivity.
  - reflexivity.
  - vm_compute; discriminate.
  - vm_compute; discriminate.
  - exact (conj H1 (conj H2 (conj H3 H4))).
Defined.

(** C2, as stated, fails at the third tick: the row is FAILED then, not
    RETRY with three retries. *)
Lemma retry_exhaustion_third_tick_fails :
  let tick := Spec.tick Scenario.always500 (Scenario.utc 2026 5 15 13 5) in
  Spec.progress "msg-1" (tick (tick (tick Scenario.pendingWorld))) <> Some (RETRY, 3).
Proof. vm_compute. discriminate. Qed.

(** ** Creation of the greetings *)

(** What [ensureBirthdayMessage] does to the world: nothing but the
    counters, or it appends the greeting row of the user, which it does when
    the database answers, the date has no greeting yet, the send-at instant is
    a date and the identifier drawn is new. *)
Lemma ensureBirthdayMessage_cases :
  forall P user w,
    exists w',
      BirthdayService.ensureBirthdayMessage P user w = (Return tt, w')
      /\ users w' = users w /\ now w' = now w /\ outbox w' = outbox w
      /\ emailService w' = emailService w
      /\ (uuidCalls w <= uuidCalls w')%nat
      /\ (messageLogs w' = messageLogs w
          \/ exists at_,
               BirthdayService.getScheduledTime P (User.timezone user)
                 (Spec.todayOf P user (now w)) = Some at_
               /\ ~ Spec.hasGreeting user (Spec.todayOf P user (now w)) (messageLogs w)
               /\ uuidCalls w' = S (uuidCalls w)
               /\ messageLogs w'
                  = (messageLogs w ++ [Spec.greetingRow P user w at_])%list).
Proof.
  intros P user w.
  unfold BirthdayService.ensureBirthdayMessage, tryCatch.
  fold (Spec.todayOf P user (now w)).
  unfold bind at 1, Prisma.messageLog_findUniqueKey, Prisma.query at 1.
  destruct (dbFault P (dbCalls w)).
  { eexists; split; [ reflexivity | ]. world_simpl. intuition. }
  world_simpl.
  destruct (find (MessageLog.hasKey (User.id user) BIRTHDAY (Spec.todayOf P user (now w)))
              (messageLogs w)) as [ existing | ] eqn:Efind.
  { eexists; split; [ reflexivity | ]. world_simpl. intuition. }
  destruct (BirthdayService.getScheduledTime P (User.timezone user)
              (Spec.todayOf P user (now w))) as [ at_ | ] eqn:Eat.
  2: { eexists; split; [ reflexivity | ]. world_simpl. intuition. }
  unfold bind at 1, Prisma.messageLog_create, Prisma.query. world_simpl.
  destruct (dbFault P (S (dbCalls w))).
  { eexists; split; [ reflexivity | ]. world_simpl. intuition. }
  destruct (existsb (fun r => (MessageLog.id r =? uuid P (uuidCalls w))%string)
              (messageLogs w)).
  { eexists; split; [ reflexivity | ]. world_simpl. intuition. }
  destruct (existsb (MessageLog.hasKey (User.id user) BIRTHDAY
                       (Spec.todayOf P user (now w))) (messageLogs w)) eqn:Ekey.
  { eexists; split; [ reflexivity | ]. world_simpl. intuition. }
  destruct (negb (existsb (fun x => (User.id x =? User.id user)%string) (users w))).
  { eexists; split; [ reflexivity | ]. world_simpl. intuition. }
  eexists; split; [ reflexivity | ]. world_simpl.
  repeat (split; [ first [ reflexivity | lia ] | ]).
  right. exists at_. split; [ reflexivity | ].
  split; [ unfold Spec.hasGreeting; rewrite Ekey; discriminate | ].
  split; reflexivity.
Qed.

(** ** The text of a delivery *)

Lemma ensureBirthdayMessage_message :
  forall P creator w0 r0,
    In r0 (messageLogs (run (BirthdayService.ensureBirthdayMessage P creator) w0)) ->
    ~ In r0 (messageLogs w0) ->
    MessageLog.message r0
    = EmailService.birthdayText (User.firstName creator ++ " " ++ User.lastName creator).
Proof.
  intros P creator w0 r0 Hin Hnew. unfold run in Hin.
  destruct (ensureBirthdayMessage_cases P creator w0)
    as [w' [E [_ [_ [_ [_ [_ [Hsame | [at_ [_ [_ [_ Happ]]]]]]]]]]]];
    rewrite E in Hin; cbn [snd] in Hin.
  - rewrite Hsame in Hin. contradiction.
  - rewrite Happ in Hin. apply in_app_or in Hin as [Hin | [<- | []]];
      [ contradiction | reflexivity ].
Qed.

(** C3, as the code has it. A row that [ensureBirthdayMessage] wrote holds
    the greeting rendered from the user's name at that time. When the row is
    processed, every request made for it carries the greeting rendered from
    the first and last name that the user has at processing time, and at least
    one request is made unless the breaker is open; the stored text of the row
    is not read. The two texts are equal when the first and last name have not
    changed. *)
Theorem delivered_text_is_rendered_at_processing :
  forall P creator w0 r0 messageId w r user,
    In r0 (messageLogs (run (BirthdayService.ensureBirthdayMessage P creator) w0)) ->
    ~ In r0 (messageLogs w0) ->
    Spec.reliableDb P ->
    Spec.rowOf messageId w = Some r ->
    MessageLog.message r = MessageLog.message r0 ->
    BirthdayService.lockFree (now w) r = true ->
    Prisma.userOf (users w) r = Some user ->
    exists k,
      outbox (run (BirthdayService.processMessage P messageId) w)
      = (outbox w
           ++ repeat
                (Axios.mkPayload (User.email user)
                   (EmailService.birthdayText
                      (User.firstName user ++ " " ++ User.lastName user))) k)%list
      /\ (~ Spec.breakerOpen w -> k <> O)
      /\ (User.firstName user = User.firstName creator ->
          User.lastName user = User.lastName creator ->
          EmailService.birthdayText (User.firstName user ++ " " ++ User.lastName user)
          = MessageLog.message r).
Proof.
  intros P creator w0 r0 messageId w r user Hin Hnew HP Hr Hmsg Hfree Huser.
  destruct (processMessage_delivers P messageId w r user HP Hr Hfree Huser)
    as [wl [res [ws [w' [Hn [Ho [Hs [_ [Hpost [E [Ho' _]]]]]]]]]]].
  destruct Hpost as [_ [[k [Hk [_ Hk1]]] _]].
  exists k. unfold run. rewrite E. cbn [snd]. rewrite Ho', Hk, Ho.
  split; [ reflexivity | ]. split.
  - intros Hclosed. apply Hk1. intros [u [Hu Hlt]]. apply Hclosed.
    exists u. rewrite <- Hs, <- Hn. auto.
  - intros Hf Hl. rewrite Hmsg, (ensureBirthdayMessage_message P creator w0 r0 Hin Hnew).
    now rewrite Hf, Hl.
Qed.

Lemma delivered_text_is_rendered_at_processing_witness :
  exists k,
    outbox (run (BirthdayService.processMessage Scenario.always200 "uuid-")
              (setNow (Scenario.utc 2026 5 15 13 5)
                 (run (BirthdayService.ensureBirthdayMessage Scenario.always200
                         Scenario.john) Scenario.birthdayMorning)))
    = repeat (Axios.mkPayload "john@example.com" "Hey, John Doe it's your birthday") k
    /\ k <> O.
Proof.
  destruct (delivered_text_is_rendered_at_processing Scenario.always200 Scenario.john
              Scenario.birthdayMorning
              (Spec.greetingRow Scenario.always200 Scenario.john
                 Scenario.birthdayMorning (Scenario.utc 2026 5 15 13 0))
              "uuid-"
              (setNow (Scenario.utc 2026 5 15 13 5)
                 (run (BirthdayService.ensureBirthdayMessage Scenario.always200
                         Scenario.john) Scenario.birthdayMorning))
              (Spec.greetingRow Scenario.always200 Scenario.john
                 Scenario.birthdayMorning (Scenario.utc 2026 5 15 13 0))
              Scenario.john)
    as [k [Hk [Hk1 _]]].
  - vm_compute. left. reflexivity.
  - simpl. tauto.
  - intros n; reflexivity.
  - reflexivity.
  - reflexivity.
  - reflexivity.
  - reflexivity.
  - exists k. split; [ exact Hk | ].
    apply Hk1. intros [u [Hu _]]. vm_compute in Hu. discriminate.
Defined.

(** C3, as stated, fails. John's greeting is created under his name. He
    changes his first name before 13:05Z, when the processor runs: the text
    sent is rendered from the new name and differs from the stored text. *)
Lemma delivered_text_differs_after_rename :
  option_map MessageLog.message (Spec.rowOf "uuid-" Scenario.renamedBeforeDelivery)
  = Some "Hey, John Doe it's your birthday"
  /\ outbox (run (BirthdayService.processPendingMessages Scenario.always200)
               Scenario.renamedBeforeDelivery)
     = [Axios.mkPayload "john@example.com" "Hey, Johnny Doe it's your birthday"]
  /\ "Hey, Johnny Doe it's your birthday" <> "Hey, John Doe it's your birthday".
Proof.
  split; [ reflexivity | ]. split; [ reflexivity | ]. discriminate.
Qed.

(** ** Idempotence of the materialiser *)

Lemma isBirthdayToday_eq :
  forall P user w,
    BirthdayService.isBirthdayToday P (User.birthday user) (User.timezone user) w
    = (Return (Spec.birthdayToday P user (now w)), w).
Proof.
  intros P user w. unfold BirthdayService.isBirthdayToday, Spec.birthdayToday.
  destruct (Moment.parseYMD (User.birthday user)); reflexivity.
Qed.

Lemma sameDate_birthdayToday :
  forall P user t t',
    Moment.civilDate (BirthdayService.zoneOf P (User.timezone user)) t
    = Moment.civilDate (BirthdayService.zoneOf P (User.timezone user)) t' ->
    Spec.birthdayToday P user t = Spec.birthdayToday P user t'
    /\ Spec.todayOf P user t = Spec.todayOf P user t'.
Proof.
  intros P user t t' H. unfold Spec.birthdayToday, Spec.todayOf, Moment.format.
  fold (Moment.civilDate (BirthdayService.zoneOf P (User.timezone user)) t).
  fold (Moment.civilDate (BirthdayService.zoneOf P (User.timezone user)) t').
  rewrite H. auto.
Qed.

Lemma existsb_find_some :
  forall (A : Type) (c : A -> bool) l,
    existsb c l = true -> exists x, find c l = Some x.
Proof.
  intros A c l; induction l as [ | y l IH ]; simpl; [ discriminate | ].
  destruct (c y); [ eauto | exact IH ].
Qed.

Lemma find_none_existsb :
  forall (A : Type) (c : A -> bool) l, find c l = None -> existsb c l = false.
Proof.
  intros A c l; induction l as [ | y l IH ]; simpl; [ reflexivity | ].
  destruct (c y); [ discriminate | exact IH ].
Qed.

(** A user who is served stays served when rows are added. *)
Lemma served_more :
  forall P user t l extra,
    Spec.served P user t l -> Spec.served P user t (l ++ extra).
Proof.
  intros P user t l extra [H | H]; [ left | right; exact H ].
  unfold Spec.hasGreeting in *. rewrite existsb_app, H. reflexivity.
Qed.

(** Nothing is created for a user who is served. *)
Lemma ensureBirthdayMessage_idle :
  forall P user w,
    Spec.reliableDb P ->
    Spec.served P user (now w) (messageLogs w) ->
    exists w',
      BirthdayService.ensureBirthdayMessage P user w = (Return tt, w')
      /\ messageLogs w' = messageLogs w /\ users w' = users w /\ now w' = now w.
Proof.
  intros P user w HP Hserved.
  unfold BirthdayService.ensureBirthdayMessage, tryCatch.
  fold (Spec.todayOf P user (now w)).
  unfold bind at 1, Prisma.messageLog_findUniqueKey, Prisma.query at 1.
  rewrite HP. world_simpl.
  destruct (find (MessageLog.hasKey (User.id user) BIRTHDAY (Spec.todayOf P user (now w)))
              (messageLogs w)) as [ existing | ] eqn:Efind.
  { eexists; split; [ reflexivity | ]. world_simpl. auto. }
  destruct Hserved as [H | H].
  - apply existsb_find_some in H as [x Hx]. rewrite Hx in Efind. discriminate.
  - rewrite H. eexists; split; [ reflexivity | ]. world_simpl. auto.
Qed.

(** With a database that answers and new identifiers, a user is served
    once [ensureBirthdayMessage] has run. *)
Lemma ensureBirthdayMessage_serves :
  forall P user w,
    Spec.reliableDb P -> Spec.freshIdentifiers P w -> In user (users w) ->
    exists w' extra,
      BirthdayService.ensureBirthdayMessage P user w = (Return tt, w')
      /\ messageLogs w' = (messageLogs w ++ extra)%list
      /\ users w' = users w /\ now w' = now w
      /\ Spec.freshIdentifiers P w'
      /\ Spec.served P user (now w) (messageLogs w').
Proof.
  intros P user w HP [Hinj Hfresh] Huser.
  unfold BirthdayService.ensureBirthdayMessage, tryCatch.
  fold (Spec.todayOf P user (now w)).
  unfold bind at 1, Prisma.messageLog_findUniqueKey, Prisma.query at 1.
  rewrite HP. world_simpl.
  destruct (find (MessageLog.hasKey (User.id user) BIRTHDAY (Spec.todayOf P user (now w)))
              (messageLogs w)) as [ existing | ] eqn:Efind.
  { eexists; exists []; split; [ reflexivity | ]. world_simpl.
    rewrite app_nil_r. repeat (split; [ reflexivity | ]).
    split; [ split; assumption | ].
    left. unfold Spec.hasGreeting. apply existsb_exists. exists existing.
    apply find_some in Efind. exact Efind. }
  destruct (BirthdayService.getScheduledTime P (User.timezone user)
              (Spec.todayOf P user (now w))) as [ at_ | ] eqn:Eat.
  2: { eexists; exists []; split; [ reflexivity | ]. world_simpl.
       rewrite app_nil_r. repeat (split; [ reflexivity | ]).
       split; [ split; assumption | ]. right. exact Eat. }
  unfold bind at 1, Prisma.messageLog_create, Prisma.query. world_simpl.
  rewrite HP.
  assert (existsb (fun r => (MessageLog.id r =? uuid P (uuidCalls w))%string)
            (messageLogs w) = false) as ->.
  { destruct (existsb _ _) eqn:E; [ | reflexivity ].
    apply existsb_exists in E as [x [Hx E]]. apply String.eqb_eq in E.
    exfalso. apply (Hfresh (uuidCalls w) (Nat.le_refl _)).
    rewrite <- E. now apply in_map. }
  rewrite (find_none_existsb _ _ _ Efind).
  assert (existsb (fun x => (User.id x =? User.id user)%string) (users w) = true) as ->.
  { apply existsb_exists. exists user. split; [ exact Huser | apply String.eqb_refl ]. }
  cbn [negb]. eexists; eexists; split; [ reflexivity | ]. world_simpl.
  repeat (split; [ reflexivity | ]). split; [ split; [ exact Hinj | ] | ].
  - intros n Hn Hin. world_simpl.
    rewrite map_app in Hin. apply in_app_or in Hin as [Hin | Hin].
    + apply (Hfresh n); [ lia | exact Hin ].
    + cbn in Hin. destruct Hin as [Hin | []]. apply Hinj in Hin. lia.
  - left. unfold Spec.hasGreeting. rewrite existsb_app. apply orb_true_iff. right.
    cbn. unfold MessageLog.hasKey; cbn. rewrite !String.eqb_refl. reflexivity.
Qed.

Lemma greetIfBirthday_eq :
  forall P user w,
    Spec.greetIfBirthday P user w
    = if Spec.birthdayToday P user (now w)
      then BirthdayService.ensureBirthdayMessage P user w
      else (Return tt, w).
Proof.
  intros P user w. unfold Spec.greetIfBirthday, bind.
  rewrite isBirthdayToday_eq. now destruct (Spec.birthdayToday P user (now w)).
Qed.

(** The loop of the materialiser, with a database that answers and new
    identifiers: every user of the list whose birthday it is ends up served. *)
Lemma greetLoop_serves :
  forall P us w,
    Spec.reliableDb P -> Spec.freshIdentifiers P w ->
    (forall u, In u us -> In u (users w)) ->
    exists w' extra,
      forOf us (Spec.greetIfBirthday P) w = (Return tt, w')
      /\ messageLogs w' = (messageLogs w ++ extra)%list
      /\ users w' = users w /\ now w' = now w
      /\ Spec.freshIdentifiers P w'
      /\ (forall u, In u us -> Spec.birthdayToday P u (now w) = true ->
            Spec.served P u (now w) (messageLogs w')).
Proof.
  intros P us; induction us as [ | user us IH ]; intros w HP Hfresh Hin.
  - exists w, []. rewrite app_nil_r. cbn. intuition.
  - cbn [forOf]. unfold bind. rewrite greetIfBirthday_eq.
    destruct (Spec.birthdayToday P user (now w)) eqn:Hb.
    + destruct (ensureBirthdayMessage_serves P user w HP Hfresh)
        as [w1 [extra1 [E1 [Hl1 [Hu1 [Hn1 [Hf1 Hs1]]]]]]];
        [ apply Hin; now left | ].
      rewrite E1.
      destruct (IH w1 HP Hf1) as [w' [extra [E [Hl [Hu [Hn [Hf Hs]]]]]]].
      { intros u Hu. rewrite Hu1. apply Hin. now right. }
      exists w', (extra1 ++ extra)%list. split; [ exact E | ].
      split; [ rewrite Hl, Hl1, app_assoc; reflexivity | ].
      split; [ congruence | ]. split; [ congruence | ]. split; [ exact Hf | ].
      intros u [<- | Hu'] Hbu.
      * rewrite Hl. now apply served_more.
      * rewrite <- Hn1. apply Hs; [ exact Hu' | now rewrite Hn1 ].
    + destruct (IH w HP Hfresh) as [w' [extra [E [Hl [Hu [Hn [Hf Hs]]]]]]].
      { intros u Hu. apply Hin. now right. }
      exists w', extra. split; [ exact E | ]. repeat (split; [ assumption | ]).
      intros u [<- | Hu'] Hbu; [ congruence | now apply Hs ].
Qed.

(** The loop of the materialiser when every user whose birthday it is has
    been served: no row is written. *)
Lemma greetLoop_idle :
  forall P us w,
    Spec.reliableDb P ->
    (forall u, In u us -> Spec.birthdayToday P u (now w) = true ->
       Spec.served P u (now w) (messageLogs w)) ->
    exists w',
      forOf us (Spec.greetIfBirthday P) w = (Return tt, w')
      /\ messageLogs w' = messageLogs w /\ users w' = users w /\ now w' = now w.
Proof.
  intros P us; induction us as [ | user us IH ]; intros w HP Hs.
  - exists w. cbn. auto.
  - cbn [forOf]. unfold bind. rewrite greetIfBirthday_eq.
    destruct (Spec.birthdayToday P user (now w)) eqn:Hb.
    + destruct (ensureBirthdayMessage_idle P user w HP)
        as [w1 [E1 [Hl1 [Hu1 Hn1]]]]; [ apply Hs; [ now left | exact Hb ] | ].
      rewrite E1. destruct (IH w1 HP) as [w' [E [Hl [Hu Hn]]]].
      { intros u Hu Hbu. rewrite Hl1, Hn1. rewrite Hn1 in Hbu.
        apply Hs; [ now right | exact Hbu ]. }
      exists w'. split; [ exact E | ]. repeat split; congruence.
    + destruct (IH w HP) as [w' [E H]].
      { intros u Hu Hbu. apply Hs; [ now right | exact Hbu ]. }
      exists w'. split; [ exact E | exact H ].
Qed.

Lemma createBirthdayMessages_unfold :
  forall P w,
    Spec.reliableDb P ->
    BirthdayService.createBirthdayMessages P w
    = tryCatch (forOf (filter User.isActive (users w)) (Spec.greetIfBirthday P))
        (fun error => throw error) (setDbCalls (S (dbCalls w)) w).
Proof.
  intros P w HP. unfold BirthdayService.createBirthdayMessages, tryCatch.
  unfold bind at 1, Prisma.user_findMany, Prisma.query. rewrite HP. reflexivity.
Qed.

Lemma materialise_serves :
  forall P t w,
    Spec.reliableDb P -> Spec.freshIdentifiers P w ->
    users (Spec.materialise P t w) = users w
    /\ (forall u, In u (users w) -> User.isActive u = true ->
          Spec.birthdayToday P u t = true ->
          Spec.served P u t (messageLogs (Spec.materialise P t w))).
Proof.
  intros P t w HP Hfresh. unfold Spec.materialise, run.
  rewrite createBirthdayMessages_unfold by exact HP. unfold tryCatch. world_simpl.
  destruct (greetLoop_serves P (filter User.isActive (users w))
              (setDbCalls (S (dbCalls w)) (setNow t w)) HP)
    as [w' [extra [E [Hl [Hu [Hn [Hf Hs]]]]]]].
  - exact Hfresh.
  - intros u Hu. apply filter_In in Hu. world_simpl. tauto.
  - rewrite E. cbn [snd]. world_simpl. split; [ exact Hu | ].
    intros u Hin Hact Hb. apply Hs; [ apply filter_In; auto | exact Hb ].
Qed.

Lemma materialise_idle :
  forall P t w,
    Spec.reliableDb P ->
    (forall u, In u (users w) -> User.isActive u = true ->
       Spec.birthdayToday P u t = true -> Spec.served P u t (messageLogs w)) ->
    messageLogs (Spec.materialise P t w) = messageLogs w
    /\ users (Spec.materialise P t w) = users w.
Proof.
  intros P t w HP Hs. unfold Spec.materialise, run.
  rewrite createBirthdayMessages_unfold by exact HP. unfold tryCatch. world_simpl.
  destruct (greetLoop_idle P (filter User.isActive (users w))
              (setDbCalls (S (dbCalls w)) (setNow t w)) HP)
    as [w' [E [Hl [Hu Hn]]]].
  - intros u Hu Hb. apply filter_In in Hu as [Hu Hact]. world_simpl. now apply Hs.
  - rewrite E. cbn [snd]. world_simpl. auto.
Qed.

Lemma materialiseAt_idle :
  forall P times w,
    Spec.reliableDb P ->
    (forall t u, In t times -> In u (users w) -> User.isActive u = true ->
       Spec.birthdayToday P u t = true -> Spec.served P u t (messageLogs w)) ->
    messageLogs (Spec.materialiseAt P times w) = messageLogs w.
Proof.
  intros P times; induction times as [ | t times IH ]; intros w HP Hs; cbn;
    [ reflexivity | ].
  destruct (materialise_idle P t w HP) as [Hl Hu].
  { intros u Hu Hact Hb. apply (Hs t); auto. now left. }
  rewrite IH; [ exact Hl | exact HP | ].
  intros t' u Ht' Hin Hact Hb. rewrite Hl. rewrite Hu in Hin.
  apply (Hs t'); auto. now right.
Qed.

Lemma hasKey_keyOf :
  forall u ty d r,
    MessageLog.hasKey u ty d r = true <-> Spec.keyOf r = (u, ty, d).
Proof.
  intros u ty d r. unfold MessageLog.hasKey, Spec.keyOf.
  rewrite !andb_true_iff, !String.eqb_eq. split.
  - intros [[-> Hty] ->]. f_equal. f_equal.
    destruct (MessageLog.messageType r), ty; (reflexivity || discriminate).
  - intros H. inversion H; subst. repeat split.
    now destruct (MessageLog.messageType r).
Qed.

Lemma hasGreeting_In :
  forall user d l,
    Spec.hasGreeting user d l <-> In (User.id user, BIRTHDAY, d) (map Spec.keyOf l).
Proof.
  intros user d l. unfold Spec.hasGreeting. rewrite existsb_exists, in_map_iff.
  split; intros [x [H1 H2]]; exists x.
  - apply hasKey_keyOf in H2. auto.
  - split; [ exact H2 | now apply hasKey_keyOf ].
Qed.

Lemma ensureBirthdayMessage_uniqueKeys :
  forall P user w,
    Spec.uniqueKeys (messageLogs w) ->
    Spec.uniqueKeys (messageLogs (run (BirthdayService.ensureBirthdayMessage P user) w)).
Proof.
  intros P user w Hk. unfold run.
  destruct (ensureBirthdayMessage_cases P user w)
    as [w' [E [_ [_ [_ [_ [_ [Hsame | [at_ [_ [Hnew [_ Happ]]]]]]]]]]]];
    rewrite E; cbn [snd].
  - now rewrite Hsame.
  - rewrite Happ. unfold Spec.uniqueKeys in *. rewrite map_app. cbn [map].
    eapply Permutation_NoDup; [ apply Permutation_cons_append | ].
    constructor; [ | exact Hk ].
    intros Hin. apply Hnew. apply hasGreeting_In. exact Hin.
Qed.

Lemma greetLoop_uniqueKeys :
  forall P us w,
    Spec.uniqueKeys (messageLogs w) ->
    exists w',
      forOf us (Spec.greetIfBirthday P) w = (Return tt, w')
      /\ Spec.uniqueKeys (messageLogs w').
Proof.
  intros P us; induction us as [ | user us IH ]; intros w Hk.
  - exists w. cbn. auto.
  - cbn [forOf]. unfold bind. rewrite greetIfBirthday_eq.
    destruct (Spec.birthdayToday P user (now w)); [ | now apply IH ].
    pose proof (ensureBirthdayMessage_uniqueKeys P user w Hk) as Hk1.
    unfold run in Hk1.
    destruct (ensureBirthdayMessage_cases P user w) as [w1 [E1 _]].
    rewrite E1 in Hk1 |- *. cbn [snd] in Hk1. now apply IH.
Qed.

(** The unique index survives a run of the materialiser, whatever the
    database does. *)
Lemma materialise_uniqueKeys :
  forall P t w,
    Spec.uniqueKeys (messageLogs w) ->
    Spec.uniqueKeys (messageLogs (Spec.materialise P t w)).
Proof.
  intros P t w Hk. unfold Spec.materialise, run,
    BirthdayService.createBirthdayMessages, tryCatch.
  unfold bind at 1, Prisma.user_findMany, Prisma.query. world_simpl.
  destruct (dbFault P (dbCalls w)); [ exact Hk | ].
  change (fun user : User.t =>
            today <- BirthdayService.isBirthdayToday P (User.birthday user)
                       (User.timezone user);;
            (if (today : bool) then BirthdayService.ensureBirthdayMessage P user
             else ret tt))
    with (Spec.greetIfBirthday P).
  match goal with
  | |- context [ forOf ?us _ ?wq ] =>
      destruct (greetLoop_uniqueKeys P us wq) as [w' [E Hk']]; [ exact Hk | ]
  end.
  rewrite E. exact Hk'.
Qed.

(** C4. With a database that answers and random identifiers that are new,
    runs of the materialiser at instants of the same civil day, for the same
    users, leave the table as the first run left it: no row is added and none
    is changed. A run keeps the unique index on (userId, messageType,
    scheduledDate), so that at most one row exists for a tuple. *)
Theorem materialiser_idempotent :
  forall P w t times,
    Spec.reliableDb P ->
    Spec.freshIdentifiers P w ->
    Spec.uniqueKeys (messageLogs w) ->
    (forall t', In t' times -> Spec.sameCivilDay P w t t') ->
    messageLogs (Spec.materialiseAt P times (Spec.materialise P t w))
    = messageLogs (Spec.materialise P t w)
    /\ Spec.uniqueKeys (messageLogs (Spec.materialise P t w))
    /\ Spec.uniqueKeys
         (messageLogs (Spec.materialiseAt P times (Spec.materialise P t w))).
Proof.
  intros P w t times HP Hfresh Hk Hday.
  destruct (materialise_serves P t w HP Hfresh) as [Hu Hs].
  assert (messageLogs (Spec.materialiseAt P times (Spec.materialise P t w))
          = messageLogs (Spec.materialise P t w)) as Hsame.
  { apply materialiseAt_idle; [ exact HP | ].
    intros t' u Ht' Hin Hact Hb. rewrite Hu in Hin.
    destruct (sameDate_birthdayToday P u t t' (Hday t' Ht' u Hin Hact)) as [Hb' Htoday].
    unfold Spec.served. rewrite <- Htoday. apply Hs; auto. now rewrite Hb'. }
  split; [ exact Hsame | ].
  pose proof (materialise_uniqueKeys P t w Hk) as Hk1.
  split; [ exact Hk1 | now rewrite Hsame ].
Qed.

Lemma tally_length : forall n, String.length (Scenario.tally n) = n.
Proof. induction n; simpl; congruence. Qed.

Lemma ids_injective : forall m n, Scenario.ids m = Scenario.ids n -> m = n.
Proof.
  intros m n H. unfold Scenario.ids in H. cbn in H. inversion H as [H'].
  rewrite <- (tally_length m), <- (tally_length n). now rewrite H'.
Qed.

Lemma materialiser_idempotent_witness :
  let w1 := Spec.materialise Scenario.always200 (Scenario.utc 2026 5 15 6 0)
              Scenario.birthdayMorning in
  messageLogs
    (Spec.materialiseAt Scenario.always200
       [Scenario.utc 2026 5 15 6 5; Scenario.utc 2026 5 15 13 0;
        Scenario.utc 2026 5 16 3 55] w1)
  = messageLogs w1
  /\ List.length (messageLogs w1) = 1%nat.
Proof.
  split; [ | reflexivity ].
  apply (materialiser_idempotent Scenario.always200 Scenario.birthdayMorning
           (Scenario.utc 2026 5 15 6 0)
           [Scenario.utc 2026 5 15 6 5; Scenario.utc 2026 5 15 13 0;
            Scenario.utc 2026 5 16 3 55]).
  - intros n; reflexivity.
  - split; [ exact ids_injective | intros n _ H; exact H ].
  - constructor.
  - intros t' Ht' user Hu _. destruct Hu as [<- | []].
    destruct Ht' as [<- | [<- | [<- | []]]]; vm_compute; reflexivity.
Defined.

(** ** The send-at instant *)

Lemma updateOffset_instant :
  forall m,
    Moment.valueOf (Moment.updateOffset m false) = Moment.valueOf m
    /\ Moment._z (Moment.updateOffset m false) = Moment._z m
    /\ Moment._offset (Moment.updateOffset m false)
       = - Moment.utcOffset (Moment._z m) (Moment.valueOf m)
    /\ Moment._d (Moment.updateOffset m false)
       = Moment.valueOf m
         - Moment.utcOffset (Moment._z m) (Moment.valueOf m) * Moment.msPerMinute.
Proof.
  intros m. unfold Moment.updateOffset, Moment.shiftOffset.
  destruct (Moment._offset m =? - Moment.utcOffset (Moment._z m) (Moment.valueOf m))
    eqn:E.
  - apply Z.eqb_eq in E. unfold Moment.valueOf in *. repeat split; try tauto; lia.
  - unfold Moment.valueOf; cbn. repeat split; lia.
Qed.

Lemma wholeMinutes_mod_minute : forall q, (q * 60000) mod 60000 = 0.
Proof. intros q. apply Z.mod_mul. lia. Qed.

Lemma wholeMinutes_mod_second : forall q, (q * 60000) mod 1000 = 0.
Proof.
  intros q. replace (q * 60000) with (q * 60 * 1000) by lia. apply Z.mod_mul. lia.
Qed.

Lemma wholeMinutes_mod_hour : forall q h, (q * 86400000 + h * 3600000) mod 3600000 = 0.
Proof.
  intros q h. replace (q * 86400000 + h * 3600000) with ((q * 24 + h) * 3600000) by lia.
  apply Z.mod_mul. lia.
Qed.

(** Setting seconds or milliseconds to zero on a moment that reads whole
    minutes keeps the moment. *)
Lemma second_zero_instant :
  forall m q,
    Moment.valueOf m = q * 60000 ->
    Moment._offset m = - Moment.utcOffset (Moment._z m) (Moment.valueOf m) ->
    Moment.second m 0 = m.
Proof.
  intros [d o z] q Hv Ho. unfold Moment.second, Moment.valueOf in *.
  cbn [Moment._d Moment._offset Moment._z] in *.
  assert (d = (q + o) * 60000) as Hd by (unfold Moment.msPerMinute in Hv; lia).
  unfold Moment.msPerMinute in *.
  replace (d - d mod 60000 + 0 * 1000 + d mod 1000) with d
    by (rewrite Hd, wholeMinutes_mod_minute, wholeMinutes_mod_second; lia).
  unfold Moment.updateOffset, Moment.shiftOffset, Moment.valueOf, Moment.msPerMinute.
  cbn [Moment._d Moment._offset Moment._z].
  rewrite <- Ho, Z.eqb_refl. reflexivity.
Qed.

Lemma millisecond_zero_instant :
  forall m q,
    Moment.valueOf m = q * 60000 ->
    Moment._offset m = - Moment.utcOffset (Moment._z m) (Moment.valueOf m) ->
    Moment.millisecond m 0 = m.
Proof.
  intros [d o z] q Hv Ho. unfold Moment.millisecond, Moment.valueOf in *.
  cbn [Moment._d Moment._offset Moment._z] in *.
  assert (d = (q + o) * 60000) as Hd by (unfold Moment.msPerMinute in Hv; lia).
  unfold Moment.msPerMinute in *.
  replace (d - d mod 1000 + 0) with d
    by (rewrite Hd, wholeMinutes_mod_second; lia).
  unfold Moment.updateOffset, Moment.shiftOffset, Moment.valueOf, Moment.msPerMinute.
  cbn [Moment._d Moment._offset Moment._z].
  rewrite <- Ho, Z.eqb_refl. reflexivity.
Qed.

(** C7, as the code has it. Let the date begin, in the zone, on that date.
    The send-at instant is the configured hour and minute on that date, read
    with the offset that the zone has at the instant where the configured
    hour, with the minutes at which the date begins, read with the offset of
    the start of the date, falls. When the zone has that same offset at the
    instant obtained, the wall clock of the zone reads the configured hour and
    minute of the date there. When the zone has had that offset from the
    start of the date up to the instant obtained, no earlier instant of the
    date reads the configured hour and minute: of the two instants of a wall
    time that a fall-back repeats, the send-at instant is the earlier. *)
Theorem scheduledTime_is_wall_time_at_looked_up_offset :
  forall P timezone targetDate c,
    let z := BirthdayService.zoneOf P timezone in
    let hour := envInt (BIRTHDAY_MESSAGE_HOUR (env P)) 9 in
    let minute := envInt (BIRTHDAY_MESSAGE_MINUTE (env P)) 0 in
    let wall :=
      Spec.midnightOf c + hour * Moment.msPerHour + minute * Moment.msPerMinute in
    let start := Spec.startOfDay z c in
    let o1 := Moment.utcOffset z start in
    let o2 :=
      Moment.utcOffset z
        (Spec.midnightOf c + hour * Moment.msPerHour
         + Spec.wallClock z start mod Moment.msPerHour + o1 * Moment.msPerMinute) in
    let scheduledAt := wall + o2 * Moment.msPerMinute in
    Moment.parseYMD targetDate = Some c ->
    Spec.beginsOn z c ->
    BirthdayService.getScheduledTime P timezone targetDate = Some scheduledAt
    /\ (Moment.utcOffset z scheduledAt = o2 -> Spec.wallClock z scheduledAt = wall)
    /\ (start <= scheduledAt ->
        (forall t, start <= t <= scheduledAt -> Moment.utcOffset z t = o2) ->
        Spec.wallClock z scheduledAt = wall
        /\ forall t, start <= t -> Spec.wallClock z t = wall -> scheduledAt <= t).
Proof.
  intros P timezone targetDate c z hour minute wall start o1 o2 scheduledAt
    Hparse Hbegins.
  assert (forall t, Spec.wallClock z t = t - Moment.utcOffset z t * Moment.msPerMinute)
    as Hwall.
  { intros t. unfold Spec.wallClock, Moment.tzNow.
    destruct (updateOffset_instant (Moment.mkMoment t 0 z)) as [_ [_ [_ Hd]]].
    rewrite Hd. unfold Moment.valueOf. cbn [Moment._d Moment._offset Moment._z].
    rewrite Z.mul_0_l, Z.sub_0_r. reflexivity. }
  split; [ | split ].
  - unfold BirthdayService.getScheduledTime, Moment.tzDate.
    fold z. rewrite Hparse. fold hour minute. f_equal.
    fold (Spec.midnightOf c). fold (Spec.startOfDay z c). fold start.
    set (days := Moment.daysFromCivil c).
    assert (Spec.midnightOf c = days * 86400000) as HW by reflexivity.
    (* the start of the day: its wall clock reads [first] *)
    unfold Spec.beginsOn in Hbegins. fold start in Hbegins.
    set (first := Spec.wallClock z start) in *.
    assert (first = (days * 1440 + Moment.parse z (Spec.midnightOf c) - o1) * 60000)
      as Hfirst.
    { unfold first. rewrite Hwall. fold o1. unfold start, Spec.startOfDay.
      rewrite HW. unfold Moment.msPerMinute. lia. }
    set (m0 := Moment.updateOffset _ false).
    destruct (updateOffset_instant (Moment.mkMoment start 0 z))
      as [_ [Hz0 [Ho0 Hd0]]].
    fold m0 in Hz0, Ho0, Hd0.
    unfold Moment.valueOf in Ho0, Hd0.
    cbn [Moment._d Moment._offset Moment._z] in Hz0, Ho0, Hd0.
    rewrite Z.mul_0_l, Z.sub_0_r in Ho0, Hd0. fold o1 in Ho0, Hd0.
    assert (Moment._d m0 = first) as Hd0'
      by (rewrite Hd0; unfold first; rewrite Hwall; reflexivity).
    (* the hour *)
    assert (Moment.hour m0 hour
            = Moment.mkMoment
                (Spec.midnightOf c + hour * Moment.msPerHour
                 + first mod Moment.msPerHour) (- o2) z)
      as Hm1.
    { unfold Moment.hour. rewrite Hd0', Ho0, Hz0.
      replace (first / Moment.msPerDay * Moment.msPerDay)
        with (Spec.midnightOf c).
      2: { unfold Moment.msPerDay in *. rewrite HW in *.
           replace (first / 86400000) with days; [ reflexivity | ].
           apply (Z.div_unique _ _ _ (first - days * 86400000)); lia. }
      unfold Moment.updateOffset, Moment.valueOf.
      cbn [Moment._d Moment._offset Moment._z].
      replace (Spec.midnightOf c + hour * Moment.msPerHour
               + first mod Moment.msPerHour - - o1 * Moment.msPerMinute)
        with (Spec.midnightOf c + hour * Moment.msPerHour
              + first mod Moment.msPerHour + o1 * Moment.msPerMinute)
        by lia.
      reflexivity. }
    rewrite Hm1.
    (* the minute *)
    set (m2 := Moment.updateOffset (Moment.mkMoment wall (- o2) z) false).
    assert (Moment.minute
              (Moment.mkMoment
                 (Spec.midnightOf c + hour * Moment.msPerHour
                  + first mod Moment.msPerHour) (- o2) z)
              minute = m2) as Hm2.
    { unfold Moment.minute, m2. cbn [Moment._d Moment._offset Moment._z].
      set (t1 := Spec.midnightOf c + hour * Moment.msPerHour
                 + first mod Moment.msPerHour).
      replace (t1 - t1 mod Moment.msPerHour + minute * Moment.msPerMinute
               + t1 mod Moment.msPerMinute)
        with wall; [ reflexivity | ].
      unfold t1, wall, Moment.msPerHour, Moment.msPerMinute in *. rewrite HW.
      clear - Hfirst.
      Z.to_euclidean_division_equations. lia. }
    rewrite Hm2.
    destruct (updateOffset_instant (Moment.mkMoment wall (- o2) z))
      as [Hv2 [Hz2 [Ho2 _]]].
    fold m2 in Hv2, Hz2, Ho2.
    cbn [Moment._z] in Hz2, Ho2. rewrite <- Hv2, <- Hz2 in Ho2.
    assert (Moment.valueOf m2
            = (days * 1440 + hour * 60 + minute + o2) * 60000) as Hq.
    { rewrite Hv2. unfold Moment.valueOf, wall. cbn [Moment._d Moment._offset].
      rewrite HW. unfold Moment.msPerHour, Moment.msPerMinute. lia. }
    rewrite (second_zero_instant m2 _ Hq Ho2).
    rewrite (millisecond_zero_instant m2 _ Hq Ho2).
    unfold Moment.toDate. rewrite Hv2. unfold Moment.valueOf, scheduledAt.
    cbn [Moment._d Moment._offset]. lia.
  - intros Hsame. rewrite Hwall, Hsame. unfold scheduledAt. lia.
  - intros Hle Hsteady. split.
    + rewrite Hwall, (Hsteady scheduledAt) by lia. unfold scheduledAt. lia.
    + intros t Ht Hr.
      destruct (Z.le_gt_cases scheduledAt t) as [ | Hlt ]; [ assumption | exfalso ].
      rewrite Hwall, (Hsteady t) in Hr by lia. unfold scheduledAt in Hlt. lia.
Qed.

(** New York keeps daylight time from 8 March to 1 November 2026. *)
Lemma NewYork_summer_2026 :
  forall t,
    Scenario.utc 2026 3 8 7 0 <= t < Scenario.utc 2026 11 1 6 0 ->
    Moment.utcOffset Scenario.NewYork t = 240.
Proof.
  intros t Ht. unfold Moment.utcOffset, Scenario.NewYork.
  cbn [Moment.untils Moment.offsets Moment.offsetAt].
  destruct (Z.ltb_spec t (Scenario.utc 2026 3 8 7 0)); [ lia | ].
  destruct (Z.ltb_spec t (Scenario.utc 2026 11 1 6 0)); [ reflexivity | lia ].
Qed.

(** 09:00 in New York on 14 March 2027, after the clocks went forward, is
    13:00Z. 01:30 in New York on 1 November 2026 is read twice, at 05:30Z and
    at 06:30Z: the send-at instant is 05:30Z, the first of the date. In Havana
    8 March 2026 begins at 01:00, and 09:00 is 13:00Z. *)
Lemma scheduledTime_is_wall_time_at_looked_up_offset_witness :
  BirthdayService.getScheduledTime Scenario.always200 "America/New_York" "2027-03-14"
  = Some (Scenario.utc 2027 3 14 13 0)
  /\ Spec.wallClock Scenario.NewYork (Scenario.utc 2027 3 14 13 0)
     = Scenario.utc 2027 3 14 9 0
  /\ BirthdayService.getScheduledTime (Scenario.sendingAt 1 30) "America/New_York"
       "2026-11-01"
     = Some (Scenario.utc 2026 11 1 5 30)
  /\ Spec.wallClock Scenario.NewYork (Scenario.utc 2026 11 1 5 30)
     = Scenario.utc 2026 11 1 1 30
  /\ Spec.wallClock Scenario.NewYork (Scenario.utc 2026 11 1 6 30)
     = Scenario.utc 2026 11 1 1 30
  /\ (forall t,
        Spec.startOfDay Scenario.NewYork (Moment.mkCivil 2026 11 1) <= t ->
        Spec.wallClock Scenario.NewYork t = Scenario.utc 2026 11 1 1 30 ->
        Scenario.utc 2026 11 1 5 30 <= t)
  /\ Spec.wallClock Scenario.Havana
       (Spec.startOfDay Scenario.Havana (Moment.mkCivil 2026 3 8))
     = Scenario.utc 2026 3 8 1 0
  /\ BirthdayService.getScheduledTime Scenario.always200 "America/Havana" "2026-03-08"
     = Some (Scenario.utc 2026 3 8 13 0)
  /\ Spec.wallClock Scenario.Havana (Scenario.utc 2026 3 8 13 0)
     = Scenario.utc 2026 3 8 9 0.
Proof.
  destruct (scheduledTime_is_wall_time_at_looked_up_offset Scenario.always200
              "America/New_York" "2027-03-14" (Moment.mkCivil 2027 3 14) eq_refl)
    as [H1 [H2 _]].
  { split; [ apply Z.leb_le | apply Z.ltb_lt ]; reflexivity. }
  destruct (scheduledTime_is_wall_time_at_looked_up_offset (Scenario.sendingAt 1 30)
              "America/New_York" "2026-11-01" (Moment.mkCivil 2026 11 1) eq_refl)
    as [H3 [_ H4]].
  { split; [ apply Z.leb_le | apply Z.ltb_lt ]; reflexivity. }
  destruct H4 as [H4 H5].
  { apply Z.leb_le. reflexivity. }
  { intros t Ht. apply NewYork_summer_2026.
    match type of Ht with
    | ?a <= _ <= ?b =>
        let a' := eval vm_compute in a in
        let b' := eval vm_compute in b in
        change (a' <= t <= b') in Ht
    end.
    match goal with
    | |- ?a <= _ < ?b =>
        let a' := eval vm_compute in a in
        let b' := eval vm_compute in b in
        change (a' <= t < b')
    end.
    lia. }
  destruct (scheduledTime_is_wall_time_at_looked_up_offset Scenario.always200
              "America/Havana" "2026-03-08" (Moment.mkCivil 2026 3 8) eq_refl)
    as [H6 [H7 _]].
  { split; [ apply Z.leb_le | apply Z.ltb_lt ]; reflexivity. }
  split; [ exact H1 | ]. split; [ exact (H2 eq_refl) | ].
  split; [ exact H3 | ]. split; [ exact H4 | ]. split; [ reflexivity | ].
  split; [ exact H5 | ]. split; [ reflexivity | ].
  split; [ exact H6 | exact (H7 eq_refl) ].
Defined.

(** C7, as stated, fails in the gap. In New York on 14 March 2027 the wall
    clock goes from 01:59:59.999 to 03:00 at 07:00Z. With the send time set
    to 02:30, which is skipped, the send-at instant is not 07:00Z, the first
    instant after the gap: the setter of the minute leaves the send-at
    instant at thirty minutes past an hour. *)
Lemma scheduledTime_in_gap_is_not_moved_forward :
  Spec.wallClock Scenario.NewYork (Scenario.utc 2027 3 14 7 0 - 1)
  = Scenario.utc 2027 3 14 2 0 - 1
  /\ Spec.wallClock Scenario.NewYork (Scenario.utc 2027 3 14 7 0)
     = Scenario.utc 2027 3 14 3 0
  /\ BirthdayService.getScheduledTime (Scenario.sendingAt 2 30) "America/New_York"
       "2027-03-14"
     <> Some (Scenario.utc 2027 3 14 7 0).
Proof.
  split; [ reflexivity | ]. split; [ reflexivity | ]. vm_compute. discriminate.
Qed.

(** With the setters as modelled, those of moment-timezone up to 0.6.3, the
    send-at instant for 02:30 on that day is 06:30Z, which New York reads as
    01:30 EST, an hour before the gap. *)
Lemma scheduledTime_in_gap_with_single_lookup :
  BirthdayService.getScheduledTime (Scenario.sendingAt 2 30) "America/New_York"
    "2027-03-14"
  = Some (Scenario.utc 2027 3 14 6 30)
  /\ Spec.wallClock Scenario.NewYork (Scenario.utc 2027 3 14 6 30)
     = Scenario.utc 2027 3 14 1 30.
Proof. split; reflexivity. Qed.

(** ** The recursion of [sendEmail] *)

Lemma bind_ext_at :
  forall A B (m : M A) (k1 k2 : A -> M B) w,
    (forall a w', m w = (Return a, w') -> k1 a w' = k2 a w') ->
    bind m k1 w = bind m k2 w.
Proof.
  intros A B m k1 k2 w H. unfold bind.
  destruct (m w) as [[a | e] w']; [ now apply H | reflexivity ].
Qed.

(** The budget that [sendEmail] starts from is enough: a larger one gives
    the same call. The recursion of the model is the recursion of the source. *)
Lemma sendEmailFrom_budget_enough :
  forall P email message b1 b2 retryCount w,
    (Z.to_nat (maxRetries (emailService w) - retryCount) <= b1)%nat ->
    (Z.to_nat (maxRetries (emailService w) - retryCount) <= b2)%nat ->
    EmailService.sendEmailFrom P b1 email message retryCount w
    = EmailService.sendEmailFrom P b2 email message retryCount w.
Proof.
  intros P email message b1; induction b1 as [ | b1 IH ];
    intros b2 retryCount w H1 H2;
    rewrite (sendEmailFrom_unfold P _ email message retryCount);
    rewrite (sendEmailFrom_unfold P b2 email message retryCount);
    (apply bind_ext_at; intros open w1 Hopen;
     assert (maxRetries (emailService w1) = maxRetries (emailService w)) as Hmax
       by (destruct (isCircuitBreakerOpen_cases w)
             as [[_ E] | [_ [w1' [E [[_ [_ [_ [_ [_ [_ [Hm _]]]]]]] _]]]]];
           rewrite E in Hopen; inversion Hopen; subst; auto);
     destruct open; [ reflexivity | ];
     apply bind_ext_at; intros outcome w2 Hpost;
     assert (maxRetries (emailService w2) = maxRetries (emailService w)) as Hmax2
       by (unfold EmailService.axios_post in Hpost; inversion Hpost; subst;
           world_simpl; exact Hmax);
     destruct outcome as [ response | axiosError ];
     [ destruct ((200 <=? Axios.status response) && (Axios.status response <? 300));
       [ reflexivity | ]
     | ];
     cbv beta zeta; rewrite Hmax2;
     destruct (retryCount <? maxRetries (emailService w)) eqn:Elt;
     cbn [andb]; try reflexivity;
     match goal with
     | |- context [ EmailService.isRetryableError ?e ] =>
         destruct (EmailService.isRetryableError e); try reflexivity
     end;
     apply Z.ltb_lt in Elt;
     (destruct b2 as [ | b2 ]; [ exfalso; lia | ]);
     try (exfalso; lia);
     unfold bind, delay; apply IH; world_simpl; rewrite Hmax2; lia).
Qed.

Lemma sendEmail_is_sendEmailFrom :
  forall P email message budget retryCount w,
    (Z.to_nat (maxRetries (emailService w) - retryCount) <= budget)%nat ->
    EmailService.sendEmailFrom P budget email message retryCount w
    = EmailService.sendEmail P email message retryCount w.
Proof.
  intros P email message budget retryCount w H. unfold EmailService.sendEmail.
  apply sendEmailFrom_budget_enough; [ exact H | apply Nat.le_refl ].
Qed.

(** ** Rows that are sent *)

(** A tick that runs on its own selects no SENT row and leaves it as it is. *)
Lemma tick_leaves_sent_rows :
  forall P messageId r t w,
    Spec.reliableDb P -> Spec.uniqueIds w ->
    Spec.rowOf messageId w = Some r ->
    MessageLog.status r = SENT ->
    Spec.rowOf messageId (Spec.tick P t w) = Some r.
Proof.
  intros P messageId r t w HP Hnd Hr Hs.
  destruct (tick_setNow messageId t w) as [_ [_ Hnd']].
  destruct (tick_rests P messageId r (setNow t w) HP (Hnd' Hnd) Hr)
    as [w' [E [Hr' _]]].
  - unfold BirthdayService.isDue, BirthdayService.pendingOrRetry. now rewrite Hs.
  - unfold Spec.tick, run. rewrite E. cbn [snd]. rewrite Hr'. exact Hr.
Qed.

(** A row that a delivery marks as sent holds the time of the delivery. *)
Lemma sentData_sentAt :
  forall at_ r,
    MessageLog.status (MessageLog.sentData at_ r) = SENT
    /\ MessageLog.sentAt (MessageLog.sentData at_ r) = Some at_.
Proof. intros; split; reflexivity. Qed.

(** * Further properties *)

(** ** The attempts of a delivery *)

Lemma halfOpened_closed :
  forall w,
    ~ Spec.breakerOpen w ->
    EmailService.isCircuitBreakerOpen w = (Return false, Spec.halfOpened w)
    /\ Spec.sendFrame w (Spec.halfOpened w)
    /\ now (Spec.halfOpened w) = now w
    /\ outbox (Spec.halfOpened w) = outbox w
    /\ metrics (emailService (Spec.halfOpened w)) = metrics (emailService w)
    /\ circuitBreakerOpenUntil (emailService (Spec.halfOpened w)) = None.
Proof.
  intros w Hclosed. unfold Spec.halfOpened.
  destruct (isCircuitBreakerOpen_cases w) as [[Hopen _] | [_ [w1 [E H]]]];
    [ contradiction | ].
  rewrite E. cbn [snd]. split; [ reflexivity | exact H ].
Qed.

(** One call of [sendEmailFrom], by what the breaker and the remote do. *)
Lemma sendEmailFrom_step :
  forall P budget email message retryCount w,
    (Spec.breakerOpen w
     /\ EmailService.sendEmailFrom P budget email message retryCount w
        = (Return Spec.blockedResult,
           run (EmailService.updateMetrics false (Some EmailService.breakerOpenError)) w))
    \/ (~ Spec.breakerOpen w
        /\ Spec.failed (remote P (List.length (outbox w))) = false
        /\ EmailService.sendEmailFrom P budget email message retryCount w
           = (Return (EmailService.mkResult true None),
              run (EmailService.updateMetrics true None)
                (Spec.requested email message (Spec.halfOpened w))))
    \/ (~ Spec.breakerOpen w
        /\ Spec.failed (remote P (List.length (outbox w))) = true
        /\ ((retryCount <? maxRetries (emailService w))
            && Spec.retryableFailure (remote P (List.length (outbox w)))
            && negb (Nat.eqb budget 0)) = false
        /\ EmailService.sendEmailFrom P budget email message retryCount w
           = (Return (EmailService.mkResult false
                        (Some (Spec.finalFailure (timeout (emailService w))
                                 (remote P (List.length (outbox w)))))),
              run (EmailService.updateMetrics false
                     (Some (Spec.finalFailure (timeout (emailService w))
                              (remote P (List.length (outbox w))))))
                (Spec.requested email message (Spec.halfOpened w))))
    \/ (~ Spec.breakerOpen w
        /\ Spec.failed (remote P (List.length (outbox w))) = true
        /\ retryCount < maxRetries (emailService w)
        /\ Spec.retryableFailure (remote P (List.length (outbox w))) = true
        /\ exists budget',
             budget = S budget'
             /\ EmailService.sendEmailFrom P budget email message retryCount w
                = EmailService.sendEmailFrom P budget' email message (retryCount + 1)
                    (Spec.waited email message retryCount w)).
Proof.
  intros P budget email message retryCount w.
  set (X := EmailService.sendEmailFrom P budget email message retryCount w).
  assert (X = EmailService.sendEmailFrom P budget email message retryCount w) as HX
    by reflexivity.
  clearbody X. rewrite sendEmailFrom_unfold in HX. unfold bind at 1 in HX.
  destruct (isCircuitBreakerOpen_cases w) as [[Hopen E] | [Hclosed _]].
  { left. split; [ exact Hopen | ]. rewrite E in HX. unfold bind, ret in HX.
    unfold run.
    destruct (updateMetrics_failure EmailService.breakerOpenError w) as [w' [E' _]].
    rewrite E' in HX |- *. exact HX. }
  right.
  destruct (halfOpened_closed w Hclosed)
    as [E [[_ [_ [_ [_ [_ [Ht [Hmax _]]]]]]] [_ [Ho _]]]].
  rewrite E in HX. unfold bind at 1, EmailService.axios_post in HX. rewrite Ho in HX.
  assert (setOutbox (outbox w ++ [Axios.mkPayload email message]) (Spec.halfOpened w)
          = Spec.requested email message (Spec.halfOpened w)) as Ereq
    by (unfold Spec.requested; now rewrite Ho).
  rewrite Ereq in HX.
  assert (maxRetries (emailService (Spec.requested email message (Spec.halfOpened w)))
          = maxRetries (emailService w)) as Hmax' by exact Hmax.
  assert (timeout (emailService (Spec.requested email message (Spec.halfOpened w)))
          = timeout (emailService w)) as Ht' by exact Ht.
  assert (forall err,
             (EmailService.updateMetrics false (Some err) ;;
              ret (EmailService.mkResult false (Some err)))
               (Spec.requested email message (Spec.halfOpened w))
             = (Return (EmailService.mkResult false (Some err)),
                run (EmailService.updateMetrics false (Some err))
                  (Spec.requested email message (Spec.halfOpened w)))) as Hgive.
  { intros err. unfold bind, ret, run.
    destruct (updateMetrics_failure err
                (Spec.requested email message (Spec.halfOpened w))) as [w' [E' _]].
    rewrite E'. reflexivity. }
  destruct (remote P (List.length (outbox w))) as [ response | axiosError ] eqn:Er.
  - unfold Spec.failed, Spec.retryableFailure, Spec.finalFailure.
    destruct ((200 <=? Axios.status response) && (Axios.status response <? 300)) eqn:E2.
    + left. split; [ exact Hclosed | ]. split; [ reflexivity | ].
      unfold bind, ret in HX. unfold run.
      destruct (updateMetrics_success (Spec.requested email message (Spec.halfOpened w)))
        as [w' [E' _]].
      rewrite E' in HX |- *. exact HX.
    + right. cbv zeta beta in HX. rewrite Hmax' in HX. cbn [negb andb].
      change (EmailService.isRetryableError _)
        with ((500 <=? Axios.status response) || (Axios.status response =? 408)
              || (Axios.status response =? 429)) in HX.
      destruct ((retryCount <? maxRetries (emailService w))
                && ((500 <=? Axios.status response) || (Axios.status response =? 408)
                    || (Axios.status response =? 429))) eqn:Ec.
      * destruct budget as [ | budget' ].
        -- left. split; [ exact Hclosed | ]. split; [ reflexivity | ].
           split; [ now rewrite andb_false_r | ].
           rewrite Hgive in HX. exact HX.
        -- right. apply andb_true_iff in Ec as [Hlt Hr]. apply Z.ltb_lt in Hlt.
           split; [ exact Hclosed | ]. split; [ reflexivity | ].
           split; [ exact Hlt | ]. split; [ exact Hr | ].
           exists budget'. split; [ reflexivity | ].
           unfold bind at 1, delay in HX. exact HX.
      * left. split; [ exact Hclosed | ]. split; [ reflexivity | ].
        split; [ reflexivity | ].
        rewrite Hgive in HX. exact HX.
  - right. unfold Spec.failed, Spec.retryableFailure, Spec.finalFailure.
    cbv beta in HX. rewrite Hmax', Ht' in HX.
    destruct ((retryCount <? maxRetries (emailService w))
              && EmailService.isRetryableError axiosError) eqn:Ec.
    + destruct budget as [ | budget' ].
      * left. split; [ exact Hclosed | ]. split; [ reflexivity | ].
        split; [ now rewrite andb_false_r | ].
        cbv zeta in HX. rewrite Hgive in HX. exact HX.
      * right. apply andb_true_iff in Ec as [Hlt Hr]. apply Z.ltb_lt in Hlt.
        split; [ exact Hclosed | ]. split; [ reflexivity | ].
        split; [ exact Hlt | ]. split; [ exact Hr | ].
        exists budget'. split; [ reflexivity | ].
        unfold bind at 1, delay in HX. exact HX.
    + left. split; [ exact Hclosed | ]. split; [ reflexivity | ].
      split; [ reflexivity | ].
      cbv zeta in HX. rewrite Hgive in HX. exact HX.
Qed.

Lemma updateMetrics_run :
  forall ok err w,
    let w' := run (EmailService.updateMetrics ok err) w in
    now w' = now w /\ outbox w' = outbox w
    /\ totalAttempts (metrics (emailService w'))
       = totalAttempts (metrics (emailService w)) + 1
    /\ successCount (metrics (emailService w'))
       = successCount (metrics (emailService w)) + (if ok then 1 else 0).
Proof.
  intros ok err w. unfold run, EmailService.updateMetrics.
  destruct ok; cbn [snd]; world_simpl.
  - cbn. repeat split; lia.
  - unfold bind, EmailService.openCircuitBreaker. world_simpl.
    assert (totalAttempts (EmailService.countFailure err (metrics (emailService w)))
            = totalAttempts (metrics (emailService w)) + 1
            /\ successCount (EmailService.countFailure err (metrics (emailService w)))
               = successCount (metrics (emailService w))) as [Ht Hs].
    { destruct err as [ e | ]; cbn; [ destruct (truthy e) | ]; cbn; auto. }
    destruct (_ <=? _); cbn [snd]; world_simpl; rewrite Ht, Hs; repeat split; lia.
Qed.

Lemma waited_facts :
  forall email message retryCount w,
    ~ Spec.breakerOpen w ->
    ~ Spec.breakerOpen (Spec.waited email message retryCount w)
    /\ outbox (Spec.waited email message retryCount w)
       = (outbox w ++ [Axios.mkPayload email message])%list
    /\ now (Spec.waited email message retryCount w)
       = now w
         + timerDelay (EmailService.backoff (retryDelay (emailService w)) retryCount)
    /\ metrics (emailService (Spec.waited email message retryCount w))
       = metrics (emailService w)
    /\ Spec.sameSettings (emailService w)
         (emailService (Spec.waited email message retryCount w)).
Proof.
  intros email message retryCount w Hclosed.
  destruct (halfOpened_closed w Hclosed) as [_ [[_ [_ [_ [_ [_ Hs]]]]] [Hn [Ho [Hm Hu]]]]].
  unfold Spec.waited, Spec.requested. cbv zeta. world_simpl.
  pose proof Hs as [_ [_ [Hrd _]]].
  rewrite Hn, Ho, Hrd. repeat split; try assumption; try apply Hs.
  intros [u [Hopen _]]. world_simpl. rewrite Hu in Hopen. discriminate.
Qed.

(** What every call of [sendEmailFrom] does, counted. *)
Lemma sendEmailFrom_counts :
  forall P email message budget retryCount w,
    exists res w' k,
      EmailService.sendEmailFrom P budget email message retryCount w = (Return res, w')
      /\ outbox w' = (outbox w ++ repeat (Axios.mkPayload email message) k)%list
      /\ (k <= S (Z.to_nat (maxRetries (emailService w) - retryCount)))%nat
      /\ totalAttempts (metrics (emailService w'))
         = totalAttempts (metrics (emailService w)) + 1
      /\ successCount (metrics (emailService w'))
         = successCount (metrics (emailService w))
           + (if EmailService.success res then 1 else 0).
Proof.
  intros P email message budget; induction budget as [ | budget IH ];
    intros retryCount w;
    match goal with
    | |- context [ EmailService.sendEmailFrom P ?b email message retryCount w ] =>
        destruct (sendEmailFrom_step P b email message retryCount w)
          as [[Hopen E] | [[Hclosed [_ E]] | [[Hclosed [_ [_ E]]]
             | [Hclosed [_ [Hlt [_ [budget' [Hb E]]]]]]]]]
    end.
  1, 5: (rewrite E; do 2 eexists; exists O; split; [ reflexivity | ];
         destruct (updateMetrics_run false (Some EmailService.breakerOpenError) w)
           as [_ [Ho [Ht Hs]]];
         rewrite Ho, Ht, Hs; cbn; rewrite app_nil_r; repeat split; lia).
  1, 2, 4, 5:
    (rewrite E; do 2 eexists; exists 1%nat; split; [ reflexivity | ];
     destruct (halfOpened_closed w Hclosed) as [_ [_ [_ [Ho' [Hm' _]]]]];
     match goal with
     | |- context [ run (EmailService.updateMetrics ?ok ?err) ?w0 ] =>
         destruct (updateMetrics_run ok err w0) as [_ [Ho [Ht Hs]]]
     end;
     rewrite Ho, Ht, Hs; unfold Spec.requested; world_simpl;
     rewrite Ho', Hm'; cbn; repeat split; lia).
  - discriminate.
  - inversion Hb; subst budget'. rewrite E.
    destruct (waited_facts email message retryCount w Hclosed)
      as [_ [Ho [_ [Hm [_ [Hmax _]]]]]].
    destruct (IH (retryCount + 1) (Spec.waited email message retryCount w))
      as [res [w' [k [E' [Hk [Hle [Ht Hs]]]]]]].
    exists res, w', (S k). split; [ exact E' | ].
    rewrite Hk, Ho, Ht, Hs, Hm, <- app_assoc. cbn.
    repeat split; lia.
Qed.

(** X1. A call [sendEmail(email, message)] makes at most [maxRetries + 1]
    HTTP requests, all with the payload of the call, and the metrics count
    the call once, whatever the number of requests. *)
Theorem sendEmail_attempts_are_bounded :
  forall P email message w,
    exists res w' k,
      EmailService.sendEmail P email message 0 w = (Return res, w')
      /\ outbox w' = (outbox w ++ repeat (Axios.mkPayload email message) k)%list
      /\ Z.of_nat k <= Z.max 0 (maxRetries (emailService w)) + 1
      /\ totalAttempts (metrics (emailService w'))
         = totalAttempts (metrics (emailService w)) + 1
      /\ successCount (metrics (emailService w'))
         = successCount (metrics (emailService w))
           + (if EmailService.success res then 1 else 0).
Proof.
  intros P email message w. unfold EmailService.sendEmail.
  destruct (sendEmailFrom_counts P email message
              (Z.to_nat (maxRetries (emailService w) - 0)) 0 w)
    as [res [w' [k [E [Hk [Hle [Ht Hs]]]]]]].
  exists res, w', k. repeat split; try assumption. lia.
Qed.

Lemma retryableFailure_failed :
  forall o, Spec.retryableFailure o = true -> Spec.failed o = true.
Proof.
  intros [ r | e ]; cbn; [ | reflexivity ].
  intros H. now apply andb_true_iff in H as [H _].
Qed.

(** A delay of the backoff that fits a timer is waited in full. *)
Lemma timerDelay_backoff :
  forall retryDelay retryCount maxRetries,
    0 <= retryCount <= maxRetries ->
    retryDelay * 2 ^ maxRetries <= TIMEOUT_MAX ->
    Z.max 0 retryDelay * 2 ^ retryCount <= timerDelay (retryDelay * 2 ^ retryCount).
Proof.
  intros rd rc mx Hrc Hfit.
  pose proof (timerDelay_range (rd * 2 ^ rc)) as Hr.
  assert (0 < 2 ^ rc) as Hp by (apply Z.pow_pos_nonneg; lia).
  assert (2 ^ rc <= 2 ^ mx) as Hle by (apply Z.pow_le_mono_r; lia).
  destruct (Z.max_spec 0 rd) as [[Hpos ->] | [Hneg ->]]; [ | lia ].
  unfold timerDelay.
  assert ((1 <=? rd * 2 ^ rc) = true) as -> by (apply Z.leb_le; nia).
  assert ((rd * 2 ^ rc <=? TIMEOUT_MAX) = true) as -> by (apply Z.leb_le; nia).
  cbn [andb]. lia.
Qed.

Lemma updateMetrics_failure_run :
  forall err w,
    let w' := run (EmailService.updateMetrics false (Some err)) w in
    Spec.sendFrame w w' /\ now w' = now w /\ outbox w' = outbox w
    /\ metrics (emailService w')
       = EmailService.countFailure (Some err) (metrics (emailService w)).
Proof.
  intros err w. destruct (updateMetrics_failure err w) as [w' [E [Hf [Hn [Ho _]]]]].
  unfold run. rewrite E. cbn [snd].
  split; [ exact Hf | split; [ exact Hn | split; [ exact Ho | ] ] ].
  revert E. unfold EmailService.updateMetrics, bind, EmailService.openCircuitBreaker.
  world_simpl. destruct (_ <=? _); intros E; inversion E; subst w'; reflexivity.
Qed.

Lemma sendEmailFrom_exhausts :
  forall P email message budget retryCount w,
    ~ Spec.breakerOpen w ->
    0 <= retryCount <= maxRetries (emailService w) ->
    (Z.to_nat (maxRetries (emailService w) - retryCount) <= budget)%nat ->
    (forall n, (List.length (outbox w) <= n)%nat ->
       Spec.retryableFailure (remote P n) = true) ->
    exists w',
      EmailService.sendEmailFrom P budget email message retryCount w
      = (Return (EmailService.mkResult false
                   (Some (Spec.finalFailure (timeout (emailService w))
                            (remote P (List.length (outbox w)
                                       + Z.to_nat (maxRetries (emailService w)
                                                   - retryCount)))))), w')
      /\ outbox w'
         = (outbox w
            ++ repeat (Axios.mkPayload email message)
                 (S (Z.to_nat (maxRetries (emailService w) - retryCount))))%list
      /\ (retryDelay (emailService w) * 2 ^ maxRetries (emailService w) <= TIMEOUT_MAX ->
          now w + Z.max 0 (retryDelay (emailService w))
                  * (2 ^ maxRetries (emailService w) - 2 ^ retryCount)
          <= now w')
      /\ metrics (emailService w')
         = EmailService.countFailure
             (Some (Spec.finalFailure (timeout (emailService w))
                      (remote P (List.length (outbox w)
                                 + Z.to_nat (maxRetries (emailService w)
                                             - retryCount)))))
             (metrics (emailService w)).
Proof.
  intros P email message budget; induction budget as [ | budget IH ];
    intros retryCount w Hclosed Hrc Hb Hremote;
    match goal with
    | |- context [ EmailService.sendEmailFrom P ?b email message retryCount w ] =>
        destruct (sendEmailFrom_step P b email message retryCount w)
          as [[Hopen _] | [[_ [Hok _]] | [[_ [_ [Hc E]]]
             | [_ [_ [Hlt [_ [budget' [Hb' E]]]]]]]]]
    end;
    try contradiction;
    try (rewrite (retryableFailure_failed _ (Hremote _ (Nat.le_refl _))) in Hok;
         discriminate);
    try discriminate.
  1, 2:
    (rewrite (Hremote _ (Nat.le_refl _)) in Hc; cbn [andb negb Nat.eqb] in Hc;
     rewrite ?andb_true_r, ?andb_false_r in Hc;
     assert (retryCount = maxRetries (emailService w)) as Heq
       by (try apply Z.ltb_ge in Hc; lia);
     subst retryCount; rewrite E, Z.sub_diag, Nat.add_0_r; eexists; split;
     [ reflexivity | ];
     destruct (halfOpened_closed w Hclosed) as [_ [_ [Hn' [Ho' [Hm' _]]]]];
     match goal with
     | |- context [ run (EmailService.updateMetrics false (Some ?err)) ?w0 ] =>
         destruct (updateMetrics_failure_run err w0) as [_ [Hn [Ho Hf]]]
     end;
     rewrite Hn, Ho, Hf; unfold Spec.requested; world_simpl;
     rewrite Hn', Ho', Hm'; cbn;
     repeat split; lia).
  inversion Hb'; subst budget'. rewrite E.
  destruct (waited_facts email message retryCount w Hclosed)
    as [Hclosed' [Ho [Hn [Hm [Ht [Hmax [Hrd _]]]]]]].
  destruct (IH (retryCount + 1) (Spec.waited email message retryCount w))
    as [w' [E' [Ho' [Hn' Hf']]]]; try assumption.
  - rewrite Hmax. lia.
  - rewrite Hmax. lia.
  - intros n Hn0. apply Hremote. rewrite Ho, length_app in Hn0. cbn in Hn0. lia.
  - exists w'. rewrite Ht, Hmax, Hrd, Ho, Hn, Hm in *.
    assert (Z.to_nat (maxRetries (emailService w) - retryCount)
            = S (Z.to_nat (maxRetries (emailService w) - (retryCount + 1)))) as Hs by lia.
    split; [ | split; [ | split ] ].
    + rewrite E'. rewrite length_app. cbn [List.length]. rewrite Hs.
      rewrite <- Nat.add_assoc. reflexivity.
    + rewrite Ho', Hs, <- app_assoc. reflexivity.
    + intros Hfit. specialize (Hn' Hfit).
      pose proof (timerDelay_backoff (retryDelay (emailService w)) retryCount
                    (maxRetries (emailService w)) ltac:(lia) Hfit) as Hwait.
      unfold EmailService.backoff in Hn'.
      assert ((0 <=? retryCount) = true) as Hnn by (apply Z.leb_le; lia).
      rewrite Hnn in Hn'.
      rewrite Z.pow_add_r in Hn' by lia. lia.
    + rewrite Hf', length_app. cbn [List.length]. rewrite Hs, <- Nat.add_assoc.
      reflexivity.
Qed.

(** X2. While the breaker is closed and every exchange fails in a retryable
    way, [sendEmail(email, message)] makes exactly [maxRetries + 1] requests
    and gives up with the error of the last one; the failure is counted once.
    Before the request that follows request i it waits in a timer of
    [retryDelay * 2^i] milliseconds, for i = 0 .. maxRetries - 1: when these
    delays fit a timer, the call does not return before
    [retryDelay * (2^maxRetries - 1)] milliseconds have passed. *)
Theorem sendEmail_exhausts_retries_with_backoff :
  forall P email message w,
    ~ Spec.breakerOpen w ->
    0 <= maxRetries (emailService w) ->
    retryDelay (emailService w) * 2 ^ maxRetries (emailService w) <= TIMEOUT_MAX ->
    (forall n, (List.length (outbox w) <= n)%nat ->
       Spec.retryableFailure (remote P n) = true) ->
    exists w',
      EmailService.sendEmail P email message 0 w
      = (Return (EmailService.mkResult false
                   (Some (Spec.finalFailure (timeout (emailService w))
                            (remote P (List.length (outbox w)
                                       + Z.to_nat (maxRetries (emailService w))))))), w')
      /\ outbox w'
         = (outbox w
            ++ repeat (Axios.mkPayload email message)
                 (S (Z.to_nat (maxRetries (emailService w)))))%list
      /\ now w + Z.max 0 (retryDelay (emailService w))
                 * (2 ^ maxRetries (emailService w) - 1)
         <= now w'
      /\ failureCount (metrics (emailService w'))
         = failureCount (metrics (emailService w)) + 1.
Proof.
  intros P email message w Hclosed Hmax Hfit Hremote. unfold EmailService.sendEmail.
  destruct (sendEmailFrom_exhausts P email message
              (Z.to_nat (maxRetries (emailService w) - 0)) 0 w)
    as [w' [E H]]; try assumption; try lia.
  exists w'. rewrite Z.sub_0_r in *. split; [ exact E | ].
  change (2 ^ 0) with 1 in H. destruct H as [Ho [Hn Hm]].
  rewrite Hm, countFailure_failureCount. auto.
Qed.

Lemma sendEmail_exhausts_retries_with_backoff_witness :
  exists w',
    EmailService.sendEmail Scenario.always500 "test@example.com" "hello" 0
      Scenario.freshService
    = (Return (EmailService.mkResult false (Some "HTTP 500: Internal Server Error")), w')
    /\ outbox w' = repeat (Axios.mkPayload "test@example.com" "hello") 4
    /\ Scenario.t0 + 2000 * (1 + 2 + 4) <= now w'
    /\ failureCount (metrics (emailService w')) = 1.
Proof.
  destruct (sendEmail_exhausts_retries_with_backoff Scenario.always500
              "test@example.com" "hello" Scenario.freshService)
    as [w' [E [Ho [Hn Hf]]]].
  - intros [u [Hu _]]. discriminate.
  - vm_compute. discriminate.
  - vm_compute. discriminate.
  - intros n _. reflexivity.
  - exists w'. repeat split.
    + exact E.
    + exact Ho.
    + exact Hn.
    + exact Hf.
Defined.

(** X3. While the breaker is closed, a call whose first exchange is answered
    with a status from 200 to 299 succeeds with that one request and without
    waiting, whatever the retry count it was entered with; the run of
    consecutive failures is reset, the success is stamped with the current
    instant, and the breaker is closed afterwards. *)
Theorem sendEmail_succeeds_on_first_2xx :
  forall P email message retryCount w response,
    ~ Spec.breakerOpen w ->
    remote P (List.length (outbox w)) = Axios.Resolve response ->
    200 <= Axios.status response < 300 ->
    exists w',
      EmailService.sendEmail P email message retryCount w
      = (Return (EmailService.mkResult true None), w')
      /\ outbox w' = (outbox w ++ [Axios.mkPayload email message])%list
      /\ now w' = now w
      /\ metrics (emailService w')
         = EmailService.countSuccess (now w) (metrics (emailService w))
      /\ failureCount (metrics (emailService w')) = 0
      /\ circuitBreakerOpenUntil (emailService w') = None
      /\ Spec.sendFrame w w'.
Proof.
  intros P email message retryCount w response Hclosed Hr Hs.
  unfold EmailService.sendEmail.
  assert (Spec.failed (remote P (List.length (outbox w))) = false) as Hok.
  { rewrite Hr. cbn.
    assert ((200 <=? Axios.status response) = true) as -> by (apply Z.leb_le; lia).
    assert ((Axios.status response <? 300) = true) as -> by (apply Z.ltb_lt; lia).
    reflexivity. }
  match goal with
  | |- context [ EmailService.sendEmailFrom P ?b email message retryCount w ] =>
      destruct (sendEmailFrom_step P b email message retryCount w)
        as [[Hopen _] | [[_ [_ E]] | [[_ [Hf _]] | [_ [Hf _]]]]]
  end; try contradiction; try congruence.
  rewrite E. eexists; split; [ reflexivity | ].
  destruct (halfOpened_closed w Hclosed) as [_ [Hfr [Hn' [Ho' [Hm' Hu']]]]].
  unfold run, EmailService.updateMetrics, Spec.requested. cbn [snd]. world_simpl.
  rewrite Hn', Ho', Hm', Hu'. repeat split; try reflexivity.
  all: try apply Hfr.
Qed.

Lemma sendEmail_succeeds_on_first_2xx_witness :
  exists w',
    EmailService.sendEmail Scenario.always200 "test@example.com" "hello" 0
      (setNow (Scenario.t0 + 1000) Scenario.afterThreeFailures)
    = (Return (EmailService.mkResult true None), w')
    /\ failureCount (metrics (emailService Scenario.afterThreeFailures)) = 3
    /\ failureCount (metrics (emailService w')) = 0
    /\ circuitBreakerOpenUntil (emailService w') = None.
Proof.
  destruct (sendEmail_succeeds_on_first_2xx Scenario.always200
              "test@example.com" "hello" 0
              (setNow (Scenario.t0 + 1000) Scenario.afterThreeFailures)
              (Axios.mkResponse 200 "OK" (Some "{}")))
    as [w' [E [_ [_ [_ [Hf [Hu _]]]]]]].
  - intros [u [Hu Hlt]]. vm_compute in Hu. inversion Hu; subst u.
    vm_compute in Hlt. discriminate.
  - reflexivity.
  - cbn. lia.
  - exists w'. split; [ exact E | ]. split; [ reflexivity | ].
    split; [ exact Hf | exact Hu ].
Defined.

(** X4. While the breaker is closed, a response with a status that is
    neither a success nor retryable (below 500, outside 200 to 299, and
    neither 408 nor 429) ends the call at once: one request, no waiting, the
    error "HTTP <status>: <statusText>", one failure counted, whatever
    attempts are left. *)
Theorem sendEmail_gives_up_on_client_error :
  forall P email message retryCount w response,
    ~ Spec.breakerOpen w ->
    remote P (List.length (outbox w)) = Axios.Resolve response ->
    Axios.status response < 500 ->
    ~ 200 <= Axios.status response < 300 ->
    Axios.status response <> 408 ->
    Axios.status response <> 429 ->
    exists w',
      EmailService.sendEmail P email message retryCount w
      = (Return (EmailService.mkResult false
                   (Some ("HTTP " ++ showZ (Axios.status response) ++ ": "
                          ++ Axios.statusText response))), w')
      /\ outbox w' = (outbox w ++ [Axios.mkPayload email message])%list
      /\ now w' = now w
      /\ failureCount (metrics (emailService w'))
         = failureCount (metrics (emailService w)) + 1
      /\ totalAttempts (metrics (emailService w'))
         = totalAttempts (metrics (emailService w)) + 1.
Proof.
  intros P email message retryCount w response Hclosed Hr H500 H2xx H408 H429.
  unfold EmailService.sendEmail.
  assert (Spec.failed (remote P (List.length (outbox w))) = true) as Hfailed.
  { rewrite Hr. cbn. apply negb_true_iff, andb_false_iff.
    destruct (Z.le_gt_cases 200 (Axios.status response));
      [ right; apply Z.ltb_ge | left; apply Z.leb_gt ]; lia. }
  assert (Spec.retryableFailure (remote P (List.length (outbox w))) = false) as Hnr.
  { rewrite Hr. cbn. apply andb_false_iff. right.
    apply Z.eqb_neq in H408, H429. rewrite H408, H429.
    assert ((500 <=? Axios.status response) = false) as -> by (apply Z.leb_gt; lia).
    reflexivity. }
  match goal with
  | |- context [ EmailService.sendEmailFrom P ?b email message retryCount w ] =>
      destruct (sendEmailFrom_step P b email message retryCount w)
        as [[Hopen _] | [[_ [Hf _]] | [[_ [_ [_ E]]] | [_ [_ [_ [Hf _]]]]]]]
  end; try contradiction; try congruence.
  rewrite E, Hr. cbn [Spec.finalFailure]. eexists; split; [ reflexivity | ].
  destruct (halfOpened_closed w Hclosed) as [_ [_ [Hn' [Ho' [Hm' _]]]]].
  match goal with
  | |- context [ run (EmailService.updateMetrics false (Some ?err)) ?w0 ] =>
      destruct (updateMetrics_run false (Some err) w0) as [_ [_ [Ht _]]];
      destruct (updateMetrics_failure_run err w0) as [_ [Hn [Ho Hm]]]
  end.
  rewrite Hn, Ho, Ht, Hm, countFailure_failureCount.
  unfold Spec.requested; world_simpl. rewrite Hn', Ho', Hm'. auto.
Qed.

Lemma sendEmail_gives_up_on_client_error_witness :
  exists w',
    EmailService.sendEmail Scenario.always400 "test@example.com" "hello" 0
      Scenario.freshService
    = (Return (EmailService.mkResult false (Some "HTTP 400: Bad Request")), w')
    /\ outbox w' = [Axios.mkPayload "test@example.com" "hello"]
    /\ now w' = Scenario.t0.
Proof.
  destruct (sendEmail_gives_up_on_client_error Scenario.always400
              "test@example.com" "hello" 0 Scenario.freshService
              (Axios.mkResponse 400 "Bad Request" (Some "{}")))
    as [w' [E [Ho [Hn _]]]].
  - intros [u [Hu _]]. discriminate.
  - reflexivity.
  - cbn. lia.
  - cbn. lia.
  - cbn. lia.
  - cbn. lia.
  - exists w'. split; [ exact E | ]. split; [ exact Ho | exact Hn ].
Defined.

Lemma prefix_app :
  forall n a b, prefix n a = true -> prefix n (a ++ b) = true.
Proof.
  induction n as [ | c n IH ]; intros a b H; [ destruct (a ++ b); reflexivity | ].
  destruct a as [ | c' a ]; [ discriminate | ]. cbn in H |- *.
  destruct (ascii_dec c c'); [ now apply IH | discriminate ].
Qed.

Lemma includes_app :
  forall n a b, includes n a = true -> includes n (a ++ b) = true.
Proof.
  intros n a b; induction a as [ | c a IH ]; intros H.
  - cbn in H. rewrite orb_false_r in H.
    destruct n; [ | discriminate ]. destruct b; reflexivity.
  - cbn [includes] in H. apply orb_true_iff in H as [H | H].
    + change (String c a ++ b) with (String c (a ++ b)). cbn [includes].
      apply orb_true_iff. left. now apply (prefix_app n (String c a) b).
    + change (String c a ++ b) with (String c (a ++ b)). cbn [includes].
      apply orb_true_iff. right. now apply IH.
Qed.

(** X5. While the breaker is closed and every exchange times out without a
    response, [sendEmail(email, message)] makes [maxRetries + 1] requests and
    reports "Timeout: Request timeout after <timeout>ms"; the metrics count
    one attempt and one timeout for the whole call, not one per request. *)
Theorem sendEmail_counts_a_timeout_once :
  forall P email message w,
    ~ Spec.breakerOpen w ->
    0 <= maxRetries (emailService w) ->
    (forall n, (List.length (outbox w) <= n)%nat ->
       exists e, remote P n = Axios.Reject e
                 /\ Axios.response e = None
                 /\ (EmailService.codeIs e "ECONNABORTED"
                     || EmailService.codeIs e "ETIMEDOUT") = true) ->
    exists w',
      EmailService.sendEmail P email message 0 w
      = (Return (EmailService.mkResult false
                   (Some ("Timeout: Request timeout after "
                          ++ showZ (timeout (emailService w)) ++ "ms"))), w')
      /\ List.length (outbox w')
         = (List.length (outbox w) + S (Z.to_nat (maxRetries (emailService w))))%nat
      /\ timeoutCount (metrics (emailService w'))
         = timeoutCount (metrics (emailService w)) + 1
      /\ totalAttempts (metrics (emailService w'))
         = totalAttempts (metrics (emailService w)) + 1
      /\ lastError (metrics (emailService w'))
         = Some ("Timeout: Request timeout after "
                 ++ showZ (timeout (emailService w)) ++ "ms").
Proof.
  intros P email message w Hclosed Hmax Hremote. unfold EmailService.sendEmail.
  destruct (sendEmailFrom_exhausts P email message
              (Z.to_nat (maxRetries (emailService w) - 0)) 0 w)
    as [w' [E [Ho [_ Hm]]]]; try assumption; try lia.
  { intros n Hn. destruct (Hremote n Hn) as [e [-> [He _]]].
    cbn. unfold EmailService.isRetryableError. rewrite He. now destruct (_ || _). }
  rewrite Z.sub_0_r in *.
  destruct (Hremote (List.length (outbox w) + Z.to_nat (maxRetries (emailService w)))%nat)
    as [e [He [Hresp Hcode]]]; [ lia | ].
  rewrite He in E, Hm.
  assert (Spec.finalFailure (timeout (emailService w)) (Axios.Reject e)
          = "Timeout: Request timeout after "
            ++ showZ (timeout (emailService w)) ++ "ms") as Hfinal.
  { cbn [Spec.finalFailure]. unfold EmailService.finalErrorOf, EmailService.categorize.
    rewrite Hcode, Hresp. reflexivity. }
  rewrite Hfinal in E, Hm.
  exists w'. split; [ exact E | ].
  split; [ rewrite Ho, length_app, repeat_length; reflexivity | ].
  rewrite Hm. unfold EmailService.countFailure.
  change (truthy ("Timeout: Request timeout after "
                  ++ showZ (timeout (emailService w)) ++ "ms")) with true.
  cbv iota.
  rewrite (includes_app "timeout" "Timeout: Request timeout after "
             (showZ (timeout (emailService w)) ++ "ms") eq_refl).
  cbn. auto.
Qed.

Lemma sendEmail_counts_a_timeout_once_witness :
  exists w',
    EmailService.sendEmail
      (Scenario.always (Axios.Reject (Scenario.rejected "ETIMEDOUT")) Scenario.testEnv)
      "test@example.com" "hello" 0 Scenario.freshService
    = (Return (EmailService.mkResult false
                 (Some "Timeout: Request timeout after 10000ms")), w')
    /\ List.length (outbox w') = 4%nat
    /\ timeoutCount (metrics (emailService w')) = 1
    /\ totalAttempts (metrics (emailService w')) = 1.
Proof.
  destruct (sendEmail_counts_a_timeout_once
              (Scenario.always (Axios.Reject (Scenario.rejected "ETIMEDOUT"))
                 Scenario.testEnv)
              "test@example.com" "hello" Scenario.freshService)
    as [w' [E [Ho [Ht [Ha _]]]]].
  - intros [u [Hu _]]. discriminate.
  - vm_compute. discriminate.
  - intros n _. eexists. split; [ reflexivity | ]. split; reflexivity.
  - exists w'. split; [ exact E | ]. split; [ exact Ho | ]. split; [ exact Ht | exact Ha ].
Defined.

(** X6. [resetMetrics] clears the counters and nothing else: a breaker that
    is open stays open, so the next call before the end of the window is
    still rejected without a request, and it is the first failure of the new
    count. *)
Theorem resetMetrics_leaves_breaker_open :
  forall P email message retryCount w,
    Spec.breakerOpen w ->
    let w1 := run EmailService.resetMetrics w in
    metrics (emailService w1) = mkMetrics 0 0 0 0 None None
    /\ circuitBreakerOpenUntil (emailService w1) = circuitBreakerOpenUntil (emailService w)
    /\ Spec.sameSettings (emailService w) (emailService w1)
    /\ exists w',
         EmailService.sendEmail P email message retryCount w1
         = (Return Spec.blockedResult, w')
         /\ outbox w' = outbox w
         /\ failureCount (metrics (emailService w')) = 1
         /\ totalAttempts (metrics (emailService w')) = 1.
Proof.
  intros P email message retryCount w Hopen w1.
  assert (Spec.breakerOpen w1) as Hopen1.
  { destruct Hopen as [u [Hu Hlt]]. exists u. split; [ exact Hu | exact Hlt ]. }
  split; [ reflexivity | ]. split; [ reflexivity | ].
  split; [ unfold Spec.sameSettings; cbn; auto | ].
  unfold EmailService.sendEmail.
  match goal with
  | |- context [ EmailService.sendEmailFrom P ?b email message retryCount w1 ] =>
      destruct (sendEmailFrom_step P b email message retryCount w1)
        as [[_ E] | [[Hc _] | [[Hc _] | [Hc _]]]]
  end; try contradiction.
  rewrite E. eexists; split; [ reflexivity | ].
  destruct (updateMetrics_run false (Some EmailService.breakerOpenError) w1)
    as [_ [Ho [Ht _]]].
  destruct (updateMetrics_failure_run EmailService.breakerOpenError w1)
    as [_ [_ [_ Hm]]].
  rewrite Ho, Ht, Hm, countFailure_failureCount. repeat split.
Qed.

Lemma resetMetrics_leaves_breaker_open_witness :
  exists w',
    EmailService.sendEmail Scenario.always200 "test@example.com" "hello" 0
      (run EmailService.resetMetrics Scenario.afterThreeFailures)
    = (Return Spec.blockedResult, w')
    /\ outbox w' = outbox Scenario.afterThreeFailures.
Proof.
  assert (Spec.breakerOpen Scenario.afterThreeFailures) as Hopen.
  { eexists. split; [ reflexivity | ]. reflexivity. }
  destruct (resetMetrics_leaves_breaker_open Scenario.always200
              "test@example.com" "hello" 0 Scenario.afterThreeFailures Hopen)
    as [_ [_ [_ [w' [E [Ho _]]]]]].
  exists w'. split; [ exact E | exact Ho ].
Defined.

(** ** Processing a message *)

(** X7. [processMessage] on a row whose lock is free and whose user exists,
    with the breaker closed and the remote answering 2xx: one request carries
    the greeting to the user's email address, and the row is SENT, stamped
    with the current instant, unlocked and without error text; its retry
    count and the other columns are kept. *)
Theorem processMessage_marks_sent :
  forall P messageId w r user response,
    Spec.reliableDb P ->
    Spec.rowOf messageId w = Some r ->
    BirthdayService.lockFree (now w) r = true ->
    Prisma.userOf (users w) r = Some user ->
    ~ Spec.breakerOpen w ->
    remote P (List.length (outbox w)) = Axios.Resolve response ->
    200 <= Axios.status response < 300 ->
    exists w' r',
      BirthdayService.processMessage P messageId w = (Return tt, w')
      /\ Spec.rowOf messageId w' = Some r'
      /\ r' = MessageLog.sentData (now w) r
      /\ MessageLog.status r' = SENT
      /\ MessageLog.sentAt r' = Some (now w)
      /\ MessageLog.lockId r' = None
      /\ MessageLog.retryCount r' = MessageLog.retryCount r
      /\ outbox w'
         = (outbox w
            ++ [Axios.mkPayload (User.email user)
                  (EmailService.birthdayText
                     (User.firstName user ++ " " ++ User.lastName user))])%list
      /\ now w' = now w.
Proof.
  intros P messageId w r user response HP Hrow Hfree Huser Hclosed Hr Hs.
  destruct (processMessage_delivers P messageId w r user HP Hrow Hfree Huser)
    as [wl [res [ws [w' [Hn [Ho [He [Esend [_ [E [Ho' [_ [Hn' Hrow']]]]]]]]]]]]].
  assert (~ Spec.breakerOpen wl) as Hclosed'.
  { intros [u [Hu Hlt]]. apply Hclosed. exists u. rewrite <- He, <- Hn. auto. }
  assert (Spec.failed (remote P (List.length (outbox wl))) = false) as Hok.
  { rewrite Ho, Hr. cbn.
    assert ((200 <=? Axios.status response) = true) as -> by (apply Z.leb_le; lia).
    assert ((Axios.status response <? 300) = true) as -> by (apply Z.ltb_lt; lia).
    reflexivity. }
  unfold EmailService.sendBirthdayMessage, EmailService.sendEmail in Esend.
  match type of Esend with
  | EmailService.sendEmailFrom P ?b ?email ?message 0 wl = _ =>
      destruct (sendEmailFrom_step P b email message 0 wl)
        as [[Hopen _] | [[_ [_ E1]] | [[_ [Hf _]] | [_ [Hf _]]]]]
  end; try contradiction; try congruence.
  rewrite E1 in Esend. inversion Esend; subst res ws; clear Esend.
  destruct (halfOpened_closed wl Hclosed') as [_ [_ [Hn1 [Ho1 _]]]].
  assert (now w' = now w) as Hnow.
  { rewrite Hn'. unfold run, EmailService.updateMetrics, Spec.requested.
    cbn [snd]. world_simpl. rewrite Hn1. exact Hn. }
  exists w', (MessageLog.sentData (now w) r).
  split; [ exact E | ].
  split; [ rewrite Hrow'; cbn [EmailService.success]; rewrite <- Hn', Hnow; reflexivity | ].
  repeat (split; [ reflexivity | ]).
  split; [ | exact Hnow ].
  rewrite Ho'. unfold run, EmailService.updateMetrics, Spec.requested.
  cbn [snd]. world_simpl. rewrite Ho1, Ho. reflexivity.
Qed.

Lemma processMessage_marks_sent_witness :
  exists w',
    BirthdayService.processMessage Scenario.always200 "msg-1" Scenario.pendingWorld
    = (Return tt, w')
    /\ Spec.progress "msg-1" w' = Some (SENT, 0)
    /\ outbox w'
       = [Axios.mkPayload "john@example.com" "Hey, John Doe it's your birthday"].
Proof.
  destruct (processMessage_marks_sent Scenario.always200 "msg-1" Scenario.pendingWorld
              (Scenario.row "msg-1" "user-1" PENDING None None None) Scenario.john
              (Axios.mkResponse 200 "OK" (Some "{}")))
    as [w' [r' [E [Hrow [Hr' [_ [_ [_ [_ [Ho _]]]]]]]]]].
  - intros n. reflexivity.
  - reflexivity.
  - reflexivity.
  - reflexivity.
  - intros [u [Hu _]]. discriminate.
  - reflexivity.
  - cbn. lia.
  - exists w'. split; [ exact E | ]. split; [ | exact Ho ].
    unfold Spec.progress. rewrite Hrow, Hr'. reflexivity.
Defined.

Lemma filter_none :
  forall A (f : A -> bool) l,
    (forall x, In x l -> f x = false) ->
    filter f l = [] /\ map (fun r => if f r then r else r) l = l.
Proof.
  intros A f l H. split.
  - induction l as [ | x l IH ]; [ reflexivity | ]. cbn.
    rewrite (H x (or_introl eq_refl)). apply IH. intros y Hy. apply H. now right.
  - induction l as [ | x l IH ]; [ reflexivity | ]. cbn.
    rewrite IH by (intros y Hy; apply H; now right). now destruct (f x).
Qed.

Lemma map_unless :
  forall A (f : A -> bool) (g : A -> A) l,
    (forall x, In x l -> f x = false) ->
    map (fun r => if f r then g r else r) l = l.
Proof.
  intros A f g l H. induction l as [ | x l IH ]; [ reflexivity | ]. cbn.
  rewrite (H x (or_introl eq_refl)), IH; [ reflexivity | ].
  intros y Hy. apply H. now right.
Qed.

(** X8. [processMessage] does not touch a message that another worker holds:
    when every row of the identifier is under a lease that has not expired
    (or no row has the identifier), the call returns without a request to
    the email service and leaves both tables and the service as they are. *)
Theorem processMessage_respects_a_live_lease :
  forall P messageId w,
    Spec.reliableDb P ->
    (forall r, In r (messageLogs w) -> MessageLog.id r = messageId ->
       exists l until,
         MessageLog.lockId r = Some l /\ MessageLog.lockedUntil r = Some until
         /\ now w < until) ->
    exists w',
      BirthdayService.processMessage P messageId w = (Return tt, w')
      /\ messageLogs w' = messageLogs w
      /\ users w' = users w
      /\ outbox w' = outbox w
      /\ emailService w' = emailService w
      /\ now w' = now w.
Proof.
  intros P messageId w HP Hheld.
  assert (forall r, In r (messageLogs w) ->
            BirthdayService.hasId messageId r && BirthdayService.lockFree (now w) r
            = false) as Hnone.
  { intros r Hin. destruct (BirthdayService.hasId messageId r) eqn:Hid; [ | reflexivity ].
    apply String.eqb_eq in Hid. destruct (Hheld r Hin Hid) as [l [u [Hl [Hu Hlt]]]].
    unfold BirthdayService.lockFree. rewrite Hl, Hu. cbn. apply Z.leb_gt. exact Hlt. }
  rewrite processMessage_unfold.
  unfold tryCatch, BirthdayService.processLocked.
  unfold bind at 1, newDate at 1. world_simpl.
  unfold bind at 1, Prisma.messageLog_updateMany at 1, Prisma.query at 1.
  rewrite HP. world_simpl.
  rewrite (proj1 (filter_none _ _ _ Hnone)), (map_unless _ _ _ _ Hnone).
  cbn. eexists; split; [ reflexivity | ]. world_simpl. repeat split.
Qed.

Lemma processMessage_respects_a_live_lease_witness :
  exists w',
    BirthdayService.processMessage Scenario.always200 "msg-1"
      (Scenario.world (Scenario.utc 2026 5 15 13 5) [Scenario.john]
         [Scenario.row "msg-1" "user-1" PENDING None (Some "other")
            (Some (Scenario.utc 2026 5 15 13 9))])
    = (Return tt, w')
    /\ outbox w' = []
    /\ messageLogs w'
       = [Scenario.row "msg-1" "user-1" PENDING None (Some "other")
            (Some (Scenario.utc 2026 5 15 13 9))].
Proof.
  destruct (processMessage_respects_a_live_lease Scenario.always200 "msg-1"
              (Scenario.world (Scenario.utc 2026 5 15 13 5) [Scenario.john]
                 [Scenario.row "msg-1" "user-1" PENDING None (Some "other")
                    (Some (Scenario.utc 2026 5 15 13 9))]))
    as [w' [E [Hl [_ [Ho _]]]]].
  - intros n. reflexivity.
  - intros r [<- | []] _. do 2 eexists. split; [ reflexivity | ].
    split; [ reflexivity | ]. vm_compute. reflexivity.
  - exists w'. split; [ exact E | ]. split; [ exact Ho | exact Hl ].
Defined.

(** ** What a tick and the recovery leave alone *)

Lemma rewritesOnly_same :
  forall ids w w',
    messageLogs w' = messageLogs w -> users w' = users w -> now w <= now w' ->
    Spec.rewritesOnly ids w w'.
Proof.
  intros ids w w' Hl Hu Hn. split; [ | split; assumption ].
  rewrite Hl. clear Hl. generalize (messageLogs w) as l.
  induction l as [ | r l IH ]; constructor; [ | exact IH ].
  split; [ reflexivity | intros _; reflexivity ].
Qed.

Lemma rewritesOnly_refl : forall ids w, Spec.rewritesOnly ids w w.
Proof.
  intros ids w. apply rewritesOnly_same; [ reflexivity | reflexivity | lia ].
Qed.

Lemma rewritesOnly_trans :
  forall ids w1 w2 w3,
    Spec.rewritesOnly ids w1 w2 -> Spec.rewritesOnly ids w2 w3 ->
    Spec.rewritesOnly ids w1 w3.
Proof.
  intros ids w1 w2 w3 [H12 [Hu12 Hn12]] [H23 [Hu23 Hn23]].
  split; [ | split; [ congruence | lia ] ].
  revert H23. generalize (messageLogs w3).
  induction H12 as [ | r r' l l' [Hid Hkeep] _ IH ]; intros l3 H23;
    inversion H23 as [ | ? r'' ? l'' [Hid' Hkeep'] Hrest ]; subst; constructor.
  - split; [ congruence | ].
    intros Hnot. rewrite Hkeep' by (rewrite Hid; exact Hnot). now apply Hkeep.
  - now apply IH.
Qed.

Lemma touches_rewritesOnly :
  forall ids messageId w w',
    In messageId ids -> Spec.touches messageId w w' -> Spec.rewritesOnly ids w w'.
Proof.
  intros ids messageId w w' Hin [[g [Hg [Hid Hkeep]]] [Hu Hn]].
  split; [ | split; assumption ].
  rewrite Hg. clear Hg. generalize (messageLogs w) as l.
  induction l as [ | r l IH ]; cbn [map]; constructor; [ | exact IH ].
  split; [ apply Hid | ].
  intros Hnot. apply Hkeep. unfold BirthdayService.hasId.
  apply String.eqb_neq. intros Heq. apply Hnot. rewrite Heq. exact Hin.
Qed.

(** A loop of [processMessage] over a list, however it ends. *)
Lemma forOf_rewritesOnly :
  forall P A (key : A -> string) (items : list A) ids w,
    (forall x, In x items -> In (key x) ids) ->
    Spec.rewritesOnly ids w
      (run (forOf items (fun x => BirthdayService.processMessage P (key x))) w).
Proof.
  intros P A key items ids; induction items as [ | x items IH ]; intros w Hin.
  - apply rewritesOnly_refl.
  - unfold run. cbn [forOf]. unfold bind.
    pose proof (touching_processMessage P (key x) w) as Ht.
    destruct (BirthdayService.processMessage P (key x) w) as [[[] | e] w1];
      cbn [snd] in Ht |- *.
    + eapply rewritesOnly_trans.
      * apply (touches_rewritesOnly ids (key x)); [ apply Hin; now left | exact Ht ].
      * apply IH. intros y Hy. apply Hin. now right.
    + apply (touches_rewritesOnly ids (key x)); [ apply Hin; now left | exact Ht ].
Qed.

(** X9. Whatever the database and the remote do, a run of
    [processPendingMessages] changes no row other than rows that carry the
    identifier of a row it selected as due; it inserts and deletes no row,
    changes no identifier and leaves the users alone. *)
Theorem tick_rewrites_only_due_rows :
  forall P w,
    Spec.rewritesOnly
      (map MessageLog.id (filter (BirthdayService.isDue (now w)) (messageLogs w)))
      w (run (BirthdayService.processPendingMessages P) w).
Proof.
  intros P w. unfold run, BirthdayService.processPendingMessages, tryCatch.
  unfold bind at 1, newDate at 1.
  unfold bind at 1, Prisma.messageLog_findManyOrdered, Prisma.query.
  destruct (dbFault P (dbCalls w)).
  - apply rewritesOnly_same; cbn; auto; lia.
  - world_simpl.
    match goal with
    | |- context [ forOf ?items ?body ?wq ] =>
        pose proof (forOf_rewritesOnly P _ (fun m => MessageLog.id (fst m)) items
                      (map MessageLog.id
                         (filter (BirthdayService.isDue (now w)) (messageLogs w))) wq)
          as H;
        unfold run in H; destruct (forOf items body wq) as [[[] | e] w']
    end;
      cbn [snd throw] in H |- *; apply H;
      intros m Hm; apply in_map_iff in Hm as [r [<- Hr]]; cbn [fst];
      apply in_map; apply (proj1 (orderByScheduledAt_In _ _)) in Hr; exact Hr.
Qed.

(** X10. Whatever the database and the remote do, a run of
    [recoverUnsentMessages] changes no row other than rows that carry the
    identifier of a PENDING or RETRY row scheduled before the current
    instant; it inserts and deletes no row and leaves the users alone. *)
Theorem recovery_rewrites_only_unsent_rows :
  forall P w,
    Spec.rewritesOnly
      (map MessageLog.id (filter (BirthdayService.isUnsent (now w)) (messageLogs w)))
      w (run (BirthdayService.recoverUnsentMessages P) w).
Proof.
  intros P w. unfold run, BirthdayService.recoverUnsentMessages, tryCatch.
  unfold bind at 1, newDate at 1.
  unfold bind at 1, Prisma.messageLog_findMany, Prisma.query.
  destruct (dbFault P (dbCalls w)).
  - apply rewritesOnly_same; cbn; auto; lia.
  - world_simpl.
    match goal with
    | |- context [ forOf ?items ?body ?wq ] =>
        pose proof (forOf_rewritesOnly P _ MessageLog.id items
                      (map MessageLog.id
                         (filter (BirthdayService.isUnsent (now w)) (messageLogs w))) wq)
          as H;
        unfold run in H; destruct (forOf items body wq) as [[[] | e] w']
    end;
      cbn [snd throw] in H |- *; apply H;
      intros m Hm; apply in_map; exact Hm.
Qed.

(** ** The use a tick makes of the email service *)

Lemma sameMail_refl : forall w, Spec.sameMail w w.
Proof. intros w. repeat split. Qed.

Lemma sameMail_trans :
  forall w1 w2 w3, Spec.sameMail w1 w2 -> Spec.sameMail w2 w3 -> Spec.sameMail w1 w3.
Proof.
  intros w1 w2 w3 [Hu [He [Hn Ho]]] [Hu' [He' [Hn' Ho']]]. repeat split; congruence.
Qed.

Lemma quiet_ret : forall A (a : A), Spec.quiet (ret a).
Proof. intros A a w. apply sameMail_refl. Qed.

Lemma quiet_bind :
  forall A B (m : M A) (k : A -> M B),
    Spec.quiet m -> (forall a, Spec.quiet (k a)) -> Spec.quiet (bind m k).
Proof.
  intros A B m k Hm Hk w. unfold bind. specialize (Hm w).
  destruct (m w) as [[a | e] w1]; cbn [snd] in Hm |- *; [ | exact Hm ].
  eapply sameMail_trans; [ exact Hm | apply Hk ].
Qed.

Lemma quiet_newDate : Spec.quiet newDate.
Proof. intros w. apply sameMail_refl. Qed.

Lemma quiet_uuidv4 : forall P, Spec.quiet (uuidv4 P).
Proof. intros P w. repeat split. Qed.

Lemma quiet_query :
  forall P A (op : M A), Spec.quiet op -> Spec.quiet (Prisma.query P op).
Proof.
  intros P A op Hop w. unfold Prisma.query.
  destruct (dbFault P (dbCalls w)); [ repeat split | ].
  apply (Hop (setDbCalls (S (dbCalls w)) w)).
Qed.

Lemma quiet_updateMany :
  forall P where_ data, Spec.quiet (Prisma.messageLog_updateMany P where_ data).
Proof. intros P where_ data. apply quiet_query. intros w. repeat split. Qed.

Lemma quiet_findUnique :
  forall P messageId, Spec.quiet (Prisma.messageLog_findUnique P messageId).
Proof.
  intros P messageId. apply quiet_query. intros w.
  destruct (find _ _) as [ r | ]; [ destruct (Prisma.userOf _ _) | ];
    repeat split.
Qed.

Lemma quiet_update :
  forall P messageId data, Spec.quiet (Prisma.messageLog_update P messageId data).
Proof.
  intros P messageId data. apply quiet_query. intros w.
  destruct (existsb _ _); repeat split.
Qed.

Lemma greetsOnceAt_quiet :
  forall P A (m : M A) w, Spec.quiet m -> Spec.greetsOnceAt P m w.
Proof. intros P A m w Hm. left. apply Hm. Qed.

Lemma greetsOnceAt_after :
  forall P A B (m : M A) (k : A -> M B) w,
    Spec.quiet m ->
    (forall a w1, m w = (Return a, w1) -> Spec.greetsOnceAt P (k a) w1) ->
    Spec.greetsOnceAt P (bind m k) w.
Proof.
  intros P A B m k w Hm Hk. unfold Spec.greetsOnceAt, bind. specialize (Hm w).
  destruct (m w) as [[a | e] w1]; cbn [snd] in Hm |- *; [ | left; exact Hm ].
  destruct (Hk a w1 eq_refl) as [H | [user [wl [Hin [Hl H]]]]].
  - left. eapply sameMail_trans; eassumption.
  - right. exists user, wl. split; [ | split; [ | exact H ] ].
    + destruct Hm as [Hu _]. rewrite <- Hu. exact Hin.
    + eapply sameMail_trans; eassumption.
Qed.

Lemma greetsOnceAt_before :
  forall P A B (m : M A) (k : A -> M B) w,
    Spec.greetsOnceAt P m w -> (forall a, Spec.quiet (k a)) ->
    Spec.greetsOnceAt P (bind m k) w.
Proof.
  intros P A B m k w Hm Hk. unfold Spec.greetsOnceAt, bind in *.
  destruct (m w) as [[a | e] w1]; cbn [snd] in Hm |- *; [ | exact Hm ].
  specialize (Hk a w1).
  destruct Hm as [H | [user [wl [Hin [Hl H]]]]].
  - left. eapply sameMail_trans; eassumption.
  - right. exists user, wl. split; [ exact Hin | split; [ exact Hl | ] ].
    eapply sameMail_trans; eassumption.
Qed.

Lemma greetsOnceAt_tryCatch :
  forall P A (m : M A) (h : string -> M A) w,
    Spec.greetsOnceAt P m w -> (forall e, Spec.quiet (h e)) ->
    Spec.greetsOnceAt P (tryCatch m h) w.
Proof.
  intros P A m h w Hm Hh. unfold Spec.greetsOnceAt, tryCatch in *.
  destruct (m w) as [[a | e] w1]; cbn [snd] in Hm |- *; [ exact Hm | ].
  specialize (Hh e w1).
  destruct Hm as [H | [user [wl [Hin [Hl H]]]]].
  - left. eapply sameMail_trans; eassumption.
  - right. exists user, wl. split; [ exact Hin | split; [ exact Hl | ] ].
    eapply sameMail_trans; eassumption.
Qed.

Lemma processMessage_greetsOnce :
  forall P messageId, Spec.greetsOnce P (BirthdayService.processMessage P messageId).
Proof.
  intros P messageId w. unfold BirthdayService.processMessage.
  apply greetsOnceAt_after; [ apply quiet_uuidv4 | intros lockId w1 _ ].
  apply greetsOnceAt_after; [ apply quiet_newDate | intros start w2 _ ].
  apply greetsOnceAt_tryCatch.
  - unfold BirthdayService.processLocked.
    apply greetsOnceAt_after; [ apply quiet_newDate | intros now_ w3 _ ].
    apply greetsOnceAt_after; [ apply quiet_updateMany | intros updated w4 _ ].
    destruct (updated =? 0); [ apply greetsOnceAt_quiet, quiet_ret | ].
    apply greetsOnceAt_after; [ apply quiet_findUnique | ].
    intros [[row [user | ]] | ] w5 E; try apply greetsOnceAt_quiet, quiet_ret.
    assert (In user (users w5)) as Hin.
    { unfold Prisma.messageLog_findUnique, Prisma.query in E.
      destruct (dbFault P (dbCalls w4)); [ discriminate | ].
      world_simpl.
      destruct (find _ (messageLogs w4)) as [ r | ]; [ | discriminate ].
      destruct (Prisma.userOf (users w4) r) as [ u | ] eqn:Hu; [ | discriminate ].
      inversion E; subst. world_simpl.
      unfold Prisma.userOf in Hu. apply find_some in Hu as [Hu _]. exact Hu. }
    apply greetsOnceAt_before.
    + right. exists user, w5. split; [ exact Hin | ].
      split; apply sameMail_refl.
    + intros result. destruct (EmailService.success result).
      * apply quiet_bind; [ apply quiet_newDate | intros sentAt; apply quiet_update ].
      * apply quiet_update.
  - intros e. unfold BirthdayService.releaseOwnLock.
    apply quiet_bind; [ apply quiet_updateMany | intros; apply quiet_ret ].
Qed.

Lemma greeting_requests :
  forall P user w,
    exists k,
      outbox (run (Spec.greeting P user) w)
      = (outbox w ++ repeat (Spec.greetingPayload user) k)%list
      /\ (k <= S (Z.to_nat (maxRetries (emailService w))))%nat
      /\ users (run (Spec.greeting P user) w) = users w
      /\ maxRetries (emailService (run (Spec.greeting P user) w))
         = maxRetries (emailService w).
Proof.
  intros P user w.
  unfold Spec.greeting, run, EmailService.sendBirthdayMessage, EmailService.sendEmail.
  set (message := EmailService.birthdayText
                    (User.firstName user ++ " " ++ User.lastName user)).
  destruct (sendEmailFrom_counts P (User.email user) message
              (Z.to_nat (maxRetries (emailService w) - 0)) 0 w)
    as [res [w' [k [E [Ho [Hk _]]]]]].
  destruct (sendEmailFrom_post P (User.email user) message
              (Z.to_nat (maxRetries (emailService w) - 0)) 0 w)
    as [res' [w'' [E' [[Hu [_ [_ [_ [_ [_ [Hmax _]]]]]]] _]]]].
  rewrite E in E' |- *. inversion E'; subst res' w''. cbn [snd].
  exists k. rewrite Z.sub_0_r in Hk. auto.
Qed.

(** The requests that the greetings of users of a table add. *)
Lemma processMessage_requests :
  forall P messageId w,
    exists extra,
      outbox (run (BirthdayService.processMessage P messageId) w)
      = (outbox w ++ extra)%list
      /\ (List.length extra <= S (Z.to_nat (maxRetries (emailService w))))%nat
      /\ Forall (fun p => exists user, In user (users w) /\ p = Spec.greetingPayload user)
           extra
      /\ users (run (BirthdayService.processMessage P messageId) w) = users w
      /\ maxRetries (emailService (run (BirthdayService.processMessage P messageId) w))
         = maxRetries (emailService w).
Proof.
  intros P messageId w.
  destruct (processMessage_greetsOnce P messageId w)
    as [[Hu [He [_ Ho]]] | [user [wl [Hin [[Hu [He [_ Ho]]] [Hu' [He' [_ Ho']]]]]]]].
  - exists []. rewrite app_nil_r. unfold run. rewrite He.
    repeat split; auto. cbn. lia.
  - destruct (greeting_requests P user wl) as [k [Hk [Hle [Hus Hmax]]]].
    exists (repeat (Spec.greetingPayload user) k). unfold run in *.
    rewrite Ho', Hk, Ho, repeat_length, Hu', Hus, Hu, He', Hmax, He.
    rewrite He in Hle.
    repeat split; auto.
    apply Forall_forall. intros p Hp. apply repeat_spec in Hp. now exists user.
Qed.

Lemma forOf_requests :
  forall P A (key : A -> string) (items : list A) w,
    exists extra,
      outbox (run (forOf items (fun x => BirthdayService.processMessage P (key x))) w)
      = (outbox w ++ extra)%list
      /\ (List.length extra
          <= List.length items * S (Z.to_nat (maxRetries (emailService w))))%nat
      /\ Forall (fun p => exists user, In user (users w) /\ p = Spec.greetingPayload user)
           extra.
Proof.
  intros P A key items; induction items as [ | x items IH ]; intros w.
  - exists []. rewrite app_nil_r. repeat split; auto.
  - destruct (processMessage_requests P (key x) w) as [e1 [Ho1 [Hl1 [Hf1 [Hu1 Hm1]]]]].
    unfold run in *. cbn [forOf]. unfold bind.
    destruct (BirthdayService.processMessage P (key x) w) as [[[] | e] w1];
      cbn [snd] in *.
    + destruct (IH w1) as [e2 [Ho2 [Hl2 Hf2]]].
      exists (e1 ++ e2)%list. rewrite Ho2, Ho1, <- app_assoc, length_app.
      rewrite Hm1 in Hl2. rewrite Hu1 in Hf2.
      split; [ reflexivity | ]. split; [ cbn [List.length]; lia | ].
      apply Forall_app. auto.
    + exists e1. split; [ exact Ho1 | ]. split; [ cbn [List.length]; lia | exact Hf1 ].
Qed.

(** X11. Whatever the database and the remote do, one run of
    [processPendingMessages] only adds requests to those made before; it
    adds at most [maxRetries + 1] requests for each row it selected as due,
    and each of them carries the greeting of a user of the table to that
    user's email address. *)
Theorem tick_requests_are_bounded :
  forall P w,
    exists extra,
      outbox (run (BirthdayService.processPendingMessages P) w)
      = (outbox w ++ extra)%list
      /\ (List.length extra
          <= List.length (filter (BirthdayService.isDue (now w)) (messageLogs w))
             * S (Z.to_nat (maxRetries (emailService w))))%nat
      /\ Forall (fun p => exists user, In user (users w) /\ p = Spec.greetingPayload user)
           extra.
Proof.
  intros P w. unfold run, BirthdayService.processPendingMessages, tryCatch.
  unfold bind at 1, newDate at 1.
  unfold bind at 1, Prisma.messageLog_findManyOrdered, Prisma.query.
  destruct (dbFault P (dbCalls w)).
  - exists []. cbn. rewrite app_nil_r. repeat split; auto. lia.
  - world_simpl.
    match goal with
    | |- context [ forOf ?items ?body ?wq ] =>
        destruct (forOf_requests P _ (fun m => MessageLog.id (fst m)) items wq)
          as [extra [Ho [Hl Hf]]];
        unfold run in Ho; destruct (forOf items body wq) as [[[] | e] w']
    end;
      cbn [snd throw] in Ho |- *; exists extra;
      rewrite length_map, orderByScheduledAt_length in Hl;
      (split; [ exact Ho | split; [ exact Hl | exact Hf ] ]).
Qed.

(** ** A tick while the email service answers *)

Lemma greeting_ok :
  forall P user w,
    ~ Spec.breakerOpen w ->
    Spec.failed (remote P (List.length (outbox w))) = false ->
    exists w',
      Spec.greeting P user w = (Return (EmailService.mkResult true None), w')
      /\ now w' = now w
      /\ circuitBreakerOpenUntil (emailService w') = None
      /\ outbox w' = (outbox w ++ [Spec.greetingPayload user])%list.
Proof.
  intros P user w Hclosed Hok.
  unfold Spec.greeting, EmailService.sendBirthdayMessage, EmailService.sendEmail.
  match goal with
  | |- context [ EmailService.sendEmailFrom P ?b ?email ?message 0 w ] =>
      destruct (sendEmailFrom_step P b email message 0 w)
        as [[Hopen _] | [[_ [_ E]] | [[_ [Hf _]] | [_ [Hf _]]]]]
  end; try contradiction; try congruence.
  rewrite E. eexists; split; [ reflexivity | ].
  destruct (halfOpened_closed w Hclosed) as [_ [_ [Hn [Ho [_ Hu]]]]].
  unfold run, EmailService.updateMetrics, Spec.requested. cbn [snd]. world_simpl.
  rewrite Hn, Ho, Hu. repeat split.
Qed.

Lemma processMessage_keeps_closed :
  forall P messageId w,
    (forall n, Spec.failed (remote P n) = false) ->
    ~ Spec.breakerOpen w ->
    ~ Spec.breakerOpen (run (BirthdayService.processMessage P messageId) w)
    /\ now (run (BirthdayService.processMessage P messageId) w) = now w.
Proof.
  intros P messageId w Hall Hclosed. unfold run.
  destruct (processMessage_greetsOnce P messageId w)
    as [[_ [He [Hn _]]] | [user [wl [_ [[_ [He [Hn Ho]]] [_ [He' [Hn' _]]]]]]]].
  - split; [ | exact Hn ].
    intros [u [Hu Hlt]]. apply Hclosed. exists u. rewrite <- He, <- Hn. auto.
  - destruct (greeting_ok P user wl) as [ws [E [Hns [Hus _]]]].
    + intros [u [Hu Hlt]]. apply Hclosed. exists u. rewrite <- He, <- Hn. auto.
    + apply Hall.
    + unfold run in He', Hn'. rewrite E in He', Hn'. cbn [snd] in He', Hn'.
      split; [ | congruence ].
      intros [u [Hu _]]. rewrite He', Hus in Hu. discriminate.
Qed.

Lemma forOf_keeps_closed :
  forall P A (key : A -> string) (items : list A) w,
    (forall n, Spec.failed (remote P n) = false) ->
    ~ Spec.breakerOpen w ->
    ~ Spec.breakerOpen
        (run (forOf items (fun x => BirthdayService.processMessage P (key x))) w)
    /\ now (run (forOf items (fun x => BirthdayService.processMessage P (key x))) w)
       = now w.
Proof.
  intros P A key items; induction items as [ | x items IH ]; intros w Hall Hclosed.
  - split; [ exact Hclosed | reflexivity ].
  - destruct (processMessage_keeps_closed P (key x) w Hall Hclosed) as [Hc Hn].
    unfold run in *. cbn [forOf]. unfold bind.
    destruct (BirthdayService.processMessage P (key x) w) as [[[] | e] w1];
      cbn [snd] in *; [ | auto ].
    destruct (IH w1 Hall Hc) as [Hc' Hn']. split; [ exact Hc' | congruence ].
Qed.

Lemma forOf_returns :
  forall P A (key : A -> string) (items : list A) w,
    Spec.reliableDb P ->
    exists w',
      forOf items (fun x => BirthdayService.processMessage P (key x)) w = (Return tt, w').
Proof.
  intros P A key items; induction items as [ | x items IH ]; intros w HP.
  - eexists; reflexivity.
  - cbn [forOf]. unfold bind.
    destruct (processMessage_returns P (key x) HP w) as [[] Hr].
    destruct (BirthdayService.processMessage P (key x) w) as [c w1].
    cbn [fst] in Hr. subst c. apply IH. exact HP.
Qed.

Lemma processMessage_delivers_ok :
  forall P messageId w r user,
    Spec.reliableDb P ->
    Spec.failed (remote P (List.length (outbox w))) = false ->
    ~ Spec.breakerOpen w ->
    Spec.rowOf messageId w = Some r ->
    BirthdayService.lockFree (now w) r = true ->
    Prisma.userOf (users w) r = Some user ->
    exists w',
      BirthdayService.processMessage P messageId w = (Return tt, w')
      /\ Spec.rowOf messageId w' = Some (MessageLog.sentData (now w) r)
      /\ outbox w' = (outbox w ++ [Spec.greetingPayload user])%list.
Proof.
  intros P messageId w r user HP Hok Hclosed Hrow Hfree Huser.
  destruct (processMessage_delivers P messageId w r user HP Hrow Hfree Huser)
    as [wl [res [ws [w' [Hn [Ho [He [Esend [_ [E [Ho' [_ [_ Hrow']]]]]]]]]]]]].
  destruct (greeting_ok P user wl) as [ws' [E' [Hns [_ Hos]]]].
  - intros [u [Hu Hlt]]. apply Hclosed. exists u. rewrite <- He, <- Hn. auto.
  - rewrite Ho. exact Hok.
  - unfold Spec.greeting in E'. rewrite E' in Esend.
    inversion Esend; subst res ws'.
    exists w'. split; [ exact E | ].
    split; [ rewrite Hrow'; cbn [EmailService.success]; congruence | congruence ].
Qed.

(** X12. A tick while the database and the email service answer: with the
    breaker closed at the start and every request answered 2xx, the tick
    returns without waiting, and every row that was due and whose user
    exists is SENT afterwards, stamped with the instant of the tick and
    unlocked; the greeting of its user is among the requests made. *)
Theorem tick_sends_due_messages :
  forall P w,
    Spec.reliableDb P ->
    (forall n, Spec.failed (remote P n) = false) ->
    Spec.uniqueIds w ->
    ~ Spec.breakerOpen w ->
    exists w',
      BirthdayService.processPendingMessages P w = (Return tt, w')
      /\ now w' = now w
      /\ forall messageId r user,
           Spec.rowOf messageId w = Some r ->
           BirthdayService.isDue (now w) r = true ->
           Prisma.userOf (users w) r = Some user ->
           Spec.rowOf messageId w' = Some (MessageLog.sentData (now w) r)
           /\ In (Spec.greetingPayload user) (outbox w').
Proof.
  intros P w HP Hall Hnd Hclosed.
  rewrite processPendingMessages_unfold by exact HP. unfold tryCatch.
  set (due := Prisma.orderByScheduledAt
                (filter (BirthdayService.isDue (now w)) (messageLogs w))).
  set (wq := setDbCalls (S (dbCalls w)) w).
  set (body := fun m : MessageLog.t * option User.t =>
                 BirthdayService.processMessage P (MessageLog.id (fst m))).
  set (items := fun l : list MessageLog.t =>
                  map (fun r => (r, Prisma.userOf (users w) r)) l).
  change (map (fun r => (r, Prisma.userOf (users w) r)) due) with (items due).
  destruct (forOf_returns P _ (fun m => MessageLog.id (fst m)) (items due) wq HP)
    as [w' E].
  fold body in E. rewrite E. exists w'. split; [ reflexivity | ].
  assert (~ Spec.breakerOpen wq) as Hclosedq by exact Hclosed.
  split.
  { pose proof (forOf_keeps_closed P _ (fun m => MessageLog.id (fst m)) (items due) wq
                  Hall Hclosedq) as [_ Hn].
    unfold run in Hn. fold body in Hn. rewrite E in Hn. exact Hn. }
  intros messageId r user Hr Hdue Huser.
  assert (In messageId (map MessageLog.id due)) as Hin
    by (apply (dueIds_In _ _ _ r Hnd Hr); exact Hdue).
  assert (NoDup (map MessageLog.id due)) as Hdd by (apply dueIds_NoDup; exact Hnd).
  apply in_map_iff in Hin as [x [Hx Hin]].
  apply in_split in Hin as [l1 [l2 Hsplit]].
  rewrite Hsplit in Hdd, E. rewrite map_app in Hdd. cbn [map] in Hdd.
  apply NoDup_remove_2 in Hdd. rewrite Hx in Hdd.
  unfold items in E. rewrite map_app in E. cbn [map] in E.
  fold (items l1) in E. fold (items l2) in E.
  rewrite forOf_app in E. unfold bind at 1 in E.
  destruct (forOf_others P messageId (items l1) wq HP) as [w1 [E1 Hf1]].
  { unfold items. rewrite dueItems_ids. intros H. apply Hdd. apply in_or_app. now left. }
  fold body in E1. rewrite E1 in E. cbn [forOf] in E. unfold bind at 1 in E.
  unfold body at 1 in E. cbn [fst] in E. rewrite Hx in E.
  pose proof (forOf_keeps_closed P _ (fun m => MessageLog.id (fst m)) (items l1) wq
                Hall Hclosedq) as [Hc1 Hn1].
  unfold run in Hc1, Hn1. fold body in Hc1, Hn1. rewrite E1 in Hc1, Hn1.
  cbn [snd] in Hc1, Hn1.
  change (now wq) with (now w) in Hn1.
  destruct Hf1 as [Hr1 [Hu1 _]].
  change (Spec.rowOf messageId wq) with (Spec.rowOf messageId w) in Hr1.
  change (users wq) with (users w) in Hu1.
  destruct (processMessage_delivers_ok P messageId w1 r user HP (Hall _) Hc1)
    as [w2 [E2 [Hr2 Ho2]]].
  { rewrite Hr1. exact Hr. }
  { rewrite Hn1. apply andb_true_iff in Hdue as [_ Hfree]. exact Hfree. }
  { rewrite Hu1. exact Huser. }
  rewrite E2 in E.
  destruct (forOf_others P messageId (items l2) w2 HP) as [w3 [E3 [Hr3 _]]].
  { unfold items. rewrite dueItems_ids. intros H. apply Hdd. apply in_or_app. now right. }
  fold body in E3. rewrite E3 in E. inversion E; subst w3.
  split; [ rewrite Hr3, Hr2, Hn1; reflexivity | ].
  destruct (forOf_requests P _ (fun m => MessageLog.id (fst m)) (items l2) w2)
    as [extra [Ho3 _]].
  unfold run in Ho3. fold body in Ho3. rewrite E3 in Ho3. cbn [snd] in Ho3.
  rewrite Ho3, Ho2. apply in_or_app. left. apply in_or_app. right. now left.
Qed.

Lemma tick_sends_due_messages_witness :
  exists w',
    BirthdayService.processPendingMessages Scenario.always200 Scenario.twoDueWorld
    = (Return tt, w')
    /\ Spec.progress "msg-1" w' = Some (SENT, 0)
    /\ Spec.progress "msg-2" w' = Some (SENT, 0)
    /\ In (Spec.greetingPayload Scenario.jane) (outbox w').
Proof.
  destruct (tick_sends_due_messages Scenario.always200 Scenario.twoDueWorld)
    as [w' [E [_ H]]].
  - intros n. reflexivity.
  - intros n. reflexivity.
  - unfold Spec.uniqueIds. cbn. repeat constructor; cbn; intuition discriminate.
  - intros [u [Hu _]]. discriminate.
  - exists w'. split; [ exact E | ].
    destruct (H "msg-1" (Scenario.row "msg-1" "user-1" PENDING None None None)
                Scenario.john eq_refl eq_refl eq_refl) as [H1 _].
    destruct (H "msg-2" (Scenario.row "msg-2" "user-2" RETRY None (Some "stale")
                           (Some Scenario.nineLocal))
                Scenario.jane eq_refl eq_refl eq_refl) as [H2 Hin].
    unfold Spec.progress. rewrite H1, H2. repeat split. exact Hin.
Defined.

(** ** What the materialiser writes *)

Lemma greetLoop_creates :
  forall P us w,
    (forall u, In u us -> In u (users w) /\ User.isActive u = true) ->
    exists w' extra,
      forOf us (Spec.greetIfBirthday P) w = (Return tt, w')
      /\ messageLogs w' = (messageLogs w ++ extra)%list
      /\ Forall (fun r => exists user,
                   In user (users w) /\ User.isActive user = true
                   /\ Spec.birthdayToday P user (now w) = true
                   /\ Spec.createdFor P (now w) user r) extra
      /\ users w' = users w /\ now w' = now w /\ outbox w' = outbox w
      /\ emailService w' = emailService w.
Proof.
  intros P us; induction us as [ | u us IH ]; intros w Hus.
  - exists w, []. rewrite app_nil_r. repeat split; auto.
  - cbn [forOf]. unfold bind at 1, Spec.greetIfBirthday at 1.
    unfold bind at 1. rewrite isBirthdayToday_eq.
    destruct (Hus u (or_introl eq_refl)) as [Hin Hact].
    destruct (Spec.birthdayToday P u (now w)) eqn:Hb.
    + destruct (ensureBirthdayMessage_cases P u w)
        as [w1 [E1 [Hu1 [Hn1 [Ho1 [He1 [_ Hl1]]]]]]].
      rewrite E1.
      destruct (IH w1) as [w' [extra [E [Hl [Hf [Hu [Hn [Ho He]]]]]]]].
      { intros v Hv. rewrite Hu1. apply Hus. now right. }
      rewrite Hu1, Hn1 in Hf.
      destruct Hl1 as [Hl1 | [at_ [Hat [_ [_ Hl1]]]]].
      * exists w', extra. split; [ exact E | ].
        split; [ congruence | ]. split; [ exact Hf | ]. repeat split; congruence.
      * exists w', (Spec.greetingRow P u w at_ :: extra).
        split; [ exact E | ].
        split; [ rewrite Hl, Hl1, <- app_assoc; reflexivity | ].
        split; [ | repeat split; congruence ].
        constructor; [ | exact Hf ].
        exists u. repeat split; auto.
    + unfold ret.
      destruct (IH w) as [w' [extra [E [Hl [Hf [Hu [Hn [Ho He]]]]]]]].
      { intros v Hv. apply Hus. now right. }
      exists w', extra. auto 10.
Qed.

Lemma createBirthdayMessages_creates :
  forall P w,
    exists c w' extra,
      BirthdayService.createBirthdayMessages P w = (c, w')
      /\ messageLogs w' = (messageLogs w ++ extra)%list
      /\ Forall (fun r => exists user,
                   In user (users w) /\ User.isActive user = true
                   /\ Spec.birthdayToday P user (now w) = true
                   /\ Spec.createdFor P (now w) user r) extra
      /\ users w' = users w /\ now w' = now w /\ outbox w' = outbox w
      /\ emailService w' = emailService w.
Proof.
  intros P w. unfold BirthdayService.createBirthdayMessages.
  unfold tryCatch, bind at 1, Prisma.user_findMany, Prisma.query.
  destruct (dbFault P (dbCalls w)).
  - do 2 eexists. exists []. split; [ reflexivity | ].
    world_simpl. rewrite app_nil_r. repeat split; auto.
  - destruct (greetLoop_creates P (filter User.isActive (users w))
                (setDbCalls (S (dbCalls w)) w))
      as [w' [extra [E [Hl [Hf [Hu [Hn [Ho He]]]]]]]].
    { intros u Hu. apply filter_In in Hu. exact Hu. }
    change (fun user : User.t =>
              today <- BirthdayService.isBirthdayToday P (User.birthday user)
                         (User.timezone user) ;;
              (if today : bool then BirthdayService.ensureBirthdayMessage P user
               else ret tt))
      with (Spec.greetIfBirthday P).
    world_simpl. rewrite E. do 2 eexists. exists extra.
    split; [ reflexivity | ]. auto 10.
Qed.

(** X13. Whatever the database does, a run of [createBirthdayMessages]
    only appends rows: every row that was there stays as it is, and every
    new row is the PENDING greeting of an active user of the table whose
    birthday falls on the current civil date of the user's zone, made out
    in the user's name for that date and its send-at instant. The run
    sends nothing and changes no user. *)
Theorem materialiser_creates_only_birthday_greetings :
  forall P t w,
    exists extra,
      messageLogs (Spec.materialise P t w) = (messageLogs w ++ extra)%list
      /\ Forall (fun r => exists user,
                   In user (users w) /\ User.isActive user = true
                   /\ Spec.birthdayToday P user t = true
                   /\ Spec.createdFor P t user r) extra
      /\ users (Spec.materialise P t w) = users w
      /\ outbox (Spec.materialise P t w) = outbox w
      /\ emailService (Spec.materialise P t w) = emailService w.
Proof.
  intros P t w. unfold Spec.materialise, run.
  destruct (createBirthdayMessages_creates P (setNow t w))
    as [c [w' [extra [E [Hl [Hf [Hu [_ [Ho He]]]]]]]]].
  rewrite E. cbn [snd]. exists extra. auto.
Qed.

(** ** The calendar *)

Lemma doe_range :
  forall z, 0 <= z - z / 146097 * 146097 < 146097.
Proof. intros z. Z.to_euclidean_division_equations; lia. Qed.

Lemma yoe_range :
  forall doe,
    0 <= doe < 146097 ->
    0 <= (doe - doe / 1460 + doe / 36524 - doe / 146096) / 365 <= 399.
Proof. intros doe H. Z.to_euclidean_division_equations; lia. Qed.

Lemma doy_range :
  forall doe,
    0 <= doe < 146097 ->
    let yoe := (doe - doe / 1460 + doe / 36524 - doe / 146096) / 365 in
    0 <= doe - (365 * yoe + yoe / 4 - yoe / 100) <= 365.
Proof. intros doe H. cbv zeta. Z.to_euclidean_division_equations; lia. Qed.

Lemma doy_last :
  forall doe,
    0 <= doe < 146097 ->
    let yoe := (doe - doe / 1460 + doe / 36524 - doe / 146096) / 365 in
    doe - (365 * yoe + yoe / 4 - yoe / 100) = 365 ->
    (yoe + 1) mod 4 = 0 /\ ((yoe + 1) mod 100 <> 0 \/ yoe = 399).
Proof. intros doe H. cbv zeta. Z.to_euclidean_division_equations; lia. Qed.

Lemma leapYear_of_era :
  forall yoe era,
    0 <= yoe <= 399 ->
    (yoe + 1) mod 4 = 0 -> ((yoe + 1) mod 100 <> 0 \/ yoe = 399) ->
    Moment.isLeapYear (yoe + era * 400 + 1) = true.
Proof.
  intros yoe era Hy H4 H100. unfold Moment.isLeapYear.
  assert ((yoe + era * 400 + 1) mod 4 = 0) as ->
    by (Z.to_euclidean_division_equations; lia).
  destruct H100 as [H100 | ->].
  - assert ((yoe + era * 400 + 1) mod 100 <> 0) as Hne
      by (Z.to_euclidean_division_equations; lia).
    apply Z.eqb_neq in Hne. rewrite Hne. reflexivity.
  - assert ((399 + era * 400 + 1) mod 400 = 0) as ->
      by (Z.to_euclidean_division_equations; lia).
    cbn. apply orb_true_r.
Qed.

Lemma validCivil_intro :
  forall y m d,
    1 <= m <= 12 -> 1 <= d <= Moment.daysInMonth y m ->
    Moment.validCivil (Moment.mkCivil y m d) = true.
Proof.
  intros y m d Hm Hd. unfold Moment.validCivil.
  cbn [Moment.year Moment.monthOfYear Moment.dayOfMonth].
  repeat (apply andb_true_iff; split); apply Z.leb_le; lia.
Qed.

(** Every day number is a date of the calendar. *)
Lemma civilFromDays_valid :
  forall n, Moment.validCivil (Moment.civilFromDays n) = true.
Proof.
  intros n. unfold Moment.civilFromDays. cbv zeta.
  set (z := n + 719468). set (era := z / 146097).
  set (doe := z - era * 146097).
  pose proof (doe_range z) as Hdoe. fold era in Hdoe. fold doe in Hdoe.
  pose proof (yoe_range doe Hdoe) as Hyoe.
  pose proof (doy_range doe Hdoe) as Hdoy.
  pose proof (doy_last doe Hdoe) as Hlast. cbv zeta in Hdoy, Hlast.
  set (yoe := (doe - doe / 1460 + doe / 36524 - doe / 146096) / 365) in *.
  set (doy := doe - (365 * yoe + yoe / 4 - yoe / 100)) in *.
  set (mp := (5 * doy + 2) / 153).
  assert (0 <= mp <= 11) as Hmp
    by (unfold mp; Z.to_euclidean_division_equations; lia).
  assert (mp = (5 * doy + 2) / 153) as Hmpdef by reflexivity.
  clearbody mp.
  assert (doy = 365 -> Moment.isLeapYear (yoe + era * 400 + 1) = true) as Hleap.
  { intros H. destruct (Hlast H) as [H4 H100]. now apply leapYear_of_era. }
  clear Hlast. clearbody doy. clearbody yoe. clearbody era.
  assert (mp = 0 \/ mp = 1 \/ mp = 2 \/ mp = 3 \/ mp = 4 \/ mp = 5 \/ mp = 6
          \/ mp = 7 \/ mp = 8 \/ mp = 9 \/ mp = 10 \/ mp = 11) as Hcases by lia.
  destruct Hcases as [-> | [-> | [-> | [-> | [-> | [-> | [-> | [-> | [-> | [->
    | [-> | ->]]]]]]]]]]];
    match goal with
    | |- context [ if ?k <? 10 then ?a else ?b ] =>
        let v := eval vm_compute in (if k <? 10 then a else b) in
        change (if k <? 10 then a else b) with v
    end;
    match goal with
    | |- context [ doy - ?c / 5 + 1 ] =>
        let v := eval vm_compute in (c / 5) in
        change (c / 5) with v
    end;
    match goal with
    | |- context [ if ?m <=? 2 then ?a else ?b ] =>
        let v := eval vm_compute in (m <=? 2) in
        change (if m <=? 2 then a else b) with (if v then a else b)
    end;
    cbv iota;
    (apply validCivil_intro; [ lia | ]).
  1-11: (match goal with
         | |- _ <= _ <= ?x => let v := eval vm_compute in x in change x with v
         end;
         Z.to_euclidean_division_equations; lia).
  assert (337 <= doy <= 365) as Hfeb by (Z.to_euclidean_division_equations; lia).
  unfold Moment.daysInMonth. change (2 =? 2) with true. cbv iota.
  destruct (Z.eq_dec doy 365) as [H365 | H365].
  - rewrite (Hleap H365). lia.
  - destruct (Moment.isLeapYear _); lia.
Qed.

Lemma zeroFill4_table :
  forallb (fun k =>
             match Moment.zeroFill (Z.of_nat k) 4 with
             | String a (String b (String c (String d EmptyString))) =>
                 match Moment.digits2 a b, Moment.digits2 c d with
                 | Some h, Some l => 100 * h + l =? Z.of_nat k
                 | _, _ => false
                 end
             | _ => false
             end) (seq 0 (Z.to_nat 10000)) = true.
Proof. vm_compute. reflexivity. Qed.

Lemma zeroFill2_table :
  forallb (fun k =>
             match Moment.zeroFill (Z.of_nat k) 2 with
             | String a (String b EmptyString) =>
                 match Moment.digits2 a b with
                 | Some v => v =? Z.of_nat k
                 | None => false
                 end
             | _ => false
             end) (seq 0 100) = true.
Proof. vm_compute. reflexivity. Qed.

Lemma zeroFill4_digits :
  forall y,
    0 <= y <= 9999 ->
    exists a b c d h l,
      Moment.zeroFill y 4 = String a (String b (String c (String d EmptyString)))
      /\ Moment.digits2 a b = Some h /\ Moment.digits2 c d = Some l
      /\ 100 * h + l = y.
Proof.
  intros y Hy. pose proof zeroFill4_table as H.
  rewrite forallb_forall in H. specialize (H (Z.to_nat y)).
  rewrite Z2Nat.id in H by lia.
  assert (In (Z.to_nat y) (seq 0 (Z.to_nat 10000))) as Hin by (apply in_seq; lia).
  specialize (H Hin).
  destruct (Moment.zeroFill y 4) as [ | a [ | b [ | c [ | d [ | ] ] ] ] ];
    try discriminate.
  destruct (Moment.digits2 a b) as [ h | ] eqn:Eh; [ | discriminate ].
  destruct (Moment.digits2 c d) as [ l | ] eqn:El; [ | discriminate ].
  apply Z.eqb_eq in H. exists a, b, c, d, h, l. auto.
Qed.

Lemma zeroFill2_digits :
  forall v,
    0 <= v <= 99 ->
    exists a b,
      Moment.zeroFill v 2 = String a (String b EmptyString)
      /\ Moment.digits2 a b = Some v.
Proof.
  intros v Hv. pose proof zeroFill2_table as H.
  rewrite forallb_forall in H. specialize (H (Z.to_nat v)).
  rewrite Z2Nat.id in H by lia.
  assert (In (Z.to_nat v) (seq 0 100)) as Hin by (apply in_seq; lia).
  specialize (H Hin).
  destruct (Moment.zeroFill v 2) as [ | a [ | b [ | ] ] ]; try discriminate.
  destruct (Moment.digits2 a b) as [ x | ] eqn:Ex; [ | discriminate ].
  apply Z.eqb_eq in H. subst x. exists a, b. auto.
Qed.

Lemma daysInMonth_le : forall y m, Moment.daysInMonth y m <= 31.
Proof.
  intros y m. unfold Moment.daysInMonth.
  destruct (m =? 2); [ destruct (Moment.isLeapYear y); lia | ].
  destruct (_ || _); lia.
Qed.

(** [format('YYYY-MM-DD')] of a date of the years 0 to 9999 reads back as
    that date. *)
Lemma parseYMD_formatYMD :
  forall c,
    Moment.validCivil c = true -> 0 <= Moment.year c <= 9999 ->
    Moment.parseYMD (Moment.formatYMD c) = Some c.
Proof.
  intros [y m d] Hvalid Hy. cbn [Moment.year] in Hy.
  pose proof Hvalid as Hv. unfold Moment.validCivil in Hv.
  cbn [Moment.year Moment.monthOfYear Moment.dayOfMonth] in Hv.
  apply andb_true_iff in Hv as [Hv Hd2]. apply andb_true_iff in Hv as [Hv Hd1].
  apply andb_true_iff in Hv as [Hm1 Hm2].
  apply Z.leb_le in Hm1, Hm2, Hd1, Hd2. pose proof (daysInMonth_le y m).
  destruct (zeroFill4_digits y Hy) as [a [b [c [e [h [l [Ey [Eh [El Hval]]]]]]]]].
  destruct (zeroFill2_digits m) as [m1 [m2 [Em Emv]]]; [ lia | ].
  destruct (zeroFill2_digits d) as [d1 [d2 [Ed Edv]]]; [ lia | ].
  unfold Moment.formatYMD. cbn [Moment.year Moment.monthOfYear Moment.dayOfMonth].
  rewrite Ey, Em, Ed. cbn [append]. unfold Moment.parseYMD.
  rewrite Eh, El, Emv, Edv, Hval. cbv zeta.
  change (Moment.isDash "-") with true. cbn [andb]. rewrite Hvalid. reflexivity.
Qed.

Lemma civilOf_valid : forall m, Moment.validCivil (Moment.civilOf m) = true.
Proof. intros m. apply civilFromDays_valid. Qed.

(** The send-at instant of the current civil date of a zone is a date. *)
Lemma getScheduledTime_today :
  forall P user t,
    0 <= Moment.year (Moment.civilDate (BirthdayService.zoneOf P (User.timezone user)) t)
      <= 9999 ->
    exists at_,
      BirthdayService.getScheduledTime P (User.timezone user) (Spec.todayOf P user t)
      = Some at_.
Proof.
  intros P user t Hy.
  unfold BirthdayService.getScheduledTime, Moment.tzDate, Spec.todayOf, Moment.format.
  rewrite parseYMD_formatYMD; [ | apply civilOf_valid | exact Hy ].
  eexists; reflexivity.
Qed.

(** X14. After a run of [createBirthdayMessages] in which the database
    answers and the identifiers drawn are new, every active user whose
    birthday falls on the current civil date of the user's zone (a date of
    the years 0 to 9999) has a BIRTHDAY row for that date. *)
Theorem materialiser_greets_every_birthday :
  forall P t w user,
    Spec.reliableDb P ->
    Spec.freshIdentifiers P w ->
    In user (users w) ->
    User.isActive user = true ->
    Spec.birthdayToday P user t = true ->
    0 <= Moment.year (Moment.civilDate (BirthdayService.zoneOf P (User.timezone user)) t)
      <= 9999 ->
    exists r,
      In r (messageLogs (Spec.materialise P t w))
      /\ MessageLog.userId r = User.id user
      /\ MessageLog.messageType r = BIRTHDAY
      /\ MessageLog.scheduledDate r = Spec.todayOf P user t.
Proof.
  intros P t w user HP Hfresh Hin Hact Hb Hy.
  destruct (materialise_serves P t w HP Hfresh) as [_ Hs].
  destruct (Hs user Hin Hact Hb) as [Hg | Hnone].
  - apply hasGreeting_In, in_map_iff in Hg as [r [Hkey Hr]].
    exists r. unfold Spec.keyOf in Hkey. inversion Hkey. auto.
  - destruct (getScheduledTime_today P user t Hy) as [at_ Hat]. congruence.
Qed.

Lemma materialiser_greets_every_birthday_witness :
  exists r,
    In r (messageLogs (Spec.materialise Scenario.always200 (Scenario.utc 2026 5 15 6 0)
                         Scenario.birthdayMorning))
    /\ MessageLog.userId r = "user-1"
    /\ MessageLog.messageType r = BIRTHDAY
    /\ MessageLog.scheduledDate r = "2026-05-15".
Proof.
  apply (materialiser_greets_every_birthday Scenario.always200
           (Scenario.utc 2026 5 15 6 0) Scenario.birthdayMorning Scenario.john).
  - intros n; reflexivity.
  - split; [ exact ids_injective | intros n _ H; exact H ].
  - left; reflexivity.
  - reflexivity.
  - vm_compute; reflexivity.
  - vm_compute. split; discriminate.
Defined.

(** X15. A birthday on 29 February matches no day of a year that is not a
    leap year: [isBirthdayToday] answers false at every instant whose civil
    date in the user's zone falls in such a year, 28 February and 1 March
    included. *)
Theorem isBirthdayToday_skips_leap_day_in_common_years :
  forall P birthday timezone w birthDate,
    Moment.parseYMD birthday = Some birthDate ->
    Moment.monthOfYear birthDate = 2 ->
    Moment.dayOfMonth birthDate = 29 ->
    Moment.isLeapYear
      (Moment.year (Moment.civilDate (BirthdayService.zoneOf P timezone) (now w)))
    = false ->
    BirthdayService.isBirthdayToday P birthday timezone w = (Return false, w).
Proof.
  intros P birthday timezone w birthDate Hparse Hm Hd Hcommon.
  unfold BirthdayService.isBirthdayToday. rewrite Hparse, Hm, Hd.
  unfold Moment.month, Moment.date.
  fold (Moment.civilDate (BirthdayService.zoneOf P timezone) (now w)).
  pose proof (civilOf_valid (Moment.tzNow (BirthdayService.zoneOf P timezone) (now w)))
    as Hvalid.
  fold (Moment.civilDate (BirthdayService.zoneOf P timezone) (now w)) in Hvalid.
  set (c := Moment.civilDate (BirthdayService.zoneOf P timezone) (now w)) in *.
  unfold Moment.validCivil, Moment.daysInMonth in Hvalid. rewrite Hcommon in Hvalid.
  f_equal. f_equal. apply andb_false_iff.
  destruct (Z.eq_dec (Moment.monthOfYear c) 2) as [H2 | H2].
  - right. rewrite H2 in Hvalid. change (2 =? 2) with true in Hvalid. cbv iota in Hvalid.
    apply andb_true_iff in Hvalid as [_ Hle]. apply Z.leb_le in Hle.
    apply Z.eqb_neq. lia.
  - left. apply Z.eqb_neq. lia.
Qed.

Lemma isBirthdayToday_skips_leap_day_in_common_years_witness :
  fst (BirthdayService.isBirthdayToday Scenario.always200 "2000-02-29"
         "America/New_York" (Scenario.world (Scenario.utc 2026 2 28 17 0) [] []))
  = Return false
  /\ fst (BirthdayService.isBirthdayToday Scenario.always200 "2000-02-29"
            "America/New_York" (Scenario.world (Scenario.utc 2026 3 1 17 0) [] []))
     = Return false.
Proof.
  split.
  - rewrite (isBirthdayToday_skips_leap_day_in_common_years Scenario.always200
               "2000-02-29" "America/New_York"
               (Scenario.world (Scenario.utc 2026 2 28 17 0) [] [])
               (Moment.mkCivil 2000 2 29));
      reflexivity.
  - rewrite (isBirthdayToday_skips_leap_day_in_common_years Scenario.always200
               "2000-02-29" "America/New_York"
               (Scenario.world (Scenario.utc 2026 3 1 17 0) [] [])
               (Moment.mkCivil 2000 2 29));
      reflexivity.
Defined.

(** * The users *)

Lemma find_In_some :
  forall A (f : A -> bool) l x,
    In x l -> f x = true -> exists y, find f l = Some y.
Proof.
  intros A f l x Hin Hf. destruct (find f l) as [ y | ] eqn:E; [ now exists y | ].
  rewrite (find_none _ _ E x Hin) in Hf. discriminate.
Qed.

Lemma find_none_iff :
  forall A (f : A -> bool) l,
    (forall x, In x l -> f x = false) -> find f l = None.
Proof.
  intros A f l H. induction l as [ | y l IH ]; [ reflexivity | ]. cbn.
  rewrite (H y (or_introl eq_refl)). apply IH. intros x Hx. apply H. now right.
Qed.

Lemma existsb_none :
  forall A (f : A -> bool) l,
    (forall x, In x l -> f x = false) -> existsb f l = false.
Proof.
  intros A f l H. induction l as [ | y l IH ]; [ reflexivity | ]. cbn.
  rewrite (H y (or_introl eq_refl)). apply IH. intros x Hx. apply H. now right.
Qed.

Lemma find_app_last :
  forall A (f : A -> bool) l x,
    (forall y, In y l -> f y = false) -> f x = true -> find f (l ++ [x]) = Some x.
Proof.
  intros A f l x H Hx. induction l as [ | y l IH ]; cbn.
  - now rewrite Hx.
  - rewrite (H y (or_introl eq_refl)). apply IH. intros z Hz. apply H. now right.
Qed.

(** X16. [createUser] with an email address that a user of the table has:
    the call throws "User with this email already exists", draws no
    identifier and leaves both tables as they are. *)
Theorem createUser_rejects_duplicate_email :
  forall P userData w existing,
    dbFault P (dbCalls w) = false ->
    In existing (users w) ->
    User.email existing = UserService.email userData ->
    exists w',
      UserService.createUser P userData w
      = (Throw "User with this email already exists", w')
      /\ users w' = users w
      /\ messageLogs w' = messageLogs w
      /\ uuidCalls w' = uuidCalls w.
Proof.
  intros P userData w existing Hdb Hin Hemail.
  unfold UserService.createUser, tryCatch, bind, Prisma.user_findUniqueByEmail,
    Prisma.query.
  rewrite Hdb. world_simpl.
  destruct (find_In_some _ (Prisma.userHasEmail (UserService.email userData))
              (users w) existing Hin) as [y Hy].
  { unfold Prisma.userHasEmail. rewrite Hemail. apply String.eqb_refl. }
  rewrite Hy. cbn. eexists; split; [ reflexivity | ]. repeat split.
Qed.

Lemma createUser_rejects_duplicate_email_witness :
  exists w',
    UserService.createUser Scenario.always200 Scenario.janeSignsUp Scenario.twoUsersWorld
    = (Throw "User with this email already exists", w')
    /\ users w' = [Scenario.john; Scenario.jane].
Proof.
  destruct (createUser_rejects_duplicate_email Scenario.always200 Scenario.janeSignsUp
              Scenario.twoUsersWorld Scenario.jane)
    as [w' [E [Hu _]]].
  - reflexivity.
  - right; left; reflexivity.
  - reflexivity.
  - exists w'. split; [ exact E | exact Hu ].
Defined.

(** X17. [createUser] with an email address that no user has, when the
    database answers, the identifier drawn is new and the columns fit: the
    user returned has the fields given, is active, and carries the current
    instant in [createdAt] and [updatedAt]; it is appended to [users], no
    other row changes, and [getUserById] of its identifier gives it back. *)
Theorem createUser_stores_the_user :
  forall P userData w,
    Spec.reliableDb P ->
    (forall u, In u (users w) -> User.email u <> UserService.email userData) ->
    (forall u, In u (users w) -> User.id u <> uuid P (uuidCalls w)) ->
    Spec.fitsUser userData ->
    exists u w',
      UserService.createUser P userData w = (Return u, w')
      /\ u = User.mk (uuid P (uuidCalls w)) (UserService.firstName userData)
               (UserService.lastName userData) (UserService.email userData)
               (UserService.birthday userData) (UserService.timezone userData)
               true (now w) (now w)
      /\ users w' = (users w ++ [u])%list
      /\ messageLogs w' = messageLogs w
      /\ fst (UserService.getUserById P (User.id u) w') = Return (Some u).
Proof.
  intros P userData w HP Hemail Hid [Hf1 [Hf2 [Hf3 [Hf4 Hf5]]]].
  unfold UserService.createUser, tryCatch, bind, Prisma.user_findUniqueByEmail,
    Prisma.query.
  rewrite HP. world_simpl.
  rewrite find_none_iff
    by (intros x Hx; apply String.eqb_neq; now apply Hemail).
  unfold Prisma.user_create, Prisma.query. rewrite HP. world_simpl.
  rewrite existsb_none
    by (intros x Hx; apply String.eqb_neq; now apply Hid).
  rewrite existsb_none
    by (intros x Hx; apply String.eqb_neq; now apply Hemail).
  unfold Prisma.fitsColumns. cbn [User.firstName User.lastName User.email
                                   User.birthday User.timezone].
  apply Nat.leb_le in Hf1, Hf2, Hf3, Hf4, Hf5.
  rewrite Hf1, Hf2, Hf3, Hf4, Hf5. cbn [andb negb].
  do 2 eexists. split; [ reflexivity | ]. split; [ reflexivity | ].
  world_simpl. split; [ reflexivity | ]. split; [ reflexivity | ].
  unfold UserService.getUserById, tryCatch, Prisma.user_findUniqueById, Prisma.query.
  rewrite HP. world_simpl. cbn [User.id].
  rewrite find_app_last; [ reflexivity | | ].
  - intros y Hy. apply String.eqb_neq. now apply Hid.
  - apply String.eqb_refl.
Qed.

Lemma createUser_stores_the_user_witness :
  exists u w',
    UserService.createUser Scenario.always200 Scenario.janeSignsUp
      Scenario.pendingWorld = (Return u, w')
    /\ users w' = [Scenario.john; u]
    /\ User.email u = "jane@example.com"
    /\ User.isActive u = true.
Proof.
  destruct (createUser_stores_the_user Scenario.always200 Scenario.janeSignsUp
              Scenario.pendingWorld)
    as [u [w' [E [Hu [Hus _]]]]].
  - intros n; reflexivity.
  - intros x [<- | []]. discriminate.
  - intros x [<- | []]. discriminate.
  - repeat split; cbn; lia.
  - exists u, w'. split; [ exact E | ]. split; [ exact Hus | ].
    rewrite Hu. split; reflexivity.
Defined.

(** X18. [updateUser] of an identifier that no user has throws "User not
    found" and changes nothing. *)
Theorem updateUser_rejects_unknown_id :
  forall P userId updateData w,
    dbFault P (dbCalls w) = false ->
    (forall u, In u (users w) -> User.id u <> userId) ->
    exists w',
      UserService.updateUser P userId updateData w = (Throw "User not found", w')
      /\ users w' = users w
      /\ messageLogs w' = messageLogs w.
Proof.
  intros P userId updateData w Hdb Hnone.
  unfold UserService.updateUser, tryCatch, bind, Prisma.user_findUniqueById,
    Prisma.query.
  rewrite Hdb. world_simpl.
  rewrite find_none_iff by (intros x Hx; apply String.eqb_neq; now apply Hnone).
  cbn. eexists; split; [ reflexivity | ]. split; reflexivity.
Qed.

Lemma updateUser_rejects_unknown_id_witness :
  exists w',
    UserService.updateUser Scenario.always200 "user-9"
      (UserService.mkUpdate (Some "Jo") None None None None None) Scenario.twoUsersWorld
    = (Throw "User not found", w')
    /\ users w' = [Scenario.john; Scenario.jane].
Proof.
  destruct (updateUser_rejects_unknown_id Scenario.always200 "user-9"
              (UserService.mkUpdate (Some "Jo") None None None None None)
              Scenario.twoUsersWorld)
    as [w' [E [Hu _]]].
  - reflexivity.
  - intros u [<- | [<- | []]]; discriminate.
  - exists w'. split; [ exact E | exact Hu ].
Defined.

(** X19. [updateUser] that asks for the email address of another user
    throws "User with this email already exists" and changes nothing. *)
Theorem updateUser_rejects_taken_email :
  forall P userId updateData w user other e,
    Spec.reliableDb P ->
    Spec.userOfId userId w = Some user ->
    UserService.newEmail updateData = Some e ->
    e <> "" ->
    e <> User.email user ->
    In other (users w) ->
    User.email other = e ->
    exists w',
      UserService.updateUser P userId updateData w
      = (Throw "User with this email already exists", w')
      /\ users w' = users w
      /\ messageLogs w' = messageLogs w.
Proof.
  intros P userId updateData w user other e HP Huser He Hne Hdiff Hin Hother.
  unfold UserService.updateUser, tryCatch.
  unfold bind at 1, Prisma.user_findUniqueById, Prisma.query.
  rewrite HP. world_simpl. unfold Spec.userOfId in Huser. rewrite Huser, He.
  assert (truthy e = true) as -> by (destruct e; [ contradiction | reflexivity ]).
  apply String.eqb_neq in Hdiff. rewrite Hdiff. cbn [andb negb].
  unfold bind, Prisma.user_findUniqueByEmail, Prisma.query.
  rewrite HP. world_simpl.
  destruct (find_In_some _ (Prisma.userHasEmail e) (users w) other Hin) as [y Hy].
  { unfold Prisma.userHasEmail. rewrite Hother. apply String.eqb_refl. }
  rewrite Hy. cbn. eexists; split; [ reflexivity | ]. split; reflexivity.
Qed.

Lemma updateUser_rejects_taken_email_witness :
  exists w',
    UserService.updateUser Scenario.always200 "user-1"
      (UserService.mkUpdate None None (Some "jane@example.com") None None None)
      Scenario.twoUsersWorld
    = (Throw "User with this email already exists", w')
    /\ users w' = [Scenario.john; Scenario.jane].
Proof.
  destruct (updateUser_rejects_taken_email Scenario.always200 "user-1"
              (UserService.mkUpdate None None (Some "jane@example.com") None None None)
              Scenario.twoUsersWorld Scenario.john Scenario.jane "jane@example.com")
    as [w' [E [Hu _]]].
  - intros n; reflexivity.
  - reflexivity.
  - reflexivity.
  - discriminate.
  - discriminate.
  - right; left; reflexivity.
  - reflexivity.
  - exists w'. split; [ exact E | exact Hu ].
Defined.

Lemma map_replace_other :
  forall (id : string) (u : User.t) l x,
    In x l -> Prisma.userHasId id x = false ->
    In x (map (fun y => if Prisma.userHasId id y then u else y) l).
Proof.
  intros id u l x Hin Hx. apply in_map_iff. exists x. rewrite Hx. auto.
Qed.

Lemma find_replace :
  forall (id : string) (u : User.t) l old,
    find (Prisma.userHasId id) l = Some old ->
    Prisma.userHasId id u = true ->
    find (Prisma.userHasId id)
      (map (fun y => if Prisma.userHasId id y then u else y) l) = Some u.
Proof.
  intros id u l old Hfind Hu. induction l as [ | y l IH ]; [ discriminate | ].
  cbn in Hfind |- *. destruct (Prisma.userHasId id y) eqn:Hy.
  - now rewrite Hu.
  - rewrite Hy. now apply IH.
Qed.

(** X20. [updateUser] of a user of the table, when the database answers,
    the email address asked for is free or the user's own and the columns
    fit: the user returned has the fields given in place of the old ones
    and the other fields as they were, the same identifier and [createdAt],
    and the current instant in [updatedAt]; it replaces the row of the
    identifier, every other user stays as it is, the message logs are not
    touched, and [getUserById] gives the new row. *)
Theorem updateUser_applies_the_fields_given :
  forall P userId updateData w user,
    Spec.reliableDb P ->
    Spec.uniqueUsers w ->
    Spec.userOfId userId w = Some user ->
    (forall other, In other (users w) -> User.id other <> userId ->
       User.email other <> User.email (UserService.applyUpdate updateData user)) ->
    Prisma.fitsColumns (UserService.applyUpdate updateData user) = true ->
    exists u w',
      UserService.updateUser P userId updateData w = (Return u, w')
      /\ u = User.mk userId
               (UserService.orElse (UserService.newFirstName updateData)
                  (User.firstName user))
               (UserService.orElse (UserService.newLastName updateData)
                  (User.lastName user))
               (UserService.orElse (UserService.newEmail updateData) (User.email user))
               (UserService.orElse (UserService.newBirthday updateData)
                  (User.birthday user))
               (UserService.orElse (UserService.newTimezone updateData)
                  (User.timezone user))
               (UserService.orElse (UserService.newIsActive updateData)
                  (User.isActive user))
               (User.createdAt user) (now w)
      /\ users w' = map (fun x => if Prisma.userHasId userId x then u else x) (users w)
      /\ (forall other, In other (users w) -> User.id other <> userId ->
            In other (users w'))
      /\ messageLogs w' = messageLogs w
      /\ fst (UserService.getUserById P userId w') = Return (Some u).
Proof.
  intros P userId updateData w user HP Huniq Huser Hfree Hfits.
  unfold Spec.userOfId in Huser.
  pose proof (find_some _ _ Huser) as [Hin Hid].
  unfold Prisma.userHasId in Hid. apply String.eqb_eq in Hid.
  assert (forall w0, users w0 = users w -> now w0 = now w ->
            messageLogs w0 = messageLogs w ->
            exists u w',
              Prisma.user_update P userId (UserService.applyUpdate updateData) w0
              = (Return u, w')
              /\ u = User.mk userId
                       (UserService.orElse (UserService.newFirstName updateData)
                          (User.firstName user))
                       (UserService.orElse (UserService.newLastName updateData)
                          (User.lastName user))
                       (UserService.orElse (UserService.newEmail updateData)
                          (User.email user))
                       (UserService.orElse (UserService.newBirthday updateData)
                          (User.birthday user))
                       (UserService.orElse (UserService.newTimezone updateData)
                          (User.timezone user))
                       (UserService.orElse (UserService.newIsActive updateData)
                          (User.isActive user))
                       (User.createdAt user) (now w)
              /\ users w'
                 = map (fun x => if Prisma.userHasId userId x then u else x) (users w)
              /\ messageLogs w' = messageLogs w) as Hupdate.
  { intros w0 Hu0 Hn0 Hl0. unfold Prisma.user_update, Prisma.query.
    rewrite HP. world_simpl. rewrite Hu0, Huser, Hn0.
    rewrite existsb_none.
    2: { intros x Hx. cbn [User.email].
         destruct (Prisma.userHasId userId x) eqn:Hxid;
           [ apply andb_false_r | ].
         rewrite andb_true_r. apply String.eqb_neq.
         apply Hfree; [ exact Hx | ].
         apply String.eqb_neq. exact Hxid. }
    unfold Prisma.fitsColumns in *.
    cbn [User.firstName User.lastName User.email User.birthday User.timezone] in *.
    rewrite Hfits. cbn [negb].
    do 2 eexists. split; [ reflexivity | ]. world_simpl.
    rewrite Hid, Hl0. repeat split. }
  assert (exists u w',
            UserService.updateUser P userId updateData w = (Return u, w')
            /\ u = User.mk userId
                     (UserService.orElse (UserService.newFirstName updateData)
                        (User.firstName user))
                     (UserService.orElse (UserService.newLastName updateData)
                        (User.lastName user))
                     (UserService.orElse (UserService.newEmail updateData)
                        (User.email user))
                     (UserService.orElse (UserService.newBirthday updateData)
                        (User.birthday user))
                     (UserService.orElse (UserService.newTimezone updateData)
                        (User.timezone user))
                     (UserService.orElse (UserService.newIsActive updateData)
                        (User.isActive user))
                     (User.createdAt user) (now w)
            /\ users w'
               = map (fun x => if Prisma.userHasId userId x then u else x) (users w)
            /\ messageLogs w' = messageLogs w) as [u [w' [E [Hu [Hus Hl]]]]].
  { unfold UserService.updateUser, tryCatch.
    unfold bind at 1, Prisma.user_findUniqueById, Prisma.query.
    rewrite HP. world_simpl. rewrite Huser.
    destruct (UserService.newEmail updateData) as [ e | ] eqn:He.
    - destruct (truthy e && negb (e =? User.email user)%string) eqn:Hcheck.
      + unfold bind at 1. unfold bind at 1, Prisma.user_findUniqueByEmail, Prisma.query.
        rewrite HP. world_simpl.
        rewrite find_none_iff.
        2: { intros x Hx. unfold Prisma.userHasEmail. apply String.eqb_neq.
             apply andb_true_iff in Hcheck as [_ Hd]. apply negb_true_iff in Hd.
             apply String.eqb_neq in Hd.
             destruct (String.eqb_spec (User.id x) userId) as [Hxid | Hxid].
             - assert (x = user) as ->
                 by (apply (NoDup_map_injective_on _ _ User.id (users w));
                     [ apply Huniq | exact Hx | exact Hin | congruence ]).
               intros Hxe. apply Hd. now rewrite Hxe.
             - specialize (Hfree x Hx Hxid). unfold UserService.applyUpdate in Hfree.
               cbn [User.email] in Hfree. rewrite He in Hfree. exact Hfree. }
        cbn [ret].
        match goal with
        | |- context [ Prisma.user_update P userId _ ?w0 ] =>
            destruct (Hupdate w0 eq_refl eq_refl eq_refl) as [u [w' [E H]]]
        end.
        rewrite E. exists u, w'. split; [ reflexivity | exact H ].
      + unfold bind at 1. cbn [ret].
        match goal with
        | |- context [ Prisma.user_update P userId _ ?w0 ] =>
            destruct (Hupdate w0 eq_refl eq_refl eq_refl) as [u [w' [E H]]]
        end.
        rewrite E. exists u, w'. split; [ reflexivity | exact H ].
    - unfold bind at 1. cbn [ret].
      match goal with
      | |- context [ Prisma.user_update P userId _ ?w0 ] =>
          destruct (Hupdate w0 eq_refl eq_refl eq_refl) as [u [w' [E H]]]
      end.
      rewrite E. exists u, w'. split; [ reflexivity | exact H ]. }
  exists u, w'. split; [ exact E | ]. split; [ exact Hu | ]. split; [ exact Hus | ].
  split; [ | split; [ exact Hl | ] ].
  - intros other Ho Hoid. rewrite Hus. apply map_replace_other; [ exact Ho | ].
    apply String.eqb_neq. exact Hoid.
  - unfold UserService.getUserById, tryCatch, Prisma.user_findUniqueById, Prisma.query.
    rewrite HP. world_simpl. rewrite Hus.
    rewrite (find_replace userId u (users w) user Huser); [ reflexivity | ].
    rewrite Hu. apply String.eqb_refl.
Qed.

Lemma updateUser_applies_the_fields_given_witness :
  exists u w',
    UserService.updateUser Scenario.always200 "user-1"
      (UserService.mkUpdate (Some "Johnny") None None None None (Some false))
      Scenario.twoUsersWorld = (Return u, w')
    /\ User.firstName u = "Johnny"
    /\ User.lastName u = "Doe"
    /\ User.isActive u = false
    /\ users w' = [u; Scenario.jane].
Proof.
  destruct (updateUser_applies_the_fields_given Scenario.always200 "user-1"
              (UserService.mkUpdate (Some "Johnny") None None None None (Some false))
              Scenario.twoUsersWorld Scenario.john)
    as [u [w' [E [Hu [Hus _]]]]].
  - intros n; reflexivity.
  - split; cbn; repeat constructor; cbn; intuition discriminate.
  - reflexivity.
  - intros other [<- | [<- | []]] H; [ now contradiction H | discriminate ].
  - reflexivity.
  - exists u, w'. split; [ exact E | ]. rewrite Hus, Hu. repeat split.
Defined.

(** X21. [deleteUser] of a user of the table, when the database answers:
    the user is removed with every message log that belongs to it, and
    nothing else changes: the other users and the message logs of the other
    users stay as they are, in their order. When every message log had its
    user before, so it has afterwards. *)
Theorem deleteUser_cascades :
  forall P userId w user,
    dbFault P (dbCalls w) = false ->
    Spec.userOfId userId w = Some user ->
    exists w',
      UserService.deleteUser P userId w = (Return tt, w')
      /\ users w' = filter (fun u => negb (Prisma.userHasId userId u)) (users w)
      /\ messageLogs w'
         = filter (fun r => negb (String.eqb (MessageLog.userId r) userId))
             (messageLogs w)
      /\ Spec.userOfId userId w' = None
      /\ (forall r, In r (messageLogs w') -> MessageLog.userId r <> userId)
      /\ (Spec.referential w -> Spec.referential w').
Proof.
  intros P userId w user Hdb Huser.
  unfold UserService.deleteUser, tryCatch, bind, Prisma.user_delete, Prisma.query.
  rewrite Hdb. world_simpl. unfold Spec.userOfId in Huser. rewrite Huser.
  cbn [ret]. eexists; split; [ reflexivity | ]. world_simpl.
  split; [ reflexivity | ]. split; [ reflexivity | ].
  split; [ | split ].
  - unfold Spec.userOfId. world_simpl. apply find_none_iff.
    intros x Hx. apply filter_In in Hx as [_ Hx]. now apply negb_true_iff in Hx.
  - intros r Hr. apply filter_In in Hr as [_ Hr].
    apply negb_true_iff, String.eqb_neq in Hr. exact Hr.
  - intros Href r Hr. world_simpl. apply filter_In in Hr as [Hr Hne].
    destruct (Href r Hr) as [u [Hu Hid]]. exists u. split; [ | exact Hid ].
    apply filter_In. split; [ exact Hu | ].
    unfold Prisma.userHasId. rewrite Hid. exact Hne.
Qed.

Lemma deleteUser_cascades_witness :
  exists w',
    UserService.deleteUser Scenario.always200 "user-1" Scenario.twoUsersWorld
    = (Return tt, w')
    /\ users w' = [Scenario.jane]
    /\ messageLogs w' = [Scenario.row "msg-2" "user-2" PENDING None None None].
Proof.
  destruct (deleteUser_cascades Scenario.always200 "user-1" Scenario.twoUsersWorld
              Scenario.john)
    as [w' [E [Hu [Hl _]]]].
  - reflexivity.
  - reflexivity.
  - exists w'. split; [ exact E | ]. split; [ exact Hu | exact Hl ].
Defined.

(** X22. [DELETE /user/:id] never answers 404. The handler answers 200 when
    the database answers and a user has the identifier, and 500 "Internal
    server error" otherwise: for an identifier that no user has, the error of
    the database is not the "User not found" that the handler looks for.
    Nothing changes unless the answer is 200. *)
Theorem deleteUser_never_answers_404 :
  forall P id w,
    exists res w',
      UserController.deleteUser P id w = (Return res, w')
      /\ UserController.status res <> 404
      /\ ((dbFault P (dbCalls w) = false /\ Spec.userOfId id w <> None
           /\ res = UserController.mkResponse 200 true
                      (UserController.Done "User deleted successfully"))
          \/ ((dbFault P (dbCalls w) = true \/ Spec.userOfId id w = None)
              /\ res = UserController.mkResponse 500 false
                         (UserController.Failure "Internal server error")
              /\ users w' = users w /\ messageLogs w' = messageLogs w)).
Proof.
  intros P id w.
  unfold UserController.deleteUser, UserService.deleteUser, tryCatch, bind,
    Prisma.user_delete, Prisma.query, Spec.userOfId.
  destruct (dbFault P (dbCalls w)).
  - cbn. do 2 eexists. split; [ reflexivity | ]. split; [ discriminate | ].
    right. auto.
  - world_simpl. destruct (find (Prisma.userHasId id) (users w)) as [ u | ].
    + cbn. do 2 eexists. split; [ reflexivity | ]. split; [ discriminate | ].
      left. split; [ reflexivity | ]. split; [ discriminate | reflexivity ].
    + cbn. do 2 eexists. split; [ reflexivity | ]. split; [ discriminate | ].
      right. auto.
Qed.

(** ** The constraints of the schema *)

Lemma keeps_ret : forall A (I : World -> Prop) (a : A), Spec.keeps I (ret a).
Proof. intros A I a w H. exact H. Qed.

Lemma keeps_throw : forall A (I : World -> Prop) e, Spec.keeps I (@throw A e).
Proof. intros A I e w H. exact H. Qed.

Lemma keeps_bind :
  forall A B (I : World -> Prop) (m : M A) (k : A -> M B),
    Spec.keeps I m -> (forall a, Spec.keeps I (k a)) -> Spec.keeps I (bind m k).
Proof.
  intros A B I m k Hm Hk w H. unfold bind. specialize (Hm w H).
  destruct (m w) as [[a | e] w1]; cbn [snd] in Hm |- *; [ | exact Hm ].
  now apply Hk.
Qed.

Lemma keeps_tryCatch :
  forall A (I : World -> Prop) (m : M A) (h : string -> M A),
    Spec.keeps I m -> (forall e, Spec.keeps I (h e)) -> Spec.keeps I (tryCatch m h).
Proof.
  intros A I m h Hm Hh w H. unfold tryCatch. specialize (Hm w H).
  destruct (m w) as [[a | e] w1]; cbn [snd] in Hm |- *; [ exact Hm | ].
  now apply Hh.
Qed.

Lemma wellFormed_tables :
  forall w w',
    users w' = users w -> messageLogs w' = messageLogs w ->
    Spec.wellFormed w -> Spec.wellFormed w'.
Proof.
  intros w w' Hu Hl [[Hid Hemail] Href].
  unfold Spec.wellFormed, Spec.uniqueUsers, Spec.referential. rewrite Hu, Hl. auto.
Qed.

Lemma keeps_query :
  forall P A (op : M A),
    Spec.keeps Spec.wellFormed op -> Spec.keeps Spec.wellFormed (Prisma.query P op).
Proof.
  intros P A op Hop w H. unfold Prisma.query.
  destruct (dbFault P (dbCalls w)); cbn [snd].
  - apply (wellFormed_tables w); auto.
  - apply Hop. apply (wellFormed_tables w); auto.
Qed.

Lemma keeps_read :
  forall P A (f : World -> A),
    Spec.keeps Spec.wellFormed (Prisma.query P (fun w => (Return (f w), w))).
Proof. intros P A f. apply keeps_query. intros w H. exact H. Qed.

Lemma NoDup_snoc :
  forall A (l : list A) a, NoDup l -> ~ In a l -> NoDup (l ++ [a]).
Proof.
  intros A l a Hl Ha. induction l as [ | x l IH ]; cbn.
  - constructor; [ intros [] | constructor ].
  - inversion Hl as [ | ? ? Hx Hl' ]; subst. constructor.
    + intros H. apply in_app_or in H as [H | [H | []]]; [ contradiction | ].
      apply Ha. left. now symmetry.
    + apply IH; [ exact Hl' | ]. intros H. apply Ha. now right.
Qed.

Lemma existsb_false_not_In :
  forall (f : User.t -> string) (v : string) l,
    existsb (fun u => String.eqb (f u) v) l = false -> ~ In v (map f l).
Proof.
  intros f v l H Hin. apply in_map_iff in Hin as [x [Hx Hin]].
  assert (existsb (fun u => String.eqb (f u) v) l = true) as Ht.
  { apply existsb_exists. exists x. split; [ exact Hin | ].
    rewrite Hx. apply String.eqb_refl. }
  congruence.
Qed.

Lemma keeps_user_create :
  forall P firstName lastName email birthday timezone isActive,
    Spec.keeps Spec.wellFormed
      (Prisma.user_create P firstName lastName email birthday timezone isActive).
Proof.
  intros P firstName lastName email birthday timezone isActive.
  apply keeps_query. intros w H. cbv zeta.
  destruct (existsb (Prisma.userHasId (uuid P (uuidCalls w))) (users w)) eqn:Eid;
    [ apply (wellFormed_tables w); auto | ].
  destruct (existsb (Prisma.userHasEmail email) (users w)) eqn:Eemail;
    [ apply (wellFormed_tables w); auto | ].
  destruct (negb (Prisma.fitsColumns _)); [ apply (wellFormed_tables w); auto | ].
  cbn [snd]. destruct H as [[Hid Hemail] Href].
  split; [ split | ]; world_simpl.
  - rewrite map_app. apply NoDup_snoc; [ exact Hid | ].
    now apply existsb_false_not_In.
  - rewrite map_app. apply NoDup_snoc; [ exact Hemail | ].
    now apply existsb_false_not_In.
  - intros r Hr. destruct (Href r Hr) as [u [Hu Hu']]. exists u.
    split; [ apply in_or_app; now left | exact Hu' ].
Qed.

Lemma replace_ids :
  forall (id : string) (u : User.t) l,
    User.id u = id ->
    map User.id (map (fun x => if Prisma.userHasId id x then u else x) l)
    = map User.id l.
Proof.
  intros id u l Hu. induction l as [ | y l IH ]; [ reflexivity | ]. cbn.
  rewrite IH. destruct (Prisma.userHasId id y) eqn:Hy; [ | reflexivity ].
  apply String.eqb_eq in Hy. congruence.
Qed.

Lemma replace_absent :
  forall (id : string) (u : User.t) l,
    ~ In id (map User.id l) ->
    map (fun x => if Prisma.userHasId id x then u else x) l = l.
Proof.
  intros id u l H. induction l as [ | y l IH ]; [ reflexivity | ]. cbn.
  rewrite IH by (intros Hin; apply H; now right).
  destruct (Prisma.userHasId id y) eqn:Hy; [ | reflexivity ].
  apply String.eqb_eq in Hy. exfalso. apply H. left. exact Hy.
Qed.

Lemma replace_emails :
  forall (id : string) (u : User.t) l,
    NoDup (map User.id l) -> NoDup (map User.email l) ->
    (forall x, In x l -> Prisma.userHasId id x = false -> User.email x <> User.email u) ->
    NoDup (map User.email (map (fun x => if Prisma.userHasId id x then u else x) l)).
Proof.
  intros id u l Hid Hemail Hfree. induction l as [ | y l IH ]; [ constructor | ].
  cbn [map] in *. inversion Hid as [ | ? ? Hy Hid' ]; subst.
  inversion Hemail as [ | ? ? Hye Hemail' ]; subst.
  destruct (Prisma.userHasId id y) eqn:Hyid.
  - apply String.eqb_eq in Hyid. rewrite replace_absent by (rewrite <- Hyid; exact Hy).
    constructor; [ | exact Hemail' ].
    intros Hin. apply in_map_iff in Hin as [x [Hx Hin]].
    apply (Hfree x (or_intror Hin)); [ | exact Hx ].
    apply String.eqb_neq. intros Hxid. apply Hy. rewrite Hyid, <- Hxid.
    now apply in_map.
  - constructor.
    + intros Hin. apply in_map_iff in Hin as [x [Hx Hin]].
      apply in_map_iff in Hin as [x0 [Hx0 Hin]].
      destruct (Prisma.userHasId id x0); subst x.
      * apply (Hfree y (or_introl eq_refl) Hyid). now symmetry.
      * apply Hye. rewrite <- Hx. now apply in_map.
    + apply IH; [ exact Hid' | exact Hemail' | ].
      intros x Hx. apply Hfree. now right.
Qed.

Lemma keeps_user_update :
  forall P id data, Spec.keeps Spec.wellFormed (Prisma.user_update P id data).
Proof.
  intros P id data. apply keeps_query. intros w H.
  destruct (find (Prisma.userHasId id) (users w)) as [ old | ] eqn:Eold; [ | exact H ].
  cbv zeta.
  destruct (existsb _ (users w)) eqn:Efree; [ exact H | ].
  destruct (negb (Prisma.fitsColumns _)); [ exact H | ].
  cbn [snd]. destruct H as [[Hid Hemail] Href].
  pose proof (find_some _ _ Eold) as [Hin Hold].
  unfold Prisma.userHasId in Hold. apply String.eqb_eq in Hold.
  split; [ split | ]; world_simpl.
  - rewrite replace_ids by exact Hold. exact Hid.
  - apply replace_emails; [ exact Hid | exact Hemail | ].
    intros x Hx Hxid. cbn [User.email].
    assert (Prisma.userHasEmail (User.email (data old)) x && negb (Prisma.userHasId id x)
            = false) as Hc.
    { destruct (Prisma.userHasEmail (User.email (data old)) x
                && negb (Prisma.userHasId id x)) eqn:Ec; [ | reflexivity ].
      assert (existsb (fun x0 => Prisma.userHasEmail (User.email (data old)) x0
                                 && negb (Prisma.userHasId id x0)) (users w) = true)
        as Ht by (apply existsb_exists; now exists x).
      cbn [User.email] in Efree. congruence. }
    rewrite Hxid in Hc. cbn [negb] in Hc. rewrite andb_true_r in Hc.
    apply String.eqb_neq in Hc. exact Hc.
  - intros r Hr. destruct (Href r Hr) as [u [Hu Hu']].
    destruct (Prisma.userHasId id u) eqn:Huid.
    + eexists. split.
      * apply in_map_iff. exists u. rewrite Huid. split; [ reflexivity | exact Hu ].
      * cbn [User.id]. apply String.eqb_eq in Huid. congruence.
    + exists u. split; [ | exact Hu' ].
      apply in_map_iff. exists u. rewrite Huid. auto.
Qed.

Lemma keeps_user_delete :
  forall P id, Spec.keeps Spec.wellFormed (Prisma.user_delete P id).
Proof.
  intros P id. apply keeps_query. intros w H.
  destruct (find (Prisma.userHasId id) (users w)) as [ old | ]; [ | exact H ].
  cbn [snd]. destruct H as [[Hid Hemail] Href].
  split; [ split | ]; world_simpl.
  - now apply NoDup_map_filter.
  - now apply NoDup_map_filter.
  - intros r Hr. apply filter_In in Hr as [Hr Hne].
    destruct (Href r Hr) as [u [Hu Hu']]. exists u. split; [ | exact Hu' ].
    apply filter_In. split; [ exact Hu | ].
    unfold Prisma.userHasId. rewrite Hu'. exact Hne.
Qed.

(** X23. Whatever the database does, [createUser], [updateUser] and
    [deleteUser] keep the constraints of the schema on [users]: no two users
    share an identifier or an email address, and every message log belongs
    to a user of the table. *)
Theorem userService_keeps_the_constraints :
  forall P w,
    Spec.wellFormed w ->
    (forall userData, Spec.wellFormed (run (UserService.createUser P userData) w))
    /\ (forall userId updateData,
          Spec.wellFormed (run (UserService.updateUser P userId updateData) w))
    /\ (forall userId, Spec.wellFormed (run (UserService.deleteUser P userId) w)).
Proof.
  intros P w H. split; [ | split ].
  - intros userData. revert w H.
    change (Spec.keeps Spec.wellFormed (UserService.createUser P userData)).
    unfold UserService.createUser.
    apply keeps_tryCatch; [ | intros; apply keeps_throw ].
    apply keeps_bind; [ apply keeps_read | ].
    intros [ existing | ]; [ apply keeps_throw | apply keeps_user_create ].
  - intros userId updateData. revert w H.
    change (Spec.keeps Spec.wellFormed (UserService.updateUser P userId updateData)).
    unfold UserService.updateUser.
    apply keeps_tryCatch; [ | intros; apply keeps_throw ].
    apply keeps_bind; [ apply keeps_read | ].
    intros [ user | ]; [ | apply keeps_throw ].
    apply keeps_bind; [ | intros; apply keeps_user_update ].
    destruct (UserService.newEmail updateData) as [ e | ]; [ | apply keeps_ret ].
    destruct (truthy e && negb (e =? User.email user)%string); [ | apply keeps_ret ].
    apply keeps_bind; [ apply keeps_read | ].
    intros [ existing | ]; [ apply keeps_throw | apply keeps_ret ].
  - intros userId. revert w H.
    change (Spec.keeps Spec.wellFormed (UserService.deleteUser P userId)).
    unfold UserService.deleteUser.
    apply keeps_tryCatch; [ | intros; apply keeps_throw ].
    apply keeps_bind; [ apply keeps_user_delete | intros; apply keeps_ret ].
Qed.

Lemma userService_keeps_the_constraints_witness :
  Spec.wellFormed
    (run (UserService.deleteUser Scenario.always200 "user-1") Scenario.twoUsersWorld)
  /\ Spec.wellFormed
       (run (UserService.createUser Scenario.secondCallFails Scenario.janeSignsUp)
          Scenario.pendingWorld).
Proof.
  split.
  - apply (userService_keeps_the_constraints Scenario.always200 Scenario.twoUsersWorld).
    split; [ split; cbn; repeat constructor; cbn; intuition discriminate | ].
    intros r [<- | [<- | []]];
      [ exists Scenario.john | exists Scenario.jane ]; cbn; auto.
  - apply (userService_keeps_the_constraints Scenario.secondCallFails
             Scenario.pendingWorld).
    split; [ split; cbn; repeat constructor; cbn; intuition discriminate | ].
    intros r [<- | []]. exists Scenario.john; cbn; auto.
Defined.

(** * Loops of [processMessage] *)

Lemma forOf_others_key :
  forall P A (key : A -> string) messageId (items : list A) w,
    Spec.reliableDb P ->
    ~ In messageId (map key items) ->
    exists w',
      forOf items (fun x => BirthdayService.processMessage P (key x)) w = (Return tt, w')
      /\ Spec.frames messageId w w'.
Proof.
  intros P A key messageId items; induction items as [ | m items IH ]; intros w HP Hnot.
  - exists w. split; [ reflexivity | apply frames_refl ].
  - cbn [map] in Hnot. cbn [forOf]. unfold bind.
    destruct (processMessage_returns P (key m) HP w) as [[] Hr].
    pose proof (processMessage_frames P messageId (key m) w) as Hf.
    unfold run in Hf.
    destruct (BirthdayService.processMessage P (key m) w) as [c w1].
    cbn [fst snd] in Hr, Hf; subst c.
    destruct (IH w1 HP) as [w' [E Hf']]; [ intros H; apply Hnot; now right | ].
    exists w'. split; [ exact E | ].
    eapply frames_trans; [ apply Hf; intros H; apply Hnot; now left | exact Hf' ].
Qed.

Lemma forOf_keeps :
  forall P A (key : A -> string) (I : World -> Prop) (items : list A) w,
    (forall id w0, I w0 -> I (run (BirthdayService.processMessage P id) w0)) ->
    I w ->
    I (run (forOf items (fun x => BirthdayService.processMessage P (key x))) w).
Proof.
  intros P A key I items; induction items as [ | x items IH ]; intros w Hstep Hw.
  - exact Hw.
  - specialize (Hstep (key x) w Hw) as Hw1. unfold run in *. cbn [forOf]. unfold bind.
    destruct (BirthdayService.processMessage P (key x) w) as [[[] | e] w1];
      cbn [snd] in *; [ | exact Hw1 ].
    apply IH; [ exact Hstep | exact Hw1 ].
Qed.

(** A loop of [processMessage] over distinct identifiers reaches each of
    them once, in a world that still holds its row as the loop found it. *)
Lemma forOf_visits :
  forall P A (key : A -> string) (I : World -> Prop) messageId (items : list A) w,
    Spec.reliableDb P ->
    NoDup (map key items) ->
    In messageId (map key items) ->
    (forall id w0, I w0 -> I (run (BirthdayService.processMessage P id) w0)) ->
    I w ->
    exists w1 w2 w',
      Spec.frames messageId w w1 /\ I w1
      /\ BirthdayService.processMessage P messageId w1 = (Return tt, w2)
      /\ Spec.frames messageId w2 w' /\ I w'
      /\ (exists extra, outbox w' = (outbox w2 ++ extra)%list)
      /\ forOf items (fun x => BirthdayService.processMessage P (key x)) w
         = (Return tt, w').
Proof.
  intros P A key I messageId items w HP Hdd Hin Hstep Hw.
  apply in_map_iff in Hin as [x [Hx Hin]].
  apply in_split in Hin as [l1 [l2 ->]].
  rewrite map_app in Hdd. cbn [map] in Hdd.
  apply NoDup_remove_2 in Hdd. rewrite Hx in Hdd.
  rewrite forOf_app. unfold bind at 1.
  destruct (forOf_others_key P A key messageId l1 w HP) as [w1 [E1 Hf1]].
  { intros H. apply Hdd. apply in_or_app. now left. }
  pose proof (forOf_keeps P A key I l1 w Hstep Hw) as Hw1.
  unfold run in Hw1. rewrite E1 in Hw1 |- *. cbn [snd] in Hw1.
  cbn [forOf]. unfold bind at 1. rewrite Hx.
  destruct (processMessage_returns P messageId HP w1) as [[] Hret].
  pose proof (Hstep messageId w1 Hw1) as Hw2. unfold run in Hw2.
  destruct (BirthdayService.processMessage P messageId w1) as [c w2] eqn:E2.
  cbn [fst snd] in Hret, Hw2; subst c.
  destruct (forOf_others_key P A key messageId l2 w2 HP) as [w3 [E3 Hf3]].
  { intros H. apply Hdd. apply in_or_app. now right. }
  pose proof (forOf_keeps P A key I l2 w2 Hstep Hw2) as Hw3.
  destruct (forOf_requests P A key l2 w2) as [extra [Ho3 _]].
  unfold run in Hw3, Ho3. rewrite E3 in Hw3, Ho3 |- *. cbn [snd] in Hw3, Ho3.
  exists w1, w2, w3. repeat split; try assumption; try apply Hf1; try apply Hf3.
  exists extra. exact Ho3.
Qed.

Lemma recoverUnsentMessages_unfold :
  forall P w,
    Spec.reliableDb P ->
    BirthdayService.recoverUnsentMessages P w
    = tryCatch
        (forOf (filter (BirthdayService.isUnsent (now w)) (messageLogs w))
           (fun m => BirthdayService.processMessage P (MessageLog.id m)))
        (fun error => throw error)
        (setDbCalls (S (dbCalls w)) w).
Proof.
  intros P w HP. unfold BirthdayService.recoverUnsentMessages, tryCatch.
  unfold bind at 1, newDate at 1.
  unfold bind at 1, Prisma.messageLog_findMany, Prisma.query.
  rewrite HP. reflexivity.
Qed.

(** X24. The recovery while the database and the email service answer:
    with the breaker closed at the start and every request answered 2xx,
    every PENDING or RETRY row scheduled before the current instant whose
    lock is free and whose user exists is SENT afterwards, stamped with the
    instant of the run; the greeting of its user is among the requests made. *)
Theorem recovery_sends_unsent_messages :
  forall P w,
    Spec.reliableDb P ->
    (forall n, Spec.failed (remote P n) = false) ->
    Spec.uniqueIds w ->
    ~ Spec.breakerOpen w ->
    exists w',
      BirthdayService.recoverUnsentMessages P w = (Return tt, w')
      /\ now w' = now w
      /\ forall messageId r user,
           Spec.rowOf messageId w = Some r ->
           BirthdayService.isUnsent (now w) r = true ->
           BirthdayService.lockFree (now w) r = true ->
           Prisma.userOf (users w) r = Some user ->
           Spec.rowOf messageId w' = Some (MessageLog.sentData (now w) r)
           /\ In (Spec.greetingPayload user) (outbox w').
Proof.
  intros P w HP Hall Hnd Hclosed.
  rewrite recoverUnsentMessages_unfold by exact HP. unfold tryCatch.
  set (items := filter (BirthdayService.isUnsent (now w)) (messageLogs w)).
  set (wq := setDbCalls (S (dbCalls w)) w).
  set (I := fun w0 : World => ~ Spec.breakerOpen w0 /\ now w0 = now w).
  assert (forall id w0, I w0 -> I (run (BirthdayService.processMessage P id) w0))
    as Hstep.
  { intros id w0 [Hc Hn].
    destruct (processMessage_keeps_closed P id w0 Hall Hc) as [Hc' Hn'].
    split; [ exact Hc' | congruence ]. }
  assert (I wq) as Hq by (split; [ exact Hclosed | reflexivity ]).
  destruct (forOf_returns P _ MessageLog.id items wq HP) as [w' E].
  rewrite E. exists w'. split; [ reflexivity | ].
  pose proof (forOf_keeps P _ MessageLog.id I items wq Hstep Hq) as [_ Hn'].
  unfold run in Hn'. rewrite E in Hn'. cbn [snd] in Hn'.
  split; [ exact Hn' | ].
  intros messageId r user Hr Hunsent Hfree Huser.
  pose proof (find_some _ _ Hr) as [Hin Hid].
  unfold BirthdayService.hasId in Hid. apply String.eqb_eq in Hid.
  destruct (forOf_visits P _ MessageLog.id I messageId items wq HP)
    as [w1 [w2 [w3 [[Hr1 [Hu1 _]] [[Hc1 Hn1] [E2 [[Hr3 _] [_ [[extra Ho3] E3]]]]]]]]];
    try assumption.
  { unfold items. now apply NoDup_map_filter. }
  { apply in_map_iff. exists r. split; [ exact Hid | ].
    apply filter_In. auto. }
  rewrite E in E3. inversion E3; subst w3.
  change (Spec.rowOf messageId wq) with (Spec.rowOf messageId w) in Hr1.
  change (users wq) with (users w) in Hu1.
  destruct (processMessage_delivers_ok P messageId w1 r user HP (Hall _) Hc1)
    as [w2' [E2' [Hr2 Ho2]]].
  { rewrite Hr1. exact Hr. }
  { rewrite Hn1. exact Hfree. }
  { rewrite Hu1. exact Huser. }
  rewrite E2 in E2'. inversion E2'; subst w2'.
  split; [ rewrite Hr3, Hr2, Hn1; reflexivity | ].
  rewrite Ho3, Ho2. apply in_or_app. left. apply in_or_app. right. now left.
Qed.

Lemma recovery_sends_unsent_messages_witness :
  exists w',
    BirthdayService.recoverUnsentMessages Scenario.always200 Scenario.pendingWorld
    = (Return tt, w')
    /\ Spec.progress "msg-1" w' = Some (SENT, 0)
    /\ In (Spec.greetingPayload Scenario.john) (outbox w').
Proof.
  destruct (recovery_sends_unsent_messages Scenario.always200 Scenario.pendingWorld)
    as [w' [E [_ H]]].
  - intros n. reflexivity.
  - intros n. reflexivity.
  - unfold Spec.uniqueIds. cbn. repeat constructor; cbn; intuition discriminate.
  - intros [u [Hu _]]. discriminate.
  - exists w'. split; [ exact E | ].
    destruct (H "msg-1" (Scenario.row "msg-1" "user-1" PENDING None None None)
                Scenario.john eq_refl eq_refl eq_refl eq_refl) as [H1 Hin].
    unfold Spec.progress. rewrite H1. split; [ reflexivity | exact Hin ].
Defined.

(** * The breaker and the messages *)

Lemma greeting_blocked :
  forall P user w,
    Spec.breakerOpen w ->
    exists w',
      Spec.greeting P user w = (Return Spec.blockedResult, w')
      /\ users w' = users w /\ now w' = now w /\ outbox w' = outbox w
      /\ circuitBreakerResetTime (emailService w')
         = circuitBreakerResetTime (emailService w)
      /\ (0 < circuitBreakerResetTime (emailService w) -> Spec.breakerOpen w').
Proof.
  intros P user w Hopen.
  unfold Spec.greeting, EmailService.sendBirthdayMessage, EmailService.sendEmail.
  match goal with
  | |- context [ EmailService.sendEmailFrom P ?b ?email ?message 0 w ] =>
      destruct (sendEmailFrom_step P b email message 0 w)
        as [[_ E] | [[Hc _] | [[Hc _] | [Hc _]]]]
  end; try contradiction.
  rewrite E. eexists; split; [ reflexivity | ].
  destruct Hopen as [u [Hu Hlt]].
  unfold run, EmailService.updateMetrics, bind, EmailService.openCircuitBreaker.
  world_simpl.
  destruct (circuitBreakerThreshold (emailService w) <=? _); cbn [snd]; world_simpl;
    (repeat (split; [ reflexivity | ])); intros Hpos.
  - eexists. split; [ reflexivity | ]. world_simpl. lia.
  - exists u. split; [ exact Hu | exact Hlt ].
Qed.

Lemma processMessage_keeps_open :
  forall P messageId w,
    Spec.breakerOpen w ->
    0 < circuitBreakerResetTime (emailService w) ->
    let w' := run (BirthdayService.processMessage P messageId) w in
    Spec.breakerOpen w'
    /\ 0 < circuitBreakerResetTime (emailService w')
    /\ now w' = now w /\ outbox w' = outbox w.
Proof.
  intros P messageId w Hopen Hpos. cbv zeta. unfold run.
  destruct (processMessage_greetsOnce P messageId w)
    as [[_ [He [Hn Ho]]] | [user [wl [_ [[_ [He [Hn Ho]]] [_ [He' [Hn' Ho']]]]]]]].
  - rewrite He. repeat split; try assumption.
    destruct Hopen as [u [Hu Hlt]]. exists u. rewrite He, Hn. auto.
  - assert (Spec.breakerOpen wl) as Hopenl.
    { destruct Hopen as [u [Hu Hlt]]. exists u. rewrite He, Hn. auto. }
    destruct (greeting_blocked P user wl Hopenl) as [ws [E [_ [Hns [Hos [Hrs Hopens]]]]]].
    unfold run in He', Hn', Ho'. rewrite E in He', Hn', Ho'. cbn [snd] in He', Hn', Ho'.
    rewrite He in Hrs, Hopens. specialize (Hopens Hpos).
    split; [ | split; [ | split ] ]; try congruence.
    destruct Hopens as [u [Hu Hlt]]. exists u. rewrite He', Hn'. auto.
Qed.

(** X25. A tick while the breaker is open, with a positive reset time:
    no request is made, the breaker is still open afterwards, and every row
    that was due and whose user exists has spent one attempt: its retry
    count is one higher, its error text is the breaker's, and it is RETRY,
    or FAILED when the count has reached [EMAIL_SERVICE_MAX_RETRIES]. *)
Theorem tick_under_open_breaker_spends_attempts :
  forall P w,
    Spec.reliableDb P ->
    Spec.uniqueIds w ->
    Spec.breakerOpen w ->
    0 < circuitBreakerResetTime (emailService w) ->
    exists w',
      BirthdayService.processPendingMessages P w = (Return tt, w')
      /\ outbox w' = outbox w
      /\ Spec.breakerOpen w'
      /\ forall messageId r user,
           Spec.rowOf messageId w = Some r ->
           BirthdayService.isDue (now w) r = true ->
           Prisma.userOf (users w) r = Some user ->
           Spec.rowOf messageId w'
           = Some (MessageLog.failureData
                     (if envInt (EMAIL_SERVICE_MAX_RETRIES (env P)) 3
                           <=? MessageLog.retryCount r + 1
                      then FAILED else RETRY)
                     (MessageLog.retryCount r + 1)
                     EmailService.breakerOpenError r).
Proof.
  intros P w HP Hnd Hopen Hpos.
  rewrite processPendingMessages_unfold by exact HP. unfold tryCatch.
  set (due := Prisma.orderByScheduledAt
                (filter (BirthdayService.isDue (now w)) (messageLogs w))).
  set (items := map (fun r => (r, Prisma.userOf (users w) r)) due).
  set (key := fun m : MessageLog.t * option User.t => MessageLog.id (fst m)).
  set (wq := setDbCalls (S (dbCalls w)) w).
  set (I := fun w0 : World =>
              Spec.breakerOpen w0 /\ 0 < circuitBreakerResetTime (emailService w0)
              /\ now w0 = now w /\ outbox w0 = outbox w).
  assert (forall id w0, I w0 -> I (run (BirthdayService.processMessage P id) w0))
    as Hstep.
  { intros id w0 [Ho [Hp [Hn Hb]]].
    destruct (processMessage_keeps_open P id w0 Ho Hp) as [Ho' [Hp' [Hn' Hb']]].
    repeat split; try assumption; congruence. }
  assert (I wq) as Hq by (repeat split; assumption).
  assert (map key items = map MessageLog.id due) as Hkeys
    by (unfold items, key; apply dueItems_ids).
  destruct (forOf_returns P _ key items wq HP) as [w' E].
  change (forOf items
            (fun m => BirthdayService.processMessage P (MessageLog.id (fst m))) wq)
    with (forOf items (fun x => BirthdayService.processMessage P (key x)) wq).
  rewrite E. exists w'. split; [ reflexivity | ].
  pose proof (forOf_keeps P _ key I items wq Hstep Hq) as [Ho' [_ [_ Hb']]].
  unfold run in Ho', Hb'. rewrite E in Ho', Hb'. cbn [snd] in Ho', Hb'.
  split; [ exact Hb' | ]. split; [ exact Ho' | ].
  intros messageId r user Hr Hdue Huser.
  destruct (forOf_visits P _ key I messageId items wq HP)
    as [w1 [w2 [w3 [[Hr1 [Hu1 _]] [[Ho1 [_ [Hn1 _]]] [E2 [[Hr3 _] [_ [_ E3]]]]]]]]];
    try assumption.
  { rewrite Hkeys. apply dueIds_NoDup. exact Hnd. }
  { rewrite Hkeys. apply (dueIds_In _ _ _ r Hnd Hr). exact Hdue. }
  rewrite E in E3. inversion E3; subst w3.
  change (Spec.rowOf messageId wq) with (Spec.rowOf messageId w) in Hr1.
  change (users wq) with (users w) in Hu1.
  destruct (processMessage_delivers P messageId w1 r user HP)
    as [wl [res [ws [w2' [Hnl [_ [Hel [_ [Hpost [E2' [_ [_ [_ Hr2]]]]]]]]]]]]].
  { rewrite Hr1. exact Hr. }
  { rewrite Hn1. apply andb_true_iff in Hdue as [_ Hfree]. exact Hfree. }
  { rewrite Hu1. exact Huser. }
  rewrite E2 in E2'. inversion E2'; subst w2'.
  assert (Spec.breakerOpen wl) as Hopenl.
  { destruct Ho1 as [u [Hu Hlt]]. exists u. rewrite Hel, Hnl. auto. }
  destruct Hpost as [_ [_ [Hblocked _]]]. destruct (Hblocked Hopenl) as [-> _].
  rewrite Hr3, Hr2. reflexivity.
Qed.

Lemma tick_under_open_breaker_spends_attempts_witness :
  exists w',
    BirthdayService.processPendingMessages Scenario.always200
      (setNow (Scenario.t0 + 500)
         (setEmailService (emailService Scenario.afterThreeFailures)
            Scenario.pendingWorld))
    = (Return tt, w')
    /\ outbox w' = []
    /\ Spec.progress "msg-1" w' = Some (RETRY, 1).
Proof.
  destruct (tick_under_open_breaker_spends_attempts Scenario.always200
              (setNow (Scenario.t0 + 500)
                 (setEmailService (emailService Scenario.afterThreeFailures)
                    Scenario.pendingWorld)))
    as [w' [E [Ho [_ H]]]].
  - intros n. reflexivity.
  - unfold Spec.uniqueIds. cbn. repeat constructor; cbn; intuition discriminate.
  - eexists. split; [ reflexivity | ]. vm_compute. reflexivity.
  - vm_compute. reflexivity.
  - exists w'. split; [ exact E | ]. split; [ exact Ho | ].
    unfold Spec.progress.
    rewrite (H "msg-1" (Scenario.row "msg-1" "user-1" PENDING None None None)
               Scenario.john eq_refl eq_refl eq_refl).
    reflexivity.
Defined.

(** X26. [processMessage] when the email service answers a status that
    [sendEmail] does not retry (below 500, outside 200 to 299, neither 408
    nor 429): one request is made, the lease is released, the error text
    "HTTP <status>: <statusText>" is stored and the retry count is one
    higher. The row is RETRY unless the count has reached
    [EMAIL_SERVICE_MAX_RETRIES]: the next tick sends it again. *)
Theorem processMessage_records_client_error :
  forall P messageId w r user response,
    Spec.reliableDb P ->
    Spec.rowOf messageId w = Some r ->
    BirthdayService.lockFree (now w) r = true ->
    Prisma.userOf (users w) r = Some user ->
    ~ Spec.breakerOpen w ->
    remote P (List.length (outbox w)) = Axios.Resolve response ->
    Axios.status response < 500 ->
    ~ 200 <= Axios.status response < 300 ->
    Axios.status response <> 408 ->
    Axios.status response <> 429 ->
    exists w',
      BirthdayService.processMessage P messageId w = (Return tt, w')
      /\ Spec.rowOf messageId w'
         = Some (MessageLog.failureData
                   (if envInt (EMAIL_SERVICE_MAX_RETRIES (env P)) 3
                         <=? MessageLog.retryCount r + 1
                    then FAILED else RETRY)
                   (MessageLog.retryCount r + 1)
                   ("HTTP " ++ showZ (Axios.status response) ++ ": "
                    ++ Axios.statusText response) r)
      /\ outbox w' = (outbox w ++ [Spec.greetingPayload user])%list
      /\ now w' = now w.
Proof.
  intros P messageId w r user response HP Hrow Hfree Huser Hclosed Hr H500 H2xx H408 H429.
  destruct (processMessage_delivers P messageId w r user HP Hrow Hfree Huser)
    as [wl [res [ws [w' [Hn [Ho [He [Esend [_ [E [Ho' [_ [Hn' Hrow']]]]]]]]]]]]].
  assert (~ Spec.breakerOpen wl) as Hclosed'.
  { intros [u [Hu Hlt]]. apply Hclosed. exists u. rewrite <- He, <- Hn. auto. }
  assert (Spec.failed (remote P (List.length (outbox wl))) = true) as Hfailed.
  { rewrite Ho, Hr. cbn. apply negb_true_iff, andb_false_iff.
    destruct (Z.le_gt_cases 200 (Axios.status response));
      [ right; apply Z.ltb_ge | left; apply Z.leb_gt ]; lia. }
  assert (Spec.retryableFailure (remote P (List.length (outbox wl))) = false) as Hnr.
  { rewrite Ho, Hr. cbn. apply andb_false_iff. right.
    apply Z.eqb_neq in H408, H429. rewrite H408, H429.
    assert ((500 <=? Axios.status response) = false) as -> by (apply Z.leb_gt; lia).
    reflexivity. }
  unfold EmailService.sendBirthdayMessage, EmailService.sendEmail in Esend.
  match type of Esend with
  | EmailService.sendEmailFrom P ?b ?email ?message 0 wl = _ =>
      destruct (sendEmailFrom_step P b email message 0 wl)
        as [[Hopen _] | [[_ [Hf _]] | [[_ [_ [_ E1]]] | [_ [_ [_ [Hf _]]]]]]]
  end; try contradiction; try congruence.
  rewrite E1 in Esend.
  pose proof (f_equal snd Esend) as Hws. cbn [snd] in Hws.
  pose proof (f_equal fst Esend) as Hres. cbn [fst] in Hres.
  assert (forall a b : EmailService.SendResult, Return a = Return b -> a = b) as Hinj
    by (intros a b H; now inversion H).
  apply Hinj in Hres. clear Hinj Esend.
  destruct (updateMetrics_failure_run
              (Spec.finalFailure (timeout (emailService wl))
                 (remote P (List.length (outbox wl))))
              (Spec.requested (User.email user)
                 (EmailService.birthdayText
                    (User.firstName user ++ " " ++ User.lastName user))
                 (Spec.halfOpened wl)))
    as [_ [Hn2 [Ho2 _]]].
  rewrite Hws in Hn2, Ho2. unfold Spec.requested in Hn2, Ho2.
  rewrite Ho, Hr in Hres. cbn [Spec.finalFailure] in Hres.
  destruct (halfOpened_closed wl Hclosed') as [_ [_ [Hn1 [Ho1 _]]]].
  world_simpl.
  exists w'. split; [ exact E | ].
  split; [ | split ].
  - rewrite Hrow', <- Hres. cbn [EmailService.success]. unfold Spec.errorText.
    cbn [EmailService.error truthy append]. reflexivity.
  - rewrite Ho', Ho2, Ho1, Ho. reflexivity.
  - rewrite Hn', Hn2, Hn1, Hn. reflexivity.
Qed.

Lemma processMessage_records_client_error_witness :
  exists w',
    BirthdayService.processMessage (Scenario.always (Scenario.http 400 "Bad Request")
                                      defaultEnv)
      "msg-1" Scenario.pendingWorld
    = (Return tt, w')
    /\ Spec.progress "msg-1" w' = Some (RETRY, 1)
    /\ List.length (outbox w') = 1%nat.
Proof.
  destruct (processMessage_records_client_error
              (Scenario.always (Scenario.http 400 "Bad Request") defaultEnv)
              "msg-1" Scenario.pendingWorld
              (Scenario.row "msg-1" "user-1" PENDING None None None) Scenario.john
              (Axios.mkResponse 400 "Bad Request" (Some "{}")))
    as [w' [E [Hrow [Ho _]]]].
  - intros n. reflexivity.
  - reflexivity.
  - reflexivity.
  - reflexivity.
  - intros [u [Hu _]]. discriminate.
  - reflexivity.
  - cbn. lia.
  - cbn. lia.
  - cbn. lia.
  - cbn. lia.
  - exists w'. split; [ exact E | ].
    unfold Spec.progress. rewrite Hrow, Ho. split; reflexivity.
Defined.

(** * From the birthday to the greeting *)

(** X27. [createBirthdayMessages] throws only when its query for the
    active users fails, and then it has changed nothing; once that query
    has answered, the run returns whatever the database does afterwards:
    a failure while the greeting of one user is looked up or created is
    caught, and the loop goes on with the next user. *)
Theorem createBirthdayMessages_throws_only_when_user_query_fails :
  forall P w,
    exists w',
      BirthdayService.createBirthdayMessages P w
      = ((if dbFault P (dbCalls w)
          then Throw "PrismaClientKnownRequestError" else Return tt), w')
      /\ (dbFault P (dbCalls w) = true ->
          messageLogs w' = messageLogs w /\ users w' = users w).
Proof.
  intros P w. unfold BirthdayService.createBirthdayMessages.
  unfold tryCatch, bind at 1, Prisma.user_findMany, Prisma.query.
  destruct (dbFault P (dbCalls w)).
  - eexists. split; [ reflexivity | ]. intros _. split; reflexivity.
  - destruct (greetLoop_creates P (filter User.isActive (users w))
                (setDbCalls (S (dbCalls w)) w))
      as [w' [extra [E _]]].
    { intros u Hu. apply filter_In in Hu. exact Hu. }
    change (fun user : User.t =>
              today <- BirthdayService.isBirthdayToday P (User.birthday user)
                         (User.timezone user) ;;
              (if today : bool then BirthdayService.ensureBirthdayMessage P user
               else ret tt))
      with (Spec.greetIfBirthday P).
    world_simpl. rewrite E. exists w'. split; [ reflexivity | discriminate ].
Qed.

Lemma ensureBirthdayMessage_keeps_ids :
  forall P user w,
    Spec.freshIdentifiers P w -> Spec.uniqueIds w ->
    Spec.freshIdentifiers P (run (BirthdayService.ensureBirthdayMessage P user) w)
    /\ Spec.uniqueIds (run (BirthdayService.ensureBirthdayMessage P user) w).
Proof.
  intros P user w [Hinj Hfresh] Hnd. unfold run.
  destruct (ensureBirthdayMessage_cases P user w)
    as [w' [E [_ [_ [_ [_ [Hle Hl]]]]]]].
  rewrite E. cbn [snd]. unfold Spec.freshIdentifiers, Spec.uniqueIds in *.
  destruct Hl as [Hl | [at_ [_ [_ [Hc Hl]]]]]; rewrite Hl.
  - split; [ split; [ exact Hinj | ] | exact Hnd ].
    intros n Hn. apply Hfresh. lia.
  - rewrite map_app. cbn [map Spec.greetingRow MessageLog.id].
    split; [ split; [ exact Hinj | ] | ].
    + intros n Hn Hin. apply in_app_or in Hin as [Hin | [Hin | []]].
      * apply (Hfresh n); [ lia | exact Hin ].
      * apply Hinj in Hin. lia.
    + apply NoDup_snoc; [ exact Hnd | ]. apply Hfresh. lia.
Qed.

Lemma greetLoop_keeps_ids :
  forall P us w,
    Spec.freshIdentifiers P w -> Spec.uniqueIds w ->
    Spec.freshIdentifiers P (run (forOf us (Spec.greetIfBirthday P)) w)
    /\ Spec.uniqueIds (run (forOf us (Spec.greetIfBirthday P)) w).
Proof.
  intros P us; induction us as [ | u us IH ]; intros w Hfresh Hnd.
  - split; assumption.
  - assert (exists w1,
              forOf (u :: us) (Spec.greetIfBirthday P) w
              = forOf us (Spec.greetIfBirthday P) w1
              /\ Spec.freshIdentifiers P w1 /\ Spec.uniqueIds w1)
      as [w1 [E [Hf1 Hn1]]].
    { cbn [forOf]. unfold bind at 1, Spec.greetIfBirthday at 1.
      unfold bind at 1. rewrite isBirthdayToday_eq.
      destruct (Spec.birthdayToday P u (now w)).
      - destruct (ensureBirthdayMessage_keeps_ids P u w Hfresh Hnd) as [Hf1 Hn1].
        destruct (ensureBirthdayMessage_cases P u w) as [w1 [E1 _]].
        unfold run in Hf1, Hn1. rewrite E1 in Hf1, Hn1 |- *. cbn [snd] in Hf1, Hn1.
        exists w1. auto.
      - exists w. auto. }
    unfold run. rewrite E. apply IH; assumption.
Qed.

Lemma materialise_keeps_ids :
  forall P t w,
    Spec.freshIdentifiers P w -> Spec.uniqueIds w ->
    Spec.uniqueIds (Spec.materialise P t w).
Proof.
  intros P t w Hfresh Hnd.
  unfold Spec.materialise, run, BirthdayService.createBirthdayMessages.
  unfold tryCatch, bind at 1, Prisma.user_findMany, Prisma.query.
  destruct (dbFault P (dbCalls (setNow t w))); [ exact Hnd | ].
  change (fun user : User.t =>
            today <- BirthdayService.isBirthdayToday P (User.birthday user)
                       (User.timezone user) ;;
            (if today : bool then BirthdayService.ensureBirthdayMessage P user
             else ret tt))
    with (Spec.greetIfBirthday P).
  world_simpl.
  match goal with
  | |- context [ forOf ?us _ ?wq ] =>
      destruct (greetLoop_keeps_ids P us wq) as [_ H]; [ exact Hfresh | exact Hnd | ];
      unfold run in H; destruct (forOf us (Spec.greetIfBirthday P) wq) as [[[] | e] w']
  end; exact H.
Qed.

Lemma find_by_id :
  forall A (key : A -> string) l x,
    NoDup (map key l) -> In x l ->
    find (fun y => String.eqb (key y) (key x)) l = Some x.
Proof.
  intros A key l x Hnd Hin. induction l as [ | y l IH ]; [ destruct Hin | ].
  cbn [map] in Hnd. inversion Hnd as [ | ? ? Hy Hnd' ]; subst. cbn [find].
  destruct Hin as [-> | Hin].
  - now rewrite String.eqb_refl.
  - destruct (String.eqb_spec (key y) (key x)) as [Heq | Hne].
    + exfalso. apply Hy. rewrite Heq. now apply in_map.
    + now apply IH.
Qed.

(** A tick while the email service answers, for one row. *)
Lemma tick_delivers_row :
  forall P w messageId r user,
    Spec.reliableDb P ->
    (forall n, Spec.failed (remote P n) = false) ->
    Spec.uniqueIds w ->
    ~ Spec.breakerOpen w ->
    Spec.rowOf messageId w = Some r ->
    BirthdayService.isDue (now w) r = true ->
    Prisma.userOf (users w) r = Some user ->
    Spec.rowOf messageId (run (BirthdayService.processPendingMessages P) w)
    = Some (MessageLog.sentData (now w) r)
    /\ In (Spec.greetingPayload user)
         (outbox (run (BirthdayService.processPendingMessages P) w)).
Proof.
  intros P w messageId r user HP Hall Hnd Hclosed Hr Hdue Huser.
  unfold run. rewrite processPendingMessages_unfold by exact HP. unfold tryCatch.
  set (due := Prisma.orderByScheduledAt
                (filter (BirthdayService.isDue (now w)) (messageLogs w))).
  set (items := map (fun r => (r, Prisma.userOf (users w) r)) due).
  set (key := fun m : MessageLog.t * option User.t => MessageLog.id (fst m)).
  set (wq := setDbCalls (S (dbCalls w)) w).
  set (I := fun w0 : World => ~ Spec.breakerOpen w0 /\ now w0 = now w).
  assert (forall id w0, I w0 -> I (run (BirthdayService.processMessage P id) w0))
    as Hstep.
  { intros id w0 [Hc Hn].
    destruct (processMessage_keeps_closed P id w0 Hall Hc) as [Hc' Hn'].
    split; [ exact Hc' | congruence ]. }
  assert (I wq) as Hq by (split; [ exact Hclosed | reflexivity ]).
  assert (map key items = map MessageLog.id due) as Hkeys
    by (unfold items, key; apply dueItems_ids).
  change (forOf items
            (fun m => BirthdayService.processMessage P (MessageLog.id (fst m))) wq)
    with (forOf items (fun x => BirthdayService.processMessage P (key x)) wq).
  destruct (forOf_visits P _ key I messageId items wq HP)
    as [w1 [w2 [w3 [[Hr1 [Hu1 _]] [[Hc1 Hn1] [E2 [[Hr3 _] [_ [[extra Ho3] E3]]]]]]]]];
    try assumption.
  { rewrite Hkeys. apply dueIds_NoDup. exact Hnd. }
  { rewrite Hkeys. apply (dueIds_In _ _ _ r Hnd Hr). exact Hdue. }
  rewrite E3. cbn [snd].
  change (Spec.rowOf messageId wq) with (Spec.rowOf messageId w) in Hr1.
  change (users wq) with (users w) in Hu1.
  destruct (processMessage_delivers_ok P messageId w1 r user HP (Hall _) Hc1)
    as [w2' [E2' [Hr2 Ho2]]].
  { rewrite Hr1. exact Hr. }
  { rewrite Hn1. apply andb_true_iff in Hdue as [_ Hfree]. exact Hfree. }
  { rewrite Hu1. exact Huser. }
  rewrite E2 in E2'. inversion E2'; subst w2'.
  split; [ rewrite Hr3, Hr2, Hn1; reflexivity | ].
  rewrite Ho3, Ho2. apply in_or_app. left. apply in_or_app. right. now left.
Qed.

(** X28. From the birthday to the greeting. A user of the table is active,
    today is the user's birthday in the user's zone, and no greeting row of
    today exists yet. One run of [createBirthdayMessages] at the instant [t],
    then one run of [processPendingMessages] at an instant [t'] at or after
    the send-at instant of today, with the database and the email service
    answering and the breaker not open: there is a row of the user for
    today that is SENT at [t'], and the greeting of the user is among the
    requests made. *)
Theorem birthday_greeting_is_created_and_delivered :
  forall P w user t t',
    Spec.reliableDb P ->
    (forall n, Spec.failed (remote P n) = false) ->
    Spec.freshIdentifiers P w ->
    Spec.uniqueIds w ->
    Spec.uniqueUsers w ->
    ~ Spec.breakerOpen (setNow t' w) ->
    In user (users w) ->
    User.isActive user = true ->
    Spec.birthdayToday P user t = true ->
    0 <= Moment.year (Moment.civilDate (BirthdayService.zoneOf P (User.timezone user)) t)
      <= 9999 ->
    ~ Spec.hasGreeting user (Spec.todayOf P user t) (messageLogs w) ->
    (forall at_,
       BirthdayService.getScheduledTime P (User.timezone user) (Spec.todayOf P user t)
       = Some at_ -> at_ <= t') ->
    exists r,
      In r (messageLogs (Spec.tick P t' (Spec.materialise P t w)))
      /\ MessageLog.userId r = User.id user
      /\ MessageLog.scheduledDate r = Spec.todayOf P user t
      /\ MessageLog.status r = SENT
      /\ MessageLog.sentAt r = Some t'
      /\ In (Spec.greetingPayload user)
           (outbox (Spec.tick P t' (Spec.materialise P t w))).
Proof.
  intros P w user t t' HP Hall Hfresh Hnd [Huid _] Hclosed Hin Hact Hb Hy Hnone Hat.
  pose proof (materialise_keeps_ids P t w Hfresh Hnd) as Hnd1.
  destruct (materialise_serves P t w HP Hfresh) as [Hu1 Hs].
  destruct (createBirthdayMessages_creates P (setNow t w))
    as [c [w1 [extra [E [Hl [Hf [_ [_ [Ho He]]]]]]]]].
  assert (Spec.materialise P t w = w1) as Hw1
    by (unfold Spec.materialise, run; rewrite E; reflexivity).
  rewrite Hw1 in *. world_simpl.
  destruct (Hs user Hin Hact Hb) as [Hg | Hno];
    [ | destruct (getScheduledTime_today P user t Hy) as [at_ Hsome]; congruence ].
  apply hasGreeting_In, in_map_iff in Hg as [r [Hkey Hr]].
  unfold Spec.keyOf in Hkey. inversion Hkey as [[Hkid Hkty Hkd]].
  rewrite Hl in Hr. apply in_app_or in Hr as [Hr | Hr].
  { exfalso. apply Hnone. apply hasGreeting_In, in_map_iff.
    exists r. split; [ exact Hkey | exact Hr ]. }
  rewrite Forall_forall in Hf.
  destruct (Hf r Hr) as [user' [Hin' [_ [_ Hc]]]].
  destruct Hc as [Hcid [_ [_ [Hst [Hcd [Hcat [_ [_ [_ [Hlock [_ _]]]]]]]]]]].
  assert (user' = user) as ->
    by (apply (NoDup_map_injective_on _ _ User.id (users w)); auto; congruence).
  assert (In r (messageLogs w1)) as Hr1 by (rewrite Hl; apply in_or_app; now right).
  set (w1' := setNow t' w1).
  assert (Spec.rowOf (MessageLog.id r) w1' = Some r) as Hrow.
  { unfold Spec.rowOf, BirthdayService.hasId, w1'. world_simpl.
    apply (find_by_id _ MessageLog.id); [ exact Hnd1 | exact Hr1 ]. }
  assert (Prisma.userOf (users w1') r = Some user) as Huser.
  { unfold Prisma.userOf, w1'. world_simpl. rewrite Hu1, Hkid.
    apply (find_by_id _ User.id); [ exact Huid | exact Hin ]. }
  assert (BirthdayService.isDue (now w1') r = true) as Hdue.
  { unfold BirthdayService.isDue, BirthdayService.pendingOrRetry,
      BirthdayService.lockFree, w1'. world_simpl.
    rewrite Hst, Hlock. cbn [andb]. rewrite andb_true_r. apply Z.leb_le.
    apply Hat. exact Hcat. }
  destruct (tick_delivers_row P w1' (MessageLog.id r) r user HP Hall)
    as [Hsent Hout]; try assumption.
  { intros [u [Hu Hlt]]. apply Hclosed. exists u. unfold w1' in *. world_simpl.
    rewrite <- He. auto. }
  unfold Spec.tick. fold w1'.
  exists (MessageLog.sentData t' r).
  split; [ apply find_some in Hsent; apply Hsent | ].
  cbn [MessageLog.sentData MessageLog.userId MessageLog.scheduledDate
       MessageLog.status MessageLog.sentAt].
  repeat split; try assumption.
Qed.

Lemma birthday_greeting_is_created_and_delivered_witness :
  exists r,
    In r (messageLogs
            (Spec.tick Scenario.always200 (Scenario.utc 2026 5 15 13 5)
               (Spec.materialise Scenario.always200 (Scenario.utc 2026 5 15 6 0)
                  Scenario.birthdayMorning)))
    /\ MessageLog.userId r = "user-1"
    /\ MessageLog.scheduledDate r = "2026-05-15"
    /\ MessageLog.status r = SENT
    /\ MessageLog.sentAt r = Some (Scenario.utc 2026 5 15 13 5)
    /\ In (Spec.greetingPayload Scenario.john)
         (outbox
            (Spec.tick Scenario.always200 (Scenario.utc 2026 5 15 13 5)
               (Spec.materialise Scenario.always200 (Scenario.utc 2026 5 15 6 0)
                  Scenario.birthdayMorning))).
Proof.
  apply (birthday_greeting_is_created_and_delivered Scenario.always200
           Scenario.birthdayMorning Scenario.john
           (Scenario.utc 2026 5 15 6 0) (Scenario.utc 2026 5 15 13 5)).
  - intros n; reflexivity.
  - intros n; reflexivity.
  - split; [ exact ids_injective | intros n _ H; exact H ].
  - constructor.
  - split; cbn; repeat constructor; intros [].
  - intros [u [Hu _]]. discriminate.
  - left; reflexivity.
  - reflexivity.
  - vm_compute; reflexivity.
  - vm_compute. split; discriminate.
  - unfold Spec.hasGreeting. cbn. discriminate.
  - intros at_ H. vm_compute in H. inversion H. vm_compute. discriminate.
Defined.

(** * A delivery that cannot be recorded *)

(** X29. The email is sent and the database call that records it fails:
    [processMessage] has made the request, the [catch] block releases the
    lease, the call returns, and the row is as it was before the call but
    for the lease: still PENDING or RETRY, with no [sentAt]. A row that was
    due is due again, so the next tick sends the greeting once more. *)
Theorem processMessage_unrecorded_delivery_is_due_again :
  forall P messageId w r user response,
    dbFault P (dbCalls w) = false ->
    dbFault P (S (dbCalls w)) = false ->
    dbFault P (S (S (dbCalls w))) = true ->
    dbFault P (S (S (S (dbCalls w)))) = false ->
    Spec.rowOf messageId w = Some r ->
    BirthdayService.lockFree (now w) r = true ->
    Prisma.userOf (users w) r = Some user ->
    ~ Spec.breakerOpen w ->
    remote P (List.length (outbox w)) = Axios.Resolve response ->
    200 <= Axios.status response < 300 ->
    exists w',
      BirthdayService.processMessage P messageId w = (Return tt, w')
      /\ outbox w' = (outbox w ++ [Spec.greetingPayload user])%list
      /\ Spec.rowOf messageId w' = Some (MessageLog.unlockData r)
      /\ now w' = now w
      /\ (BirthdayService.isDue (now w) r = true ->
          BirthdayService.isDue (now w') (MessageLog.unlockData r) = true).
Proof.
  intros P messageId w r user response Hdb0 Hdb1 Hdb2 Hdb3 Hrow Hfree Huser Hclosed
    Hr Hs.
  pose proof (find_some _ _ Hrow) as [Hin Hid].
  rewrite processMessage_unfold.
  unfold tryCatch, BirthdayService.processLocked.
  unfold bind at 1, newDate at 1. world_simpl.
  unfold bind at 1, Prisma.messageLog_updateMany at 1, Prisma.query at 1.
  world_simpl. rewrite Hdb0.
  rewrite (filter_count_nonzero _ _ r Hin)
    by (rewrite Hid, Hfree; reflexivity).
  unfold bind at 1, Prisma.messageLog_findUnique at 1, Prisma.query at 1.
  world_simpl. rewrite Hdb1.
  change (fun r0 : MessageLog.t => (MessageLog.id r0 =? messageId)%string)
    with (BirthdayService.hasId messageId).
  rewrite find_hasId_map
    by (intros x; destruct (_ && _); reflexivity).
  unfold Spec.rowOf in Hrow. rewrite Hrow. cbn [option_map].
  rewrite Hid, Hfree. cbn [andb].
  change (Prisma.userOf (users w) (MessageLog.lockData _ _ r))
    with (Prisma.userOf (users w) r).
  rewrite Huser.
  unfold bind at 1.
  match goal with
  | |- context [ EmailService.sendBirthdayMessage P ?e ?n ?wl ] =>
      set (wl_ := wl);
      destruct (sendEmail_post P e (EmailService.birthdayText n) 0 wl_)
        as [res [ws [E [[Hu [Hl [Hd [Hc _]]]] _]]]]
  end.
  destruct (greeting_ok P user wl_) as [ws' [E' [Hns [_ Hos]]]].
  { exact Hclosed. }
  { unfold wl_; world_simpl. rewrite Hr. cbn.
    assert ((200 <=? Axios.status response) = true) as -> by (apply Z.leb_le; lia).
    assert ((Axios.status response <? 300) = true) as -> by (apply Z.ltb_lt; lia).
    reflexivity. }
  unfold Spec.greeting, EmailService.sendBirthdayMessage in E'.
  rewrite E in E'. inversion E'; subst res ws'. clear E'.
  unfold EmailService.sendBirthdayMessage at 1. rewrite E.
  cbn [EmailService.success].
  unfold bind at 1, newDate at 1.
  assert (dbCalls ws = S (S (dbCalls w))) as Hd' by (rewrite Hd; reflexivity).
  unfold Prisma.messageLog_update at 1, Prisma.query at 1.
  rewrite Hd', Hdb2.
  unfold BirthdayService.releaseOwnLock, bind,
    Prisma.messageLog_updateMany, Prisma.query.
  world_simpl. rewrite Hdb3.
  unfold ret. eexists. split; [ reflexivity | ]. world_simpl.
  split; [ rewrite Hos; reflexivity | ].
  split; [ | split; [ rewrite Hns; reflexivity | ] ].
  - unfold Spec.rowOf. world_simpl. rewrite Hl. unfold wl_. world_simpl.
    rewrite find_hasId_map by (intros x; destruct (_ && _); reflexivity).
    rewrite find_hasId_map by (intros x; destruct (_ && _); reflexivity).
    rewrite Hrow. cbn [option_map]. rewrite Hid, Hfree. cbn [andb].
    unfold BirthdayService.hasId in *.
    cbn [MessageLog.lockData MessageLog.id]. rewrite Hid.
    unfold BirthdayService.holdsLock. unfold MessageLog.lockData at 1.
    cbn [MessageLog.lockId]. rewrite String.eqb_refl. reflexivity.
  - unfold BirthdayService.isDue, BirthdayService.pendingOrRetry,
      BirthdayService.lockFree.
    cbn [MessageLog.unlockData MessageLog.status MessageLog.scheduledAt
         MessageLog.lockId].
    rewrite Hns. unfold wl_. world_simpl.
    intros Hdue. apply andb_true_iff in Hdue as [Hdue _]. rewrite Hdue. reflexivity.
Qed.

Lemma processMessage_unrecorded_delivery_is_due_again_witness :
  exists w',
    BirthdayService.processMessage Scenario.thirdCallFails "msg-1" Scenario.pendingWorld
    = (Return tt, w')
    /\ outbox w' = [Spec.greetingPayload Scenario.john]
    /\ Spec.progress "msg-1" w' = Some (PENDING, 0)
    /\ BirthdayService.isDue (now w')
         (MessageLog.unlockData (Scenario.row "msg-1" "user-1" PENDING None None None))
       = true.
Proof.
  destruct (processMessage_unrecorded_delivery_is_due_again Scenario.thirdCallFails
              "msg-1" Scenario.pendingWorld
              (Scenario.row "msg-1" "user-1" PENDING None None None) Scenario.john
              (Axios.mkResponse 200 "OK" (Some "{}")))
    as [w' [E [Ho [Hrow [Hn Hdue]]]]].
  - reflexivity.
  - reflexivity.
  - reflexivity.
  - reflexivity.
  - reflexivity.
  - reflexivity.
  - reflexivity.
  - intros [u [Hu _]]. discriminate.
  - reflexivity.
  - cbn. lia.
  - exists w'. split; [ exact E | ]. split; [ exact Ho | ].
    split; [ unfold Spec.progress; rewrite Hrow; reflexivity | ].
    apply Hdue. reflexivity.
Defined.

(** * A user deleted while a lease is held *)

(** Under the primary key, the row of an identifier is the one row with it. *)
Lemma unique_row :
  forall messageId w r y,
    Spec.uniqueIds w ->
    Spec.rowOf messageId w = Some r ->
    In y (messageLogs w) -> MessageLog.id y = messageId -> y = r.
Proof.
  intros messageId w r y Hnd Hrow Hy Hid.
  pose proof (find_some _ _ Hrow) as [Hin Hr].
  apply String.eqb_eq in Hr.
  pose proof (find_by_id _ MessageLog.id _ r Hnd Hin) as H1.
  pose proof (find_by_id _ MessageLog.id _ y Hnd Hy) as H2.
  rewrite Hid, <- Hr in H2. congruence.
Qed.

(** A filter does not see a rewriting of rows that it drops. *)
Lemma filter_map_same :
  forall A (c : A -> bool) (g : A -> A) l,
    (forall y, In y l -> g y = y \/ (c y = false /\ c (g y) = false)) ->
    filter c (map g l) = filter c l.
Proof.
  intros A c g l H. induction l as [ | x l IH ]; [ reflexivity | ].
  cbn [map filter].
  rewrite IH by (intros y Hy; apply H; now right).
  destruct (H x (or_introl eq_refl)) as [-> | [-> ->]]; reflexivity.
Qed.

(** X30. [processMessage] has taken the lease of a row and, before its
    re-read, the user of the row is deleted. The foreign key takes the row
    along with the user; the re-read finds no row and the call returns: no
    request is made, the email service is not touched, and the tables are as
    the deletion leaves them, without the user and without the rows of the
    user, the other rows as they were. *)
Theorem deleteUser_under_lease_ends_processing :
  forall P messageId w r user,
    Spec.reliableDb P ->
    Spec.uniqueIds w ->
    Spec.rowOf messageId w = Some r ->
    BirthdayService.lockFree (now w) r = true ->
    Prisma.userOf (users w) r = Some user ->
    exists w',
      Scenario.userDeletedUnderLease P messageId (MessageLog.userId r) w
      = (Return tt, w')
      /\ outbox w' = outbox w
      /\ emailService w' = emailService w
      /\ Spec.rowOf messageId w' = None
      /\ users w'
         = filter (fun u => negb (Prisma.userHasId (MessageLog.userId r) u)) (users w)
      /\ messageLogs w'
         = filter
             (fun x => negb (String.eqb (MessageLog.userId x) (MessageLog.userId r)))
             (messageLogs w).
Proof.
  intros P messageId w r user HP Hnd Hrow Hfree Huser.
  pose proof (find_some _ _ Hrow) as [Hin Hid].
  unfold Scenario.userDeletedUnderLease.
  unfold bind at 1, uuidv4 at 1. unfold bind at 1, newDate at 1. world_simpl.
  unfold tryCatch at 1.
  unfold bind at 1, newDate at 1. world_simpl.
  unfold bind at 1, Prisma.messageLog_updateMany at 1, Prisma.query at 1.
  rewrite HP. world_simpl.
  rewrite (filter_count_nonzero _ _ r Hin)
    by (rewrite Hid, Hfree; reflexivity).
  unfold bind at 1, tryCatch at 1, UserService.deleteUser, tryCatch at 1, bind at 1,
    Prisma.user_delete, Prisma.query at 1.
  rewrite HP. world_simpl.
  change (find (Prisma.userHasId (MessageLog.userId r)) (users w))
    with (Prisma.userOf (users w) r).
  rewrite Huser. unfold ret at 1.
  set (g := fun r0 : MessageLog.t =>
              if BirthdayService.hasId messageId r0 && BirthdayService.lockFree (now w) r0
              then MessageLog.lockData (uuid P (uuidCalls w))
                     (now w + BirthdayService.lockDuration) r0
              else r0).
  set (c := fun r0 : MessageLog.t =>
              negb (MessageLog.userId r0 =? MessageLog.userId r)%string).
  assert (forall y, In y (messageLogs w) -> g y = y \/ (c y = false /\ c (g y) = false))
    as Hg.
  { intros y Hy. unfold g.
    destruct (BirthdayService.hasId messageId y) eqn:Ey; [ | now left ].
    apply String.eqb_eq in Ey.
    rewrite (unique_row messageId w r y Hnd Hrow Hy Ey).
    right. unfold c. destruct (_ && _); cbn [MessageLog.lockData MessageLog.userId];
      rewrite String.eqb_refl; auto. }
  assert (filter c (map g (messageLogs w)) = filter c (messageLogs w)) as Hlogs
    by (apply filter_map_same; exact Hg).
  rewrite Hlogs.
  assert (find (fun r0 : MessageLog.t => (MessageLog.id r0 =? messageId)%string)
            (filter c (messageLogs w)) = None) as Hgone.
  { apply find_none_iff. intros y Hy. apply filter_In in Hy as [Hy Hc].
    destruct (String.eqb_spec (MessageLog.id y) messageId) as [Ey | ]; [ | reflexivity ].
    rewrite (unique_row messageId w r y Hnd Hrow Hy Ey) in Hc.
    unfold c in Hc. rewrite String.eqb_refl in Hc. discriminate. }
  unfold bind at 1, Prisma.messageLog_findUnique, Prisma.query.
  rewrite HP. world_simpl. rewrite Hgone.
  unfold ret. eexists. split; [ reflexivity | ]. world_simpl.
  repeat split; try reflexivity.
  unfold Spec.rowOf. world_simpl. exact Hgone.
Qed.

Lemma deleteUser_under_lease_ends_processing_witness :
  exists w',
    Scenario.userDeletedUnderLease Scenario.always200 "msg-1" "user-1"
      Scenario.pendingWorld
    = (Return tt, w')
    /\ outbox w' = []
    /\ users w' = []
    /\ messageLogs w' = [].
Proof.
  destruct (deleteUser_under_lease_ends_processing Scenario.always200 "msg-1"
              Scenario.pendingWorld
              (Scenario.row "msg-1" "user-1" PENDING None None None) Scenario.john)
    as [w' [E [Ho [_ [_ [Hu Hl]]]]]].
  - intros n; reflexivity.
  - repeat constructor. intros [].
  - reflexivity.
  - reflexivity.
  - reflexivity.
  - exists w'. split; [ exact E | ]. split; [ exact Ho | ].
    split; [ exact Hu | exact Hl ].
Defined.
